(** * MiVilla: the visitor access-credential lifecycle

    A shallow embedding of the parts of the repository that issue, validate
    and sweep access records:

    - [handleGenerate] of the [QRGenerator] component (components/QRTools),
    - [startScan], [stopCamera], [validateQR], [resetScanner] of the
      [QRValidator] component (components/QRTools),
    - [checkExpiration] and the tenant filter of [App] (App.tsx),
    - the state setter of [useLocalStorage] (hooks.ts),

    and of the parts around them:

    - the resident selection, the role gates and the quantity field of
      [QRGenerator], the panel of an accepted code of [QRValidator],
    - the menu of [Sidebar],
    - the initial value and the storage effect of [useLocalStorage],
    - [handleLogin], [handleLogout] and the user synchronisation of [App],
    - the residents screen [UserManagement]: the filtered rows, adding,
      editing, extending and deleting a record,
    - the profile screen [UserProfile],

    together with the pieces of the JavaScript platform these functions call:
    [JSON.stringify], [JSON.parse], property access, truthiness, strict
    equality against a string, string conversion, [new Date(v)],
    [Date.prototype.toISOString], [Array.prototype.filter] and
    [Array.prototype.find]. *)

From Stdlib Require Import String Ascii ZArith NArith Bool Lia SpecFloat List.
Import ListNotations.
Open Scope Z_scope.

Set Warnings "-register-all".

(* ================================================================== *)
(** * Part I: definitions                                              *)
(* ================================================================== *)

(** ** JavaScript strings

    A JavaScript string is a sequence of 16-bit code units.  The ASCII
    literals of the source are written [str "..."]. *)

Definition code_unit := N.
Definition jsstring := list code_unit.

Definition str (s : string) : jsstring :=
  map N_of_ascii (list_ascii_of_string s).

Fixpoint jsstring_eqb (a b : jsstring) : bool :=
  match a, b with
  | [], [] => true
  | x :: a', y :: b' => (x =? y)%N && jsstring_eqb a' b'
  | _, _ => false
  end.

(** ** Exceptions and results

    The exceptions that the modelled code can raise, and the outcome of a
    computation that may raise one. *)

Inductive exn :=
| SyntaxError      (* JSON.parse on text that is not JSON *)
| TypeError        (* property read on null, ToPrimitive without a primitive *)
| RangeError       (* toISOString on the Invalid Date *)
| UserError.       (* the Error thrown by the structure check of validateQR *)

Inductive result (A : Type) :=
| Ok (a : A)
| Throw (e : exn).
Arguments Ok {A} a.
Arguments Throw {A} e.

Definition rbind {A B} (r : result A) (k : A -> result B) : result B :=
  match r with
  | Ok a => k a
  | Throw e => Throw e
  end.

Definition obind {A B} (o : option A) (k : A -> option B) : option B :=
  match o with
  | Some a => k a
  | None => None
  end.

Declare Scope result_scope.
Delimit Scope result_scope with result.
Notation "'do' x <- r ; k" := (rbind r (fun x => k))
  (at level 10, x pattern at level 0, r at level 100, k at level 200)
  : result_scope.

Declare Scope option_scope.
Delimit Scope option_scope with option.
Notation "'let?' x := o 'in' k" := (obind o (fun x => k))
  (at level 10, x pattern at level 0, o at level 100, k at level 200)
  : option_scope.

(** ** JSON values

    The values [JSON.parse] can return and [JSON.stringify] is given.

    A number is kept as the exact decimal [m * 10^e] that its literal
    denotes; the double that JavaScript holds is computed from it where the
    code inspects the value ([Number_double]).  An object lists its own
    properties in creation order, which is the order in which they are
    enumerated as long as no key is an array index; the objects that the
    code serialises have no such key. *)

Inductive json :=
| JNull
| JBool (b : bool)
| JNumber (m e : Z)
| JString (s : jsstring)
| JArray (items : list json)
| JObject (props : list (jsstring * json)).

(** *** Host-defined behaviour

    What ECMAScript leaves to the implementation or to the machine's locale
    and time zone is a parameter of the development:

    - [Date_parse s]: the time value (milliseconds since the epoch) that
      [new Date(s)] holds for a string [s]; [None] is the Invalid Date (NaN).
      Strings without an offset (the value of a datetime-local input) are
      read in the local time zone, and formats other than the ISO one are
      implementation-defined.
    - [host_Number_toString m e]: the text of [Number::toString] for the
      double nearest to [m * 10^e], used for the numbers that are not
      integers of the safe range. *)

Class Host := {
  Date_parse : jsstring -> option Z;
  host_Number_toString : Z -> Z -> jsstring
}.

(** *** Numbers *)

(** The double nearest to [m * 10^e] (round to nearest, ties to even). *)
Definition Number_double (m e : Z) : spec_float :=
  if 0 <=? e then binary_normalize 53 1024 (m * 10 ^ e) 0 false
  else
    match m with
    | Z0 => S754_zero false
    | Zpos p =>
        SFdiv 53 1024 (S754_finite false p 0)
              (S754_finite false (Z.to_pos (10 ^ (- e))) 0)
    | Zneg p =>
        SFdiv 53 1024 (S754_finite true p 0)
              (S754_finite false (Z.to_pos (10 ^ (- e))) 0)
    end.

(** Whether the double nearest to [m * 10^e] is finite. *)
Definition Number_is_finite (m e : Z) : bool :=
  match Number_double m e with
  | S754_infinity _ => false
  | S754_nan => false
  | _ => true
  end.

(** *** JSON.stringify *)

Definition hex_digit (n : N) : code_unit :=
  (if n <? 10 then 48 + n else 87 + n)%N.

(** [UnicodeEscape]: a backslash, [u] and four lowercase hexadecimal digits. *)
Definition UnicodeEscape (c : code_unit) : jsstring :=
  [92; 117; hex_digit (c / 4096 mod 16); hex_digit (c / 256 mod 16);
   hex_digit (c / 16 mod 16); hex_digit (c mod 16)]%N.

Definition is_leading_surrogate (c : code_unit) : bool :=
  ((55296 <=? c) && (c <=? 56319))%N.

Definition is_trailing_surrogate (c : code_unit) : bool :=
  ((56320 <=? c) && (c <=? 57343))%N.

(** One code point of [QuoteJSONString] that is a single code unit. *)
Definition quote_unit (c : code_unit) : jsstring :=
  (if c =? 8 then [92; 98]
   else if c =? 9 then [92; 116]
   else if c =? 10 then [92; 110]
   else if c =? 12 then [92; 102]
   else if c =? 13 then [92; 114]
   else if c =? 34 then [92; 34]
   else if c =? 92 then [92; 92]
   else if (c <? 32) || is_leading_surrogate c || is_trailing_surrogate c
        then UnicodeEscape c
   else [c])%N.

(** The characters between the quotes: the string is read code point by code
    point, so a leading surrogate followed by a trailing one is copied and a
    lone surrogate is escaped. *)
Fixpoint quote_units (s : jsstring) : jsstring :=
  match s with
  | [] => []
  | c :: r =>
      if is_leading_surrogate c then
        match r with
        | d :: r' =>
            if is_trailing_surrogate d then c :: d :: quote_units r'
            else UnicodeEscape c ++ quote_units r
        | [] => UnicodeEscape c
        end
      else quote_unit c ++ quote_units r
  end.

Definition QuoteJSONString (s : jsstring) : jsstring :=
  34%N :: quote_units s ++ [34%N].

(** Decimal digits of a natural number, most significant first. *)
Fixpoint digits_aux (fuel : nat) (n : N) : jsstring :=
  match fuel with
  | O => [(48 + n mod 10)%N]
  | S f =>
      if (n <? 10)%N then [(48 + n)%N]
      else digits_aux f (n / 10) ++ [(48 + n mod 10)%N]
  end.

Definition digits (n : N) : jsstring :=
  digits_aux (N.to_nat (N.log2 n)) n.

Definition integer_text (z : Z) : jsstring :=
  if z <? 0 then 45%N :: digits (Z.abs_N z) else digits (Z.abs_N z).

(** The integers every double represents exactly. *)
Definition is_safe_integer (z : Z) : bool :=
  (- 9007199254740992 <=? z) && (z <=? 9007199254740992).

(** [Number::toString]: an integer of the safe range prints as its decimal
    digits; the text of every other number is the host's. *)
Definition Number_toString `{Host} (m e : Z) : jsstring :=
  if (e =? 0) && is_safe_integer m then integer_text m
  else host_Number_toString m e.

Fixpoint join_comma (l : list jsstring) : jsstring :=
  match l with
  | [] => []
  | [x] => x
  | x :: r => x ++ 44%N :: join_comma r
  end.

(** The text of a number in JSON: [Number::toString] for a finite number and
    [null] otherwise.  The integers of the safe range, which are finite, are
    recognised first. *)
Definition JSON_number `{Host} (m e : Z) : jsstring :=
  if (e =? 0) && is_safe_integer m then integer_text m
  else if Number_is_finite m e then host_Number_toString m e
  else str "null".

(** [JSON.stringify(v)] without replacer or indentation. *)
Fixpoint JSON_stringify `{Host} (v : json) : jsstring :=
  match v with
  | JNull => str "null"
  | JBool true => str "true"
  | JBool false => str "false"
  | JNumber m e => JSON_number m e
  | JString s => QuoteJSONString s
  | JArray items => 91%N :: join_comma (map JSON_stringify items) ++ [93%N]
  | JObject props =>
      123%N ::
      join_comma
        (map (fun kv => QuoteJSONString (fst kv) ++ 58%N :: JSON_stringify (snd kv))
             props)
      ++ [125%N]
  end.

(** *** JSON.parse *)

Definition is_ws (c : code_unit) : bool :=
  ((c =? 32) || (c =? 9) || (c =? 10) || (c =? 13))%N.

Fixpoint skip_ws (s : jsstring) : jsstring :=
  match s with
  | c :: r => if is_ws c then skip_ws r else s
  | [] => []
  end.

Definition is_digit (c : code_unit) : bool :=
  ((48 <=? c) && (c <=? 57))%N.

Definition hex_value (c : code_unit) : option N :=
  (if (48 <=? c) && (c <=? 57) then Some (c - 48)
   else if (97 <=? c) && (c <=? 102) then Some (c - 87)
   else if (65 <=? c) && (c <=? 70) then Some (c - 55)
   else None)%N.

Definition hex4 (a b c d : code_unit) : option code_unit :=
  (let? x := hex_value a in
   let? y := hex_value b in
   let? z := hex_value c in
   let? w := hex_value d in
   Some (x * 4096 + y * 256 + z * 16 + w)%N)%option.

Definition simple_escape (c : code_unit) : option code_unit :=
  (if c =? 34 then Some 34
   else if c =? 92 then Some 92
   else if c =? 47 then Some 47
   else if c =? 98 then Some 8
   else if c =? 102 then Some 12
   else if c =? 110 then Some 10
   else if c =? 114 then Some 13
   else if c =? 116 then Some 9
   else None)%N.

(** The characters of a string literal after its opening quote, up to and
    including the closing quote. *)
Fixpoint parse_chars (s : jsstring) : option (jsstring * jsstring) :=
  match s with
  | [] => None
  | c :: r =>
      if (c =? 34)%N then Some ([], r)
      else if (c =? 92)%N then
        match r with
        | [] => None
        | x :: r1 =>
            if (x =? 117)%N then
              match r1 with
              | a :: b :: c' :: d :: r2 =>
                  match hex4 a b c' d with
                  | Some u =>
                      (let? (t, rest) := parse_chars r2 in Some (u :: t, rest))%option
                  | None => None
                  end
              | _ => None
              end
            else
              match simple_escape x with
              | Some u =>
                  (let? (t, rest) := parse_chars r1 in Some (u :: t, rest))%option
              | None => None
              end
        end
      else if (c <? 32)%N then None
      else (let? (t, rest) := parse_chars r in Some (c :: t, rest))%option
  end.

Fixpoint take_digits (s : jsstring) : jsstring * jsstring :=
  match s with
  | c :: r =>
      if is_digit c then let '(ds, rest) := take_digits r in (c :: ds, rest)
      else ([], s)
  | [] => ([], [])
  end.

Definition digits_value (ds : jsstring) : N :=
  fold_left (fun a c => a * 10 + (c - 48))%N ds 0%N.

(** The integer part: a single [0], or a non-zero digit and more digits. *)
Definition parse_int (s : jsstring) : option (jsstring * jsstring) :=
  match s with
  | c :: r =>
      if (c =? 48)%N then Some ([c], r)
      else if is_digit c then Some (take_digits s)
      else None
  | [] => None
  end.

(** The optional fraction: a dot and at least one digit. *)
Definition parse_frac (s : jsstring) : option (jsstring * jsstring) :=
  match s with
  | c :: r =>
      if (c =? 46)%N then
        match take_digits r with
        | ([], _) => None
        | (ds, rest) => Some (ds, rest)
        end
      else Some ([], s)
  | [] => Some ([], [])
  end.

(** The optional exponent: [e] or [E], an optional sign, at least one digit. *)
Definition parse_exp (s : jsstring) : option (Z * jsstring) :=
  match s with
  | c :: r =>
      if ((c =? 101) || (c =? 69))%N then
        let '(neg, r1) :=
          match r with
          | x :: r' =>
              if (x =? 45)%N then (true, r')
              else if (x =? 43)%N then (false, r')
              else (false, r)
          | [] => (false, r)
          end in
        match take_digits r1 with
        | ([], _) => None
        | (ds, rest) =>
            let v := Z.of_N (digits_value ds) in
            Some (if neg then - v else v, rest)
        end
      else Some (0, s)
  | [] => Some (0, [])
  end.

(** A number literal without its sign: the mantissa [m] gathers the digits
    of the integer and fraction parts, the exponent [e] is the written
    exponent less the number of fraction digits. *)
Definition parse_unsigned (neg : bool) (s1 : jsstring)
  : option (Z * Z * jsstring) :=
  (let? (ip, s2) := parse_int s1 in
   let? (fp, s3) := parse_frac s2 in
   let? (ex, s4) := parse_exp s3 in
   let m := Z.of_N (digits_value (ip ++ fp)) in
   Some (if neg then - m else m, ex - Z.of_nat (length fp), s4))%option.

Definition parse_number (s : jsstring) : option (Z * Z * jsstring) :=
  match s with
  | c :: r =>
      if (c =? 45)%N then parse_unsigned true r else parse_unsigned false s
  | [] => None
  end.

Fixpoint strip_prefix (p s : jsstring) : option jsstring :=
  match p, s with
  | [], _ => Some s
  | x :: p', y :: s' => if (x =? y)%N then strip_prefix p' s' else None
  | _ :: _, [] => None
  end.

(** [CreateDataProperty]: a repeated key overwrites the value in place, a new
    key is appended. *)
Fixpoint obj_set (props : list (jsstring * json)) (k : jsstring) (v : json)
  : list (jsstring * json) :=
  match props with
  | [] => [(k, v)]
  | (k', v') :: r =>
      if jsstring_eqb k' k then (k', v) :: r else (k', v') :: obj_set r k v
  end.

(** The recursive-descent reading of a JSON value.  [fuel] bounds the depth
    of the recursion; [JSON_parse] supplies more than any text can use. *)
Fixpoint parse_value (fuel : nat) (s : jsstring) : option (json * jsstring) :=
  match fuel with
  | O => None
  | S f =>
      match skip_ws s with
      | [] => None
      | c :: r =>
          if (c =? 34)%N then
            (let? (t, rest) := parse_chars r in Some (JString t, rest))%option
          else if (c =? 91)%N then
            match skip_ws r with
            | d :: r' =>
                if (d =? 93)%N then Some (JArray [], r')
                else parse_elements f r []
            | [] => None
            end
          else if (c =? 123)%N then
            match skip_ws r with
            | d :: r' =>
                if (d =? 125)%N then Some (JObject [], r')
                else parse_members f r []
            | [] => None
            end
          else if (c =? 110)%N then
            (let? rest := strip_prefix (str "ull") r in Some (JNull, rest))%option
          else if (c =? 116)%N then
            (let? rest := strip_prefix (str "rue") r in Some (JBool true, rest))%option
          else if (c =? 102)%N then
            (let? rest := strip_prefix (str "alse") r in Some (JBool false, rest))%option
          else
            (let? (m, e, rest) := parse_number (c :: r) in
             Some (JNumber m e, rest))%option
      end
  end
with parse_elements (fuel : nat) (s : jsstring) (acc : list json)
  : option (json * jsstring) :=
  match fuel with
  | O => None
  | S f =>
      (let? (v, r) := parse_value f s in
       match skip_ws r with
       | c :: r' =>
           if (c =? 44)%N then parse_elements f r' (acc ++ [v])
           else if (c =? 93)%N then Some (JArray (acc ++ [v]), r')
           else None
       | [] => None
       end)%option
  end
with parse_members (fuel : nat) (s : jsstring) (acc : list (jsstring * json))
  : option (json * jsstring) :=
  match fuel with
  | O => None
  | S f =>
      match skip_ws s with
      | q :: r =>
          if (q =? 34)%N then
            (let? (k, r1) := parse_chars r in
             match skip_ws r1 with
             | c :: r2 =>
                 if (c =? 58)%N then
                   (let? (v, r3) := parse_value f r2 in
                    match skip_ws r3 with
                    | d :: r4 =>
                        if (d =? 44)%N then parse_members f r4 (obj_set acc k v)
                        else if (d =? 125)%N then Some (JObject (obj_set acc k v), r4)
                        else None
                    | [] => None
                    end)
                 else None
             | [] => None
             end)%option
          else None
      | [] => None
      end
  end.

(** [JSON.parse(text)]: one value, then only white space; anything else is a
    [SyntaxError]. *)
Definition JSON_parse (text : jsstring) : result json :=
  match parse_value (2 * length text + 2) text with
  | Some (v, rest) =>
      match skip_ws rest with
      | [] => Ok v
      | _ :: _ => Throw SyntaxError
      end
  | None => Throw SyntaxError
  end.

(** ** Operations of the language on JSON values *)

Fixpoint own_property (props : list (jsstring * json)) (k : jsstring)
  : option json :=
  match props with
  | [] => None
  | (k', v) :: r => if jsstring_eqb k' k then Some v else own_property r k
  end.

Definition has_own_property (props : list (jsstring * json)) (k : jsstring)
  : bool :=
  match own_property props k with
  | Some _ => true
  | None => false
  end.

(** [v.k] for a name [k] that no built-in prototype defines (the code reads
    [tenantId], [expiresAt] and [visitorName]): reading from [null] throws,
    an object answers with its own property or [undefined] ([None]), every
    other value answers [undefined]. *)
Definition get_field (v : json) (k : jsstring) : result (option json) :=
  match v with
  | JNull => Throw TypeError
  | JObject props => Ok (own_property props k)
  | _ => Ok None
  end.

(** [ToBoolean], with [None] for [undefined]. *)
Definition ToBoolean (v : option json) : bool :=
  match v with
  | None => false
  | Some JNull => false
  | Some (JBool b) => b
  | Some (JNumber m e) =>
      match Number_double m e with
      | S754_zero _ => false
      | S754_nan => false
      | _ => true
      end
  | Some (JString s) =>
      match s with
      | [] => false
      | _ :: _ => true
      end
  | Some (JArray _) => true
  | Some (JObject _) => true
  end.

(** [v === s] for a string [s]. *)
Definition strict_equal_string (v : option json) (s : jsstring) : bool :=
  match v with
  | Some (JString t) => jsstring_eqb t s
  | _ => false
  end.

Fixpoint join_results (l : list (result jsstring)) : result jsstring :=
  match l with
  | [] => Ok []
  | [x] => x
  | x :: r =>
      (do a <- x; do b <- join_results r; Ok (a ++ 44%N :: b))%result
  end.

(** [ToString(v)].  An array answers with [Array.prototype.join], in which
    [null] elements are empty; an object parsed from JSON has no callable
    [toString] of its own, so it answers [[object Object]] by inheritance
    unless an own property shadows [toString], in which case no method
    yields a primitive and the conversion throws. *)
Fixpoint ToString `{Host} (v : json) : result jsstring :=
  match v with
  | JNull => Ok (str "null")
  | JBool true => Ok (str "true")
  | JBool false => Ok (str "false")
  | JNumber m e => Ok (Number_toString m e)
  | JString s => Ok s
  | JArray items =>
      join_results
        (map (fun x => match x with
                       | JNull => Ok []
                       | _ => ToString x
                       end) items)
  | JObject props =>
      if has_own_property props (str "toString") then Throw TypeError
      else Ok (str "[object Object]")
  end.

(** ** Dates

    A [Date] is its time value: [Some t], milliseconds since the epoch, or
    [None] for the Invalid Date. *)

Definition Date := option Z.

(** [TimeClip(ToNumber(n))] for a number [m * 10^e]. *)
Definition Number_time (m e : Z) : Date :=
  match Number_double m e with
  | S754_zero _ => Some 0
  | S754_finite s mant ex =>
      let a := if 0 <=? ex then Z.pos mant * 2 ^ ex
               else Z.pos mant / 2 ^ (- ex) in
      if a <=? 8640000000000000 then Some (if s then - a else a) else None
  | S754_infinity _ => None
  | S754_nan => None
  end.

(** [new Date(v)]: a string is parsed, a number is clipped, [null] and the
    booleans are converted to numbers, an array or object is first converted
    to a primitive, which is a string. *)
Definition new_Date `{Host} (v : option json) : result Date :=
  match v with
  | None => Ok None
  | Some (JString s) => Ok (Date_parse s)
  | Some (JNumber m e) => Ok (Number_time m e)
  | Some JNull => Ok (Some 0)
  | Some (JBool b) => Ok (Some (if b then 1 else 0))
  | Some (JArray items) =>
      (do s <- ToString (JArray items); Ok (Date_parse s))%result
  | Some (JObject props) =>
      (do s <- ToString (JObject props); Ok (Date_parse s))%result
  end.

(** [a <= b] on dates: a comparison with NaN is false. *)
Definition Date_le (a b : Date) : bool :=
  match a, b with
  | Some x, Some y => x <=? y
  | _, _ => false
  end.

(** *** Date.prototype.toISOString *)

Definition msPerDay : Z := 86400000.

(** Year, month and day of a day number counted from 1970-01-01. *)
Definition civil_from_days (z : Z) : Z * Z * Z :=
  let z := z + 719468 in
  let era := z / 146097 in
  let doe := z - era * 146097 in
  let yoe := (doe - doe / 1460 + doe / 36524 - doe / 146096) / 365 in
  let doy := doe - (365 * yoe + yoe / 4 - yoe / 100) in
  let mp := (5 * doy + 2) / 153 in
  let d := doy - (153 * mp + 2) / 5 + 1 in
  let m := if mp <? 10 then mp + 3 else mp - 9 in
  let y := yoe + era * 400 in
  (if m <=? 2 then y + 1 else y, m, d).

(** [n] in decimal, padded with zeros to at least [width] digits. *)
Definition pad (width : nat) (n : Z) : jsstring :=
  let ds := digits (Z.abs_N n) in
  repeat 48%N (width - length ds) ++ ds.

Definition year_text (y : Z) : jsstring :=
  if (0 <=? y) && (y <=? 9999) then pad 4 y
  else (if y <? 0 then 45%N else 43%N) :: pad 6 y.

(** The text that [toISOString] gives for a time value [t]:
    [YYYY-MM-DDTHH:mm:ss.sssZ]. *)
Definition Date_toISOString (t : Z) : jsstring :=
  let ms := t mod msPerDay in
  let '(y, m, d) := civil_from_days (t / msPerDay) in
  year_text y ++ 45%N :: pad 2 m ++ 45%N :: pad 2 d ++ 84%N ::
  pad 2 (ms / 3600000) ++ 58%N :: pad 2 (ms / 60000 mod 60) ++ 58%N ::
  pad 2 (ms / 1000 mod 60) ++ 46%N :: pad 3 (ms mod 1000) ++ [90%N].

(** The time values: the integers of at most 8.64e15 in absolute value.
    [TimeClip] makes NaN of every other number. *)
Definition time_in_range (n : Z) : bool := Z.abs n <=? 8640000000000000.

(** [new Date(n).toISOString()] for an integer [n]: outside the range of
    time values the date is the Invalid Date, on which [toISOString] throws
    a [RangeError]. *)
Definition new_Date_toISOString (n : Z) : result jsstring :=
  if time_in_range n then Ok (Date_toISOString n) else Throw RangeError.

(** *** A sample host

    A host whose local time zone is UTC and whose [Date.parse] reads the
    date-time format of ECMAScript, [YYYY-MM-DD] optionally followed by
    [THH:mm], [THH:mm:ss] or [THH:mm:ss.sss] and by [Z], and nothing else.
    It serves to run the definitions on concrete data. *)

Definition days_from_civil (y m d : Z) : Z :=
  let y := if m <=? 2 then y - 1 else y in
  let era := y / 400 in
  let yoe := y - era * 400 in
  let doy := (153 * (if 2 <? m then m - 3 else m + 9) + 2) / 5 + d - 1 in
  let doe := yoe * 365 + yoe / 4 - yoe / 100 + doy in
  era * 146097 + doe - 719468.

Definition days_in_month (y m : Z) : Z :=
  if m =? 2 then
    if ((y mod 4 =? 0) && negb (y mod 100 =? 0)) || (y mod 400 =? 0)
    then 29 else 28
  else if (m =? 4) || (m =? 6) || (m =? 9) || (m =? 11) then 30
  else 31.

(** Exactly [n] decimal digits at the head of [s]. *)
Fixpoint fixed_digits (n : nat) (s : jsstring) : option (Z * jsstring) :=
  match n with
  | O => Some (0, s)
  | S n' =>
      match s with
      | c :: r =>
          if is_digit c then
            (let? (v, rest) := fixed_digits n' r in
             Some (Z.of_N (c - 48) * 10 ^ Z.of_nat n' + v, rest))%option
          else None
      | [] => None
      end
  end.

Definition expect (c : code_unit) (s : jsstring) : option jsstring :=
  match s with
  | x :: r => if (x =? c)%N then Some r else None
  | [] => None
  end.
Arguments expect c%_N s.

(** The time of day after [T]: milliseconds since midnight and the rest. *)
Definition iso_time (s : jsstring) : option (Z * jsstring) :=
  (let? (hh, s1) := fixed_digits 2 s in
   let? s2 := expect 58 s1 in
   let? (mi, s3) := fixed_digits 2 s2 in
   let? (ss, s4) :=
     match expect 58 s3 with
     | Some s3' => fixed_digits 2 s3'
     | None => Some (0, s3)
     end in
   let? (ms, s5) :=
     match expect 46 s4 with
     | Some s4' => fixed_digits 3 s4'
     | None => Some (0, s4)
     end in
   if (hh <=? 23) && (mi <=? 59) && (ss <=? 59)
   then Some (hh * 3600000 + mi * 60000 + ss * 1000 + ms, s5)
   else None)%option.

Definition iso_parse (s : jsstring) : option Z :=
  (let? (y, s1) := fixed_digits 4 s in
   let? s2 := expect 45 s1 in
   let? (m, s3) := fixed_digits 2 s2 in
   let? s4 := expect 45 s3 in
   let? (d, s5) := fixed_digits 2 s4 in
   if (1 <=? m) && (m <=? 12) && (1 <=? d) && (d <=? days_in_month y m) then
     let day := days_from_civil y m d * msPerDay in
     match s5 with
     | [] => Some day
     | _ :: _ =>
         let? s6 := expect 84 s5 in
         let? (ms, s7) := iso_time s6 in
         match s7 with
         | [] => Some (day + ms)
         | [z] => if (z =? 90)%N then Some (day + ms) else None
         | _ => None
         end
     end
   else None)%option.

Definition IsoUtcHost : Host := {|
  Date_parse := iso_parse;
  host_Number_toString := fun m e =>
    integer_text m ++ 101%N :: integer_text e
|}.

(** ** The records of types.ts *)

Inductive Role := X | A | B.

Definition Role_text (r : Role) : jsstring :=
  match r with
  | X => str "X"
  | A => str "A"
  | B => str "B"
  end.

Module User.
Record t := {
  id : jsstring;
  name : jsstring;
  email : jsstring;
  role : Role;
  tenantId : jsstring;
  avatar : jsstring;
  unit : option jsstring
}.
End User.

Inductive ResidentType := Resident | Family | Visitor | Delivery.
Inductive ResidentStatus := Active | Inactive.

Module Resident.
Record t := {
  id : jsstring;
  tenantId : jsstring;
  name : jsstring;
  unit : jsstring;
  type : ResidentType;
  status : ResidentStatus;
  licensePlate : option jsstring;
  expirationDate : option jsstring
}.
End Resident.

(** ** The payload of a QR code (components/QRTools) *)

Module CreatedBy.
Record t := {
  name : jsstring;
  role : jsstring;
  id : jsstring
}.
End CreatedBy.

Module QRPayload.
Record t := {
  id : jsstring;
  tenantId : jsstring;
  residentName : jsstring;
  residentUnit : jsstring;
  visitorName : jsstring;
  createdBy : CreatedBy.t;
  expiresAt : jsstring;
  generatedAt : Z
}.

(** The object that the literal of [handleGenerate] builds: the properties
    in the order in which they are written. *)
Definition to_json (p : t) : json :=
  JObject
    [(str "id", JString (id p));
     (str "tenantId", JString (tenantId p));
     (str "residentName", JString (residentName p));
     (str "residentUnit", JString (residentUnit p));
     (str "visitorName", JString (visitorName p));
     (str "createdBy",
      JObject
        [(str "name", JString (CreatedBy.name (createdBy p)));
         (str "role", JString (CreatedBy.role (createdBy p)));
         (str "id", JString (CreatedBy.id (createdBy p)))]);
     (str "expiresAt", JString (expiresAt p));
     (str "generatedAt", JNumber (generatedAt p) 0)].
End QRPayload.

(** The transport string of a payload: [JSON.stringify(payload)]. *)
Definition encode `{Host} (p : QRPayload.t) : jsstring :=
  JSON_stringify (QRPayload.to_json p).

(** ** The world of [handleGenerate]

    [crypto.randomUUID()] and [Date.now()] read the outside world: the n-th
    call of each returns the n-th element of a source.  A computation
    threads how many elements it has drawn. *)

Record World := {
  uuid_source : nat -> jsstring;
  uuids_drawn : nat;
  clock_source : nat -> Z;
  clock_reads : nat
}.

Definition M (T : Type) : Type := World -> T * World.

Definition ret {T} (x : T) : M T := fun w => (x, w).

Definition bind {T U} (m : M T) (k : T -> M U) : M U :=
  fun w => let '(x, w') := m w in k x w'.

Declare Scope world_scope.
Delimit Scope world_scope with world.
Notation "x <- m ;; k" := (bind m (fun x => k))
  (at level 61, m at next level, right associativity) : world_scope.

Definition randomUUID : M jsstring :=
  fun w =>
    (uuid_source w (uuids_drawn w),
     {| uuid_source := uuid_source w; uuids_drawn := S (uuids_drawn w);
        clock_source := clock_source w; clock_reads := clock_reads w |}).

Definition Date_now : M Z :=
  fun w =>
    (clock_source w (clock_reads w),
     {| uuid_source := uuid_source w; uuids_drawn := uuids_drawn w;
        clock_source := clock_source w; clock_reads := S (clock_reads w) |}).

(** ** QRGenerator (components/QRTools) *)

Record QRGeneratorState := {
  selectedResidentId : jsstring;
  expirationDate : jsstring;
  quantity : Z;
  generatedCodes : list jsstring
}.

(** [onChange] of the quantity input: [setQuantity(parseInt(value) || 1)],
    given what [parseInt] returned ([None] for NaN). *)
Definition onQuantityChange (parsed : option Z) (st : QRGeneratorState)
  : QRGeneratorState :=
  {| selectedResidentId := selectedResidentId st;
     expirationDate := expirationDate st;
     quantity := match parsed with
                 | Some z => if z =? 0 then 1 else z
                 | None => 1
                 end;
     generatedCodes := generatedCodes st |}.

(** The object literal of one iteration of the loop of [handleGenerate]. *)
Definition new_payload (user : User.t) (selectedResident : Resident.t)
    (finalExpiration : jsstring) : M QRPayload.t :=
  (uuid <- randomUUID ;;
   now <- Date_now ;;
   ret {| QRPayload.id := uuid;
          QRPayload.tenantId := User.tenantId user;
          QRPayload.residentName := Resident.name selectedResident;
          QRPayload.residentUnit := Resident.unit selectedResident;
          QRPayload.visitorName := str "Invitado";
          QRPayload.createdBy :=
            {| CreatedBy.name := User.name user;
               CreatedBy.role := Role_text (User.role user);
               CreatedBy.id := User.id user |};
          QRPayload.expiresAt := finalExpiration;
          QRPayload.generatedAt := now |})%world.

(** [for (let i = 0; i < quantity; i++) { ... }]: [n] is the number of
    iterations that remain.  The payloads are returned next to the codes
    pushed on [newCodes]. *)
Fixpoint generate_loop `{Host} (n : nat) (user : User.t)
    (selectedResident : Resident.t) (finalExpiration : jsstring)
    (payloads : list QRPayload.t) (newCodes : list jsstring)
  : M (list QRPayload.t * list jsstring) :=
  match n with
  | O => ret (payloads, newCodes)
  | S n' =>
      (payload <- new_payload user selectedResident finalExpiration ;;
       generate_loop n' user selectedResident finalExpiration
         (payloads ++ [payload]) (newCodes ++ [encode payload]))%world
  end.

(** [expirationDate || new Date(Date.now() + 24 * 60 * 60 * 1000).toISOString()]:
    the clock is read only where no date was entered, and [toISOString]
    throws where the sum is no time value. *)
Definition default_expiration (expirationDate : jsstring) : M (result jsstring) :=
  match expirationDate with
  | _ :: _ => ret (Ok expirationDate)
  | [] =>
      (now <- Date_now ;;
       ret (new_Date_toISOString (now + 24 * 60 * 60 * 1000)))%world
  end.

(** The statements of [handleGenerate] before [setGeneratedCodes]: the
    payloads and codes they build, [Ok None] where the function returns
    early, and the [RangeError] of [toISOString], which nothing catches. *)
Definition handleGenerate_body `{Host} (user : User.t)
    (residents : list Resident.t) (st : QRGeneratorState)
  : M (result (option (list QRPayload.t * list jsstring))) :=
  match selectedResidentId st with
  | [] => ret (Ok None)
  | _ :: _ =>
      match find (fun r => jsstring_eqb (Resident.id r) (selectedResidentId st))
                 residents with
      | None => ret (Ok None)
      | Some selectedResident =>
          (finalExpiration <- default_expiration (expirationDate st) ;;
           match finalExpiration with
           | Throw e => ret (Throw e)
           | Ok finalExpiration =>
               batch <- generate_loop (Z.to_nat (quantity st)) user
                          selectedResident finalExpiration [] [] ;;
               ret (Ok (Some batch))
           end)%world
      end
  end.

(** The payloads and codes that [handleGenerate] gives to
    [setGeneratedCodes], or [None] where it does not get there: it returns
    early or throws. *)
Definition issue `{Host} (user : User.t) (residents : list Resident.t)
    (st : QRGeneratorState)
  : M (option (list QRPayload.t * list jsstring)) :=
  (r <- handleGenerate_body user residents st ;;
   ret match r with
       | Ok batch => batch
       | Throw _ => None
       end)%world.

(** The state of the generator after [handleGenerate]: the one before
    where [setGeneratedCodes] is not called. *)
Definition handleGenerate `{Host} (user : User.t) (residents : list Resident.t)
    (st : QRGeneratorState) : M QRGeneratorState :=
  (batch <- issue user residents st ;;
   ret match batch with
       | None => st
       | Some (_, newCodes) =>
           {| selectedResidentId := selectedResidentId st;
              expirationDate := expirationDate st;
              quantity := quantity st;
              generatedCodes := newCodes |}
       end)%world.

(** ** QRValidator (components/QRTools) *)

Inductive ScanStatus := idle | scanning | valid | invalid.

(** The texts given to [setErrorMsg], with the values spliced into them:
    the empty text; the camera could not be opened (No se pudo acceder a la
    camara); the code belongs to another tenant (Este codigo pertenece a
    otro condominio), with the tenant found; the code has expired (El codigo
    ha caducado), with its date; the code is not one of the system (no es
    compatible con el sistema CondoGuard). *)
Inductive message :=
| msg_none
| msg_camera
| msg_other_tenant (tenant : jsstring)
| msg_expired (expiresAt : Z)
| msg_incompatible.

Record QRValidatorState := {
  scanStatus : ScanStatus;
  scannedData : option json;
  errorMsg : message;
  srcObject : bool;      (* the video element holds a live camera stream *)
  requestRef : bool      (* an animation frame is requested *)
}.

Definition setScanStatus (s : ScanStatus) (st : QRValidatorState) :=
  {| scanStatus := s; scannedData := scannedData st; errorMsg := errorMsg st;
     srcObject := srcObject st; requestRef := requestRef st |}.

Definition setScannedData (d : option json) (st : QRValidatorState) :=
  {| scanStatus := scanStatus st; scannedData := d; errorMsg := errorMsg st;
     srcObject := srcObject st; requestRef := requestRef st |}.

Definition setErrorMsg (m : message) (st : QRValidatorState) :=
  {| scanStatus := scanStatus st; scannedData := scannedData st; errorMsg := m;
     srcObject := srcObject st; requestRef := requestRef st |}.

(** How the request [navigator.mediaDevices.getUserMedia(...)] ends: the
    promise resolves with a stream, the promise rejects (no camera, no
    permission), or the call itself throws before there is a promise
    ([navigator.mediaDevices] is undefined). *)
Inductive getUserMedia_result :=
| stream_granted
| stream_refused
| media_unavailable.

(** [startScan] up to its [await]: the three setters. *)
Definition startScan_begin (st : QRValidatorState) : QRValidatorState :=
  setScannedData None (setErrorMsg msg_none (setScanStatus scanning st)).

(** The [catch] block of [startScan]. *)
Definition startScan_catch (st : QRValidatorState) : QRValidatorState :=
  setScanStatus invalid (setErrorMsg msg_camera st).

(** [startScan] after its [await]: the stream is attached to the video
    element, which is mounted while the status is [scanning], and the first
    frame is requested; a rejection runs the [catch] block. *)
Definition startScan_resume (r : getUserMedia_result) (st : QRValidatorState)
  : QRValidatorState :=
  match r with
  | stream_granted =>
      match scanStatus st with
      | scanning =>
          {| scanStatus := scanStatus st; scannedData := scannedData st;
             errorMsg := errorMsg st; srcObject := true; requestRef := true |}
      | _ => st
      end
  | _ => startScan_catch st
  end.

(** The states that a call of [startScan] commits, in order.  The function
    runs in the click handler up to its [await], and React renders once for
    the updates of that run: where the promise is awaited, that is the state
    with the status [scanning], followed by the state after the promise
    settles; where the call throws there is no [await], the [catch] block
    runs in the same turn and only its state is rendered. *)
Definition startScan (r : getUserMedia_result) (st : QRValidatorState)
  : list QRValidatorState :=
  match r with
  | media_unavailable => [startScan_catch (startScan_begin st)]
  | _ => [startScan_begin st; startScan_resume r (startScan_begin st)]
  end.

Definition stopCamera (st : QRValidatorState) : QRValidatorState :=
  {| scanStatus := scanStatus st; scannedData := scannedData st;
     errorMsg := errorMsg st; srcObject := false; requestRef := false |}.

(** The first step of [validateQR], which is all the decoding there is:
    [JSON.parse] and the check of the structure. *)
Definition decode (rawData : jsstring) : result json :=
  (do payload <- JSON_parse rawData;
   do tenantId <- get_field payload (str "tenantId");
   do expiresAt <- get_field payload (str "expiresAt");
   do visitorName <- get_field payload (str "visitorName");
   (* 1. Validate Structure *)
   if negb (ToBoolean tenantId) || negb (ToBoolean expiresAt)
      || negb (ToBoolean visitorName)
   then Throw UserError
   else Ok payload)%result.

(** The body of the [try] block of [validateQR]; [now] is what [new Date()]
    reads. *)
Definition validateQR_try `{Host} (user : User.t) (now : Z) (rawData : jsstring)
    (st : QRValidatorState) : result QRValidatorState :=
  (do payload <- decode rawData;
   do tenantId <- get_field payload (str "tenantId");
   do expiresAt <- get_field payload (str "expiresAt");
   (* 2. Validate Domain (Tenant Security) *)
   if negb (strict_equal_string tenantId (User.tenantId user)) then
     do tenant <- match tenantId with
                  | Some v => ToString v
                  | None => Ok (str "undefined")
                  end;
     Ok (setScanStatus invalid (setErrorMsg (msg_other_tenant tenant) st))
   else
     (* 3. Validate Expiration: [expDate < new Date()] is false for an
        Invalid Date *)
     do expDate <- new_Date expiresAt;
     match expDate with
     | Some t =>
         if t <? now
         then Ok (setScanStatus invalid (setErrorMsg (msg_expired t) st))
         (* 4. Success *)
         else Ok (setScanStatus valid (setScannedData (Some payload) st))
     | None => Ok (setScanStatus valid (setScannedData (Some payload) st))
     end)%result.

(** [validateQR]: whatever the [try] block throws is caught. *)
Definition validateQR `{Host} (user : User.t) (now : Z) (rawData : jsstring)
    (st : QRValidatorState) : QRValidatorState :=
  match validateQR_try user now rawData st with
  | Ok st' => st'
  | Throw _ => setScanStatus invalid (setErrorMsg msg_incompatible st)
  end.

Definition resetScanner (st : QRValidatorState) : QRValidatorState :=
  setErrorMsg msg_none (setScannedData None (setScanStatus idle (stopCamera st))).

(** One frame of [tick] in which [jsQR] finds a code with text [data]. *)
Definition tick_found `{Host} (user : User.t) (now : Z) (data : jsstring)
    (st : QRValidatorState) : QRValidatorState :=
  validateQR user now data (stopCamera st).

(** The outcome that a state of the validator shows, in the words of the
    specification. *)
Inductive RejectReason :=
| MalformedPayload
| TenantMismatch (foundTenant : jsstring)
| Expired (expiresAt : Z)
| AcquisitionFailed.

Inductive ValidationOutcome :=
| Accepted (credential : json)
| Rejected (reason : RejectReason).

Definition outcome (st : QRValidatorState) : option ValidationOutcome :=
  match scanStatus st with
  | valid => option_map Accepted (scannedData st)
  | invalid =>
      match errorMsg st with
      | msg_incompatible => Some (Rejected MalformedPayload)
      | msg_other_tenant t => Some (Rejected (TenantMismatch t))
      | msg_expired t => Some (Rejected (Expired t))
      | msg_camera => Some (Rejected AcquisitionFailed)
      | msg_none => None
      end
  | idle => None
  | scanning => None
  end.

(** The state in which a scan starts: what [startScan] has set. *)
Definition scanning_state : QRValidatorState :=
  {| scanStatus := scanning; scannedData := None; errorMsg := msg_none;
     srcObject := true; requestRef := true |}.

Definition idle_state : QRValidatorState :=
  {| scanStatus := idle; scannedData := None; errorMsg := msg_none;
     srcObject := false; requestRef := false |}.

(** [validate(raw, T, now)] of the specification: a detected code is handed
    to [validateQR] by the checkpoint user. *)
Definition validate `{Host} (user : User.t) (now : Z) (raw : jsstring)
  : option ValidationOutcome :=
  outcome (tick_found user now raw scanning_state).

(** ** App (App.tsx) and useLocalStorage (hooks.ts) *)

(** What an updater function hands back to React: the very object it was
    given ([return currentResidents]), or another one ([filter] always
    allocates a new array). *)
Inductive updated (T : Type) :=
| Same
| Replaced (next : T).
Arguments Same {T}.
Arguments Replaced {T} next.

(** The residents kept by [useLocalStorage('condoguard_residents', ...)]:
    the array held in the React state, and the values that the
    synchronising effect has handed to [localStorage.setItem], the latest
    first. *)
Record Store := {
  residents : list Resident.t;
  setItem_log : list (list Resident.t)
}.

(** [setValue(updater)] of [useLocalStorage]: React keeps the state, and runs
    no render and no effect, when the updater returns the object it was
    given; otherwise the new array is rendered and the effect writes it. *)
Definition setValue (updater : list Resident.t -> updated (list Resident.t))
    (st : Store) : Store :=
  match updater (residents st) with
  | Same => st
  | Replaced next =>
      {| residents := next; setItem_log := next :: setItem_log st |}
  end.

(** [Array.prototype.filter] with a callback that also updates a variable of
    the enclosing function. *)
Fixpoint Array_filter {T S : Type} (callback : T -> S -> bool * S)
    (l : list T) (s : S) : list T * S :=
  match l with
  | [] => ([], s)
  | x :: l' =>
      let '(keep, s1) := callback x s in
      let '(kept, s2) := Array_filter callback l' s1 in
      (if keep then x :: kept else kept, s2)
  end.

(** The callback of the filter of [checkExpiration]; the state is the
    variable [hasChanges].  [new Date(r.expirationDate) <= now] is false for
    an Invalid Date. *)
Definition keep_resident `{Host} (now : Z) (r : Resident.t) (hasChanges : bool)
  : bool * bool :=
  match Resident.expirationDate r with
  | None => (true, hasChanges)              (* Keep if no expiration date *)
  | Some [] => (true, hasChanges)
  | Some (c :: d) =>
      let expDate := Date_parse (c :: d) in
      let isExpired := Date_le expDate (Some now) in
      (negb isExpired, if isExpired then true else hasChanges)
  end.

(** The updater that [checkExpiration] gives to [setResidents]; [now] is
    what [new Date()] reads. *)
Definition expiration_updater `{Host} (now : Z)
    (currentResidents : list Resident.t) : updated (list Resident.t) :=
  let '(validResidents, hasChanges) :=
    Array_filter (keep_resident now) currentResidents false in
  if hasChanges then Replaced validResidents else Same.

Definition checkExpiration `{Host} (now : Z) (st : Store) : Store :=
  setValue (expiration_updater now) st.

(** The number of records a sweep removes. *)
Definition removedCount `{Host} (now : Z) (st : Store) : nat :=
  length (residents st) - length (residents (checkExpiration now st)).

(** [tenantResidents]: the records of the tenant of the current user. *)
Definition tenantResidents (residents : list Resident.t)
    (currentUser : option User.t) : list Resident.t :=
  match currentUser with
  | Some u =>
      filter (fun r => jsstring_eqb (Resident.tenantId r) (User.tenantId u))
             residents
  | None => []
  end.

(** The generator as [App] mounts it:
    [<QRGenerator user={currentUser} residents={tenantResidents} />]. *)
Definition App_issue `{Host} (st : Store) (currentUser : User.t)
    (gen : QRGeneratorState)
  : M (option (list QRPayload.t * list jsstring)) :=
  issue currentUser (tenantResidents (residents st) (Some currentUser)) gen.

(** ** Vocabulary of the properties *)

(** The values whose text [JSON.stringify] fixes without the host and that
    are objects of the language: every number is an integer of the safe
    range and no object lists a key twice. *)
Fixpoint distinct (l : list jsstring) : bool :=
  match l with
  | [] => true
  | k :: r => negb (existsb (jsstring_eqb k) r) && distinct r
  end.

Fixpoint printable (v : json) : bool :=
  match v with
  | JNull => true
  | JBool _ => true
  | JNumber m e => (e =? 0) && is_safe_integer m
  | JString _ => true
  | JArray items => forallb printable items
  | JObject props =>
      distinct (map fst props) && forallb (fun kv => printable (snd kv)) props
  end.

(** Fuel that reading the text of a value takes. *)
Fixpoint weight (v : json) : nat :=
  match v with
  | JArray items => S (fold_right (fun x n => S (weight x + n)) O items)
  | JObject props => S (fold_right (fun kv n => S (weight (snd kv) + n)) O props)
  | _ => 1
  end.

(** Text after which a number literal ends. *)
Definition number_end (s : jsstring) : bool :=
  match s with
  | [] => true
  | c :: _ => negb (is_digit c || (c =? 46) || (c =? 101) || (c =? 69))%N
  end.

Definition nonempty (s : jsstring) : bool :=
  match s with
  | [] => false
  | _ :: _ => true
  end.

(** The fields that [validateQR] requires are not empty. *)
Definition required_fields_present (p : QRPayload.t) : bool :=
  nonempty (QRPayload.tenantId p) && nonempty (QRPayload.expiresAt p)
  && nonempty (QRPayload.visitorName p).

(** A valid credential: the required fields are present and [generatedAt]
    is an integer of the safe range, as every reading of [Date.now()] is. *)
Definition valid_credential (p : QRPayload.t) : bool :=
  required_fields_present p && is_safe_integer (QRPayload.generatedAt p).

(** The grants that a sweep at [now] retains, in the words of the
    specification: the expiration date is unset (absent or empty), or it is
    strictly later than [now]; and, beyond those words, a date that is set
    but that the host cannot read. *)
Definition expiration_unset (r : Resident.t) : bool :=
  match Resident.expirationDate r with
  | None => true
  | Some d => negb (nonempty d)
  end.

(** The instant at which a record expires, where the date is set and read. *)
Definition expiration_time `{Host} (r : Resident.t) : Date :=
  match Resident.expirationDate r with
  | None => None
  | Some [] => None
  | Some (c :: d) => Date_parse (c :: d)
  end.

Definition expiration_unreadable `{Host} (r : Resident.t) : bool :=
  negb (expiration_unset r)
  && match expiration_time r with
     | Some _ => false
     | None => true
     end.

Definition expires_after `{Host} (now : Z) (r : Resident.t) : bool :=
  match expiration_time r with
  | Some t => now <? t
  | None => false
  end.

Definition retained `{Host} (now : Z) (r : Resident.t) : bool :=
  expiration_unset r || expiration_unreadable r || expires_after now r.

(** [l1] is [l2] with some elements left out: the elements that remain are
    the same records in the same order. *)
Inductive subsequence {T : Type} : list T -> list T -> Prop :=
| subsequence_nil : subsequence [] []
| subsequence_keep x l1 l2 : subsequence l1 l2 -> subsequence (x :: l1) (x :: l2)
| subsequence_drop x l1 l2 : subsequence l1 l2 -> subsequence l1 (x :: l2).

Definition with_tenant (t : jsstring) (r : Resident.t) : Resident.t :=
  {| Resident.id := Resident.id r;
     Resident.tenantId := t;
     Resident.name := Resident.name r;
     Resident.unit := Resident.unit r;
     Resident.type := Resident.type r;
     Resident.status := Resident.status r;
     Resident.licensePlate := Resident.licensePlate r;
     Resident.expirationDate := Resident.expirationDate r |}.

(** The payload of the iteration [i] of the loop of [handleGenerate] that
    starts in the world [w]. *)
Definition nth_payload (user : User.t) (selectedResident : Resident.t)
    (finalExpiration : jsstring) (w : World) (i : nat) : QRPayload.t :=
  {| QRPayload.id := uuid_source w (uuids_drawn w + i);
     QRPayload.tenantId := User.tenantId user;
     QRPayload.residentName := Resident.name selectedResident;
     QRPayload.residentUnit := Resident.unit selectedResident;
     QRPayload.visitorName := str "Invitado";
     QRPayload.createdBy :=
       {| CreatedBy.name := User.name user;
          CreatedBy.role := Role_text (User.role user);
          CreatedBy.id := User.id user |};
     QRPayload.expiresAt := finalExpiration;
     QRPayload.generatedAt := clock_source w (clock_reads w + i) |}.

(** The world after [u] more identifiers and [c] more readings of the clock. *)
Definition advance (w : World) (u c : nat) : World :=
  {| uuid_source := uuid_source w; uuids_drawn := uuids_drawn w + u;
     clock_source := clock_source w; clock_reads := clock_reads w + c |}.

(** The expiry that [handleGenerate] gives to a batch issued in [w]. *)
Definition batch_expiration (gen : QRGeneratorState) (w : World) : jsstring :=
  if nonempty (expirationDate gen) then expirationDate gen
  else Date_toISOString (clock_source w (clock_reads w) + 24 * 60 * 60 * 1000).

(** Whether a batch issued in [w] has an expiry: a date was entered, or the
    day after the next reading of the clock is a time value. *)
Definition expiry_available (gen : QRGeneratorState) (w : World) : bool :=
  nonempty (expirationDate gen)
  || time_in_range (clock_source w (clock_reads w) + 24 * 60 * 60 * 1000).

(** The record that the generator looks up: the first one with the selected
    identifier. *)
Definition selected_resident (residents : list Resident.t)
    (gen : QRGeneratorState) : option Resident.t :=
  match selectedResidentId gen with
  | [] => None
  | _ :: _ =>
      find (fun r => jsstring_eqb (Resident.id r) (selectedResidentId gen))
           residents
  end.

(** ** Sample data

    The users and residents of the mock database (constants.ts, App.tsx),
    with their names in ASCII, and a few credentials, on which the
    definitions are run. *)

Definition carlos : User.t :=
  {| User.id := str "u1"; User.name := str "Carlos Admin";
     User.email := str "carlos@alerces.com"; User.role := X;
     User.tenantId := str "t1";
     User.avatar := str "https://picsum.photos/seed/u1/200";
     User.unit := None |}.

Definition ana : User.t :=
  {| User.id := str "u2"; User.name := str "Ana Porteria";
     User.email := str "ana@alerces.com"; User.role := A;
     User.tenantId := str "t1";
     User.avatar := str "https://picsum.photos/seed/u2/200";
     User.unit := None |}.

Definition juan : Resident.t :=
  {| Resident.id := str "1"; Resident.tenantId := str "t1";
     Resident.name := str "Juan Perez"; Resident.unit := str "101";
     Resident.type := Resident; Resident.status := Active;
     Resident.licensePlate := Some (str "GH-45-22");
     Resident.expirationDate := None |}.

Definition maria : Resident.t :=
  {| Resident.id := str "2"; Resident.tenantId := str "t1";
     Resident.name := str "Maria Lopez"; Resident.unit := str "202";
     Resident.type := Resident; Resident.status := Active;
     Resident.licensePlate := None;
     Resident.expirationDate := None |}.

(** A visitor of another tenant whose stay ended on 2024-01-01. *)
Definition past_visitor : Resident.t :=
  {| Resident.id := str "7"; Resident.tenantId := str "t2";
     Resident.name := str "Visita"; Resident.unit := str "5";
     Resident.type := Visitor; Resident.status := Active;
     Resident.licensePlate := None;
     Resident.expirationDate := Some (str "2024-01-01T10:30") |}.

(** A record whose expiration date is set to a text that is no date. *)
Definition undated_visitor : Resident.t :=
  {| Resident.id := str "8"; Resident.tenantId := str "t1";
     Resident.name := str "Visita"; Resident.unit := str "101";
     Resident.type := Visitor; Resident.status := Active;
     Resident.licensePlate := None;
     Resident.expirationDate := Some (str "pronto") |}.

Definition sample_store : Store :=
  {| residents := [juan; past_visitor; maria];
     setItem_log := [[juan; past_visitor; maria]] |}.

(** 2030-01-01T00:00:00.000Z *)
Definition new_year_2030 : Z := 1893456000000.

Definition sample_credential (tenant visitor expires : jsstring) : QRPayload.t :=
  {| QRPayload.id := str "3f2c9a1e-0b7d-4c55-9e21-6a8d5f0b1c42";
     QRPayload.tenantId := tenant;
     QRPayload.residentName := str "Juan Perez";
     QRPayload.residentUnit := str "101";
     QRPayload.visitorName := visitor;
     QRPayload.createdBy :=
       {| CreatedBy.name := str "Carlos Admin"; CreatedBy.role := str "X";
          CreatedBy.id := str "u1" |};
     QRPayload.expiresAt := expires;
     QRPayload.generatedAt := 1700000000000 |}.

(** A credential of tenant t1 that expires at the start of 2030. *)
Definition invitation : QRPayload.t :=
  sample_credential (str "t1") (str "Invitado") (str "2030-01-01T00:00:00.000Z").

(** The same for tenant t2. *)
Definition foreign_invitation : QRPayload.t :=
  sample_credential (str "t2") (str "Invitado") (str "2030-01-01T00:00:00.000Z").

(** A credential of tenant t1 whose expiry is no date. *)
Definition undated_invitation : QRPayload.t :=
  sample_credential (str "t1") (str "Invitado") (str "never").

Definition sample_world : World :=
  {| uuid_source := fun n => str "uuid-" ++ digits (N.of_nat n);
     uuids_drawn := 0;
     clock_source := fun n => 1700000000000 + Z.of_nat n;
     clock_reads := 0 |}.

Definition sample_generator (count : Z) : QRGeneratorState :=
  {| selectedResidentId := str "1"; expirationDate := [];
     quantity := count; generatedCodes := [] |}.

(** A store that holds only the record with the unreadable date. *)
Definition undated_store : Store :=
  {| residents := [undated_visitor]; setItem_log := [[undated_visitor]] |}.

(** Five invitations asked of the sample store by its administrator. *)
Definition sample_issue
  : option (list QRPayload.t * list jsstring) * World :=
  App_issue (H := IsoUtcHost) sample_store carlos (sample_generator 5)
            sample_world.

Definition sample_payloads : list QRPayload.t :=
  match fst sample_issue with
  | Some (payloads, _) => payloads
  | None => []
  end.

Definition sample_codes : list jsstring :=
  match fst sample_issue with
  | Some (_, codes) => codes
  | None => []
  end.

(** The names of the fields that [validateQR] requires. *)
Definition required_keys : list jsstring :=
  [str "tenantId"; str "expiresAt"; str "visitorName"].

(** Auxiliary notions of the proofs about [JSON.parse]. *)

Definition then_cons (u : code_unit) (o : option (jsstring * jsstring)) :=
  match o with
  | Some (t, rest) => Some (u :: t, rest)
  | None => None
  end.

(** The text of one property of an object. *)
Definition member_text `{Host} (kv : jsstring * json) : jsstring :=
  QuoteJSONString (fst kv) ++ 58%N :: JSON_stringify (snd kv).

(** The first character of the text of a value starts no white space and
    closes no array or object. *)
Definition value_start (c : code_unit) : Prop :=
  is_ws c = false /\ c <> 93%N /\ c <> 125%N.

(** [parse_value] reads [v] back from its text, whatever follows it. *)
Definition reads `{Host} (v : json) : Prop :=
  printable v = true ->
  forall f rest,
    (weight v <= f)%nat -> number_end rest = true ->
    parse_value f (JSON_stringify v ++ rest) = Some (v, rest).

(** The fuel of [JSON_parse] covers the text of [v]. *)
Definition light `{Host} (v : json) : Prop :=
  printable v = true -> (weight v <= 2 * length (JSON_stringify v))%nat.

(** ** The panel of an accepted code (components/QRTools)

    [v.k] where [v] is itself the result of a property read: reading a
    property of [undefined] throws, as reading one of [null] does. *)
Definition get_member (v : option json) (k : jsstring) : result (option json) :=
  match v with
  | None => Throw TypeError
  | Some o => get_field o k
  end.

(** The property reads of the panel that [QRValidator] renders while the
    status is [valid], in the order of the markup: the visitor, the
    residence, who created the code, and the expiry. *)
Definition granted_panel (scannedData : json) : result (list (option json)) :=
  (do visitorName <- get_field scannedData (str "visitorName");
   do residentName <- get_field scannedData (str "residentName");
   do residentUnit <- get_field scannedData (str "residentUnit");
   do createdBy <- get_field scannedData (str "createdBy");
   do name <- get_member createdBy (str "name");
   do createdBy' <- get_field scannedData (str "createdBy");
   do role <- get_member createdBy' (str "role");
   do expiresAt <- get_field scannedData (str "expiresAt");
   Ok [visitorName; residentName; residentUnit; name; role; expiresAt])%result.

(** ** The events of a scan session (components/QRTools)

    What happens to a mounted [QRValidator]: the button that calls
    [startScan] is pressed, which runs the function up to its [await]; the
    request for the camera settles, which runs the rest of it; a frame shows
    a code to [tick]; a button that calls [resetScanner] is pressed.  Any
    order is allowed for, also the orders that the buttons on display rule
    out. *)
Inductive ScanEvent :=
| startScan_pressed
| camera_settled (r : getUserMedia_result)
| code_detected (now : Z) (data : jsstring)
| reset_pressed.

Definition scan_step `{Host} (user : User.t) (st : QRValidatorState)
    (ev : ScanEvent) : QRValidatorState :=
  match ev with
  | startScan_pressed => startScan_begin st
  | camera_settled r => startScan_resume r st
  | code_detected now data => tick_found user now data st
  | reset_pressed => resetScanner st
  end.

Definition scan_session `{Host} (user : User.t) (events : list ScanEvent)
  : QRValidatorState :=
  fold_left (scan_step user) events idle_state.

(** A payload with the three required fields and no other. *)
Definition bare_payload : json :=
  JObject [(str "tenantId", JString (str "t1"));
           (str "expiresAt", JString (str "2030-01-01"));
           (str "visitorName", JString (str "x"))].

(** What a state of the validator shows has been checked: the payload
    of a state with the status [valid] is one that [validateQR] accepts for
    the user, a state with the status [invalid] shows a reason, and nothing
    is left over in the other states. *)
Definition checked `{Host} (user : User.t) (st : QRValidatorState) : Prop :=
  match scanStatus st with
  | idle => st = idle_state
  | scanning => scannedData st = None /\ errorMsg st = msg_none
  | valid =>
      exists now raw payload,
        scannedData st = Some payload
        /\ validate user now raw = Some (Accepted payload)
  | invalid => exists reason, outcome st = Some (Rejected reason)
  end.



(** ** Roles and units *)

(** [a === b] on roles. *)
Definition Role_eqb (a b : Role) : bool :=
  match a, b with
  | X, X => true
  | A, A => true
  | B, B => true
  | _, _ => false
  end.

(** [s === o] for a string [s] and an optional string [o], such as the
    unit of a user or an identifier that may be [null]: a string is never
    equal to [undefined] or [null]. *)
Definition string_is (s : jsstring) (o : option jsstring) : bool :=
  match o with
  | Some t => jsstring_eqb s t
  | None => false
  end.

(** ** QRGenerator: the residents on offer and the access check
    (components/QRTools) *)


(** Whether [QRGenerator] renders its form rather than the denial:
    the denial is returned when [user.role !== 'B' && user.role !== 'X']. *)
Definition QRGenerator_granted (user : User.t) : bool :=
  negb (negb (Role_eqb (User.role user) B) && negb (Role_eqb (User.role user) X)).

(** Whether [QRValidator] renders its scanner rather than the denial:
    the denial is returned when [!['X', 'A'].includes(user.role)]. *)
Definition QRValidator_granted (user : User.t) : bool :=
  negb (negb (existsb (Role_eqb (User.role user)) [X; A])).

(** ** Sidebar (components/Sidebar)

    The entries of the menu: the identifier of the tab and the roles it is
    shown to.  The label and the icon of an entry are left out. *)
Definition menuItems : list (jsstring * list Role) :=
  [(str "dashboard", [X; A; B]);
   (str "users", [X; A; B]);
   (str "generate-qr", [X; B]);
   (str "validate-qr", [X; A]);
   (str "profile", [X; A; B])].

(** The tabs of the buttons that the menu renders for a user:
    [menuItems.filter(item => item.roles.includes(user.role))]. *)
Definition Sidebar_tabs (user : User.t) : list jsstring :=
  map fst
    (filter (fun item => existsb (Role_eqb (User.role user)) (snd item)) menuItems).

(** The resident of unit 101 of the mock database (constants.ts). *)
Definition beto : User.t :=
  {| User.id := str "u3"; User.name := str "Beto Residente";
     User.email := str "beto@alerces.com"; User.role := B;
     User.tenantId := str "t1";
     User.avatar := str "https://picsum.photos/seed/u3/200";
     User.unit := Some (str "101") |}.



(** ** The timer of the sweep (App.tsx)

    [checkExpiration] runs once when [App] mounts and then at every tick of
    [setInterval]; each run reads the clock anew.  [nows] are the readings,
    in the order of the runs. *)
Definition sweeps `{Host} (nows : list Z) (st : Store) : Store :=
  fold_left (fun s now => checkExpiration now s) nows st.

(** ** What [localStorage] holds (hooks.ts)

    The object of a resident as [JSON.stringify] sees it: the properties in
    the order in which the object literals of the code write them, and
    without the optional properties that are [undefined].  (An object that
    a spread has put together from two can list its two optional properties
    in the other order.) *)
Definition ResidentType_text (t : ResidentType) : jsstring :=
  match t with
  | Resident => str "Resident"
  | Family => str "Family"
  | Visitor => str "Visitor"
  | Delivery => str "Delivery"
  end.

Definition ResidentStatus_text (s : ResidentStatus) : jsstring :=
  match s with
  | Active => str "Active"
  | Inactive => str "Inactive"
  end.

Definition optional_property (k : jsstring) (v : option jsstring)
  : list (jsstring * json) :=
  match v with
  | Some s => [(k, JString s)]
  | None => []
  end.

Definition Resident_json (r : Resident.t) : json :=
  JObject
    ([(str "id", JString (Resident.id r));
      (str "tenantId", JString (Resident.tenantId r));
      (str "name", JString (Resident.name r));
      (str "unit", JString (Resident.unit r));
      (str "type", JString (ResidentType_text (Resident.type r)));
      (str "status", JString (ResidentStatus_text (Resident.status r)))]
     ++ optional_property (str "licensePlate") (Resident.licensePlate r)
     ++ optional_property (str "expirationDate") (Resident.expirationDate r)).

Definition residents_json (rs : list Resident.t) : json :=
  JArray (map Resident_json rs).

(** How [window.localStorage.getItem(key)] ends: it throws (the storage is
    denied to the page), or it returns the item, [None] for [null]. *)
Inductive getItem_result :=
| getItem_throws
| getItem_returns (item : option jsstring).

(** The initialiser of the state of [useLocalStorage]; [window] tells
    whether [typeof window] is not ['undefined'].  The empty text is falsy,
    and whatever the [try] block throws is caught. *)
Definition useLocalStorage_initial (window : bool) (stored : getItem_result)
    (initialValue : json) : json :=
  if negb window then initialValue
  else
    match stored with
    | getItem_throws => initialValue
    | getItem_returns None => initialValue
    | getItem_returns (Some []) => initialValue
    | getItem_returns (Some (c :: r)) =>
        match JSON_parse (c :: r) with
        | Ok v => v
        | Throw _ => initialValue
        end
    end.

(** The text that the effect of [useLocalStorage] hands to
    [localStorage.setItem]: [JSON.stringify(storedValue)]. *)
Definition useLocalStorage_effect `{Host} (storedValue : json) : jsstring :=
  JSON_stringify storedValue.


(** ** Strings: trimming, searching, case *)

(** The code units that [String.prototype.trim] removes: the white space
    and the line terminators of ECMAScript, all of the basic plane. *)
Definition is_white_space (c : code_unit) : bool :=
  ((c =? 9) || (c =? 10) || (c =? 11) || (c =? 12) || (c =? 13) || (c =? 32)
   || (c =? 160) || (c =? 5760) || ((8192 <=? c) && (c <=? 8202))
   || (c =? 8232) || (c =? 8233) || (c =? 8239) || (c =? 8287)
   || (c =? 12288) || (c =? 65279))%N.

Fixpoint String_trimStart (s : jsstring) : jsstring :=
  match s with
  | [] => []
  | c :: r => if is_white_space c then String_trimStart r else s
  end.

Definition String_trim (s : jsstring) : jsstring :=
  rev (String_trimStart (rev (String_trimStart s))).

Fixpoint String_startsWith (s p : jsstring) : bool :=
  match p, s with
  | [], _ => true
  | x :: p', y :: s' => (x =? y)%N && String_startsWith s' p'
  | _ :: _, [] => false
  end.

(** [s.includes(p)] *)
Fixpoint String_includes (s p : jsstring) : bool :=
  String_startsWith s p
  || match s with
     | [] => false
     | _ :: r => String_includes r p
     end.

(** [String.prototype.toLowerCase] and [toUpperCase] follow the case
    mappings of the Unicode character database, which are a parameter of
    the development. *)
Class Unicode := {
  String_toLowerCase : jsstring -> jsstring;
  String_toUpperCase : jsstring -> jsstring
}.

(** The case mappings restricted to the letters of ASCII, to run the
    definitions on ASCII data. *)
Definition AsciiCase : Unicode := {|
  String_toLowerCase :=
    map (fun c => if (65 <=? c) && (c <=? 90) then c + 32 else c)%N;
  String_toUpperCase :=
    map (fun c => if (97 <=? c) && (c <=? 122) then c - 32 else c)%N
|}.

(** [s || undefined] for a string [s]. *)
Definition or_undefined (s : jsstring) : option jsstring :=
  match s with
  | [] => None
  | _ :: _ => Some s
  end.

(** [!!o] for an optional string [o]: [undefined], [null] and the empty
    text are falsy. *)
Definition truthy (o : option jsstring) : bool :=
  match o with
  | Some (_ :: _) => true
  | _ => false
  end.

(** ** UserManagement (components/UserManagement) *)

(** The state [newResident] of the form that adds a person. *)
Module NewResident.
Record t := {
  name : jsstring;
  unit : jsstring;
  type : ResidentType;
  licensePlate : jsstring;
  expirationDate : jsstring
}.
End NewResident.

(** [Partial<Resident>], the type of [editForm]: each property is there or
    not; an optional property that is there may hold [undefined]. *)
Module PartialResident.
Record t := {
  id : option jsstring;
  tenantId : option jsstring;
  name : option jsstring;
  unit : option jsstring;
  type : option ResidentType;
  status : option ResidentStatus;
  licensePlate : option (option jsstring);
  expirationDate : option (option jsstring)
}.

(** [{}] *)
Definition empty : t :=
  {| id := None; tenantId := None; name := None; unit := None; type := None;
     status := None; licensePlate := None; expirationDate := None |}.

(** [{ ...resident }].  An optional property whose value is [undefined] is
    an own property of the object or not (it is one in the object that
    [handleAdd] builds, and not in one read from [localStorage]), which the
    record of a resident does not tell: the two booleans say whether such a
    property is there to be copied. *)
Definition copy (resident : Resident.t) (hasLicensePlate hasExpirationDate : bool)
  : t :=
  {| id := Some (Resident.id resident);
     tenantId := Some (Resident.tenantId resident);
     name := Some (Resident.name resident);
     unit := Some (Resident.unit resident);
     type := Some (Resident.type resident);
     status := Some (Resident.status resident);
     licensePlate :=
       match Resident.licensePlate resident with
       | Some s => Some (Some s)
       | None => if hasLicensePlate then Some None else None
       end;
     expirationDate :=
       match Resident.expirationDate resident with
       | Some s => Some (Some s)
       | None => if hasExpirationDate then Some None else None
       end |}.

(** [{ ...r, ...form }] *)
Definition assign (r : Resident.t) (form : t) : Resident.t :=
  {| Resident.id := match id form with Some v => v | None => Resident.id r end;
     Resident.tenantId :=
       match tenantId form with Some v => v | None => Resident.tenantId r end;
     Resident.name := match name form with Some v => v | None => Resident.name r end;
     Resident.unit := match unit form with Some v => v | None => Resident.unit r end;
     Resident.type := match type form with Some v => v | None => Resident.type r end;
     Resident.status :=
       match status form with Some v => v | None => Resident.status r end;
     Resident.licensePlate :=
       match licensePlate form with
       | Some v => v
       | None => Resident.licensePlate r
       end;
     Resident.expirationDate :=
       match expirationDate form with
       | Some v => v
       | None => Resident.expirationDate r
       end |}.
End PartialResident.

Module UserManagement.

Record t := {
  searchTerm : jsstring;
  filterType : jsstring;
  formError : jsstring;
  newResident : NewResident.t;
  editingId : option jsstring;
  editForm : PartialResident.t;
  extendingId : option jsstring;
  extensionDate : jsstring;
  deletingId : option jsstring
}.

Definition setSearchTerm (v : jsstring) (ui : t) : t :=
  {| searchTerm := v; filterType := filterType ui; formError := formError ui;
     newResident := newResident ui; editingId := editingId ui;
     editForm := editForm ui; extendingId := extendingId ui;
     extensionDate := extensionDate ui; deletingId := deletingId ui |}.

Definition setFilterType (v : jsstring) (ui : t) : t :=
  {| searchTerm := searchTerm ui; filterType := v; formError := formError ui;
     newResident := newResident ui; editingId := editingId ui;
     editForm := editForm ui; extendingId := extendingId ui;
     extensionDate := extensionDate ui; deletingId := deletingId ui |}.

Definition setFormError (v : jsstring) (ui : t) : t :=
  {| searchTerm := searchTerm ui; filterType := filterType ui; formError := v;
     newResident := newResident ui; editingId := editingId ui;
     editForm := editForm ui; extendingId := extendingId ui;
     extensionDate := extensionDate ui; deletingId := deletingId ui |}.

Definition setNewResident (v : NewResident.t) (ui : t) : t :=
  {| searchTerm := searchTerm ui; filterType := filterType ui;
     formError := formError ui; newResident := v; editingId := editingId ui;
     editForm := editForm ui; extendingId := extendingId ui;
     extensionDate := extensionDate ui; deletingId := deletingId ui |}.

Definition setEditingId (v : option jsstring) (ui : t) : t :=
  {| searchTerm := searchTerm ui; filterType := filterType ui;
     formError := formError ui; newResident := newResident ui; editingId := v;
     editForm := editForm ui; extendingId := extendingId ui;
     extensionDate := extensionDate ui; deletingId := deletingId ui |}.

Definition setEditForm (v : PartialResident.t) (ui : t) : t :=
  {| searchTerm := searchTerm ui; filterType := filterType ui;
     formError := formError ui; newResident := newResident ui;
     editingId := editingId ui; editForm := v; extendingId := extendingId ui;
     extensionDate := extensionDate ui; deletingId := deletingId ui |}.

Definition setExtendingId (v : option jsstring) (ui : t) : t :=
  {| searchTerm := searchTerm ui; filterType := filterType ui;
     formError := formError ui; newResident := newResident ui;
     editingId := editingId ui; editForm := editForm ui; extendingId := v;
     extensionDate := extensionDate ui; deletingId := deletingId ui |}.

Definition setExtensionDate (v : jsstring) (ui : t) : t :=
  {| searchTerm := searchTerm ui; filterType := filterType ui;
     formError := formError ui; newResident := newResident ui;
     editingId := editingId ui; editForm := editForm ui;
     extendingId := extendingId ui; extensionDate := v;
     deletingId := deletingId ui |}.

Definition setDeletingId (v : option jsstring) (ui : t) : t :=
  {| searchTerm := searchTerm ui; filterType := filterType ui;
     formError := formError ui; newResident := newResident ui;
     editingId := editingId ui; editForm := editForm ui;
     extendingId := extendingId ui; extensionDate := extensionDate ui;
     deletingId := v |}.

(** The form of a new person as it is first shown and after each addition:
    the unit is [user.role === 'B' ? (user.unit || '') : '']. *)
Definition blank (user : User.t) : NewResident.t :=
  {| NewResident.name := [];
     NewResident.unit :=
       if Role_eqb (User.role user) B
       then match User.unit user with
            | Some u => u
            | None => []
            end
       else [];
     NewResident.type := Family;
     NewResident.licensePlate := [];
     NewResident.expirationDate := [] |}.

(** The state of the component when it mounts. *)
Definition initial (user : User.t) : t :=
  {| searchTerm := []; filterType := str "ALL"; formError := [];
     newResident := blank user; editingId := None;
     editForm := PartialResident.empty; extendingId := None;
     extensionDate := []; deletingId := None |}.

(** The callback of the filter of [filtered]. *)
Definition matches {U : Unicode} (user : User.t) (ui : t) (r : Resident.t) : bool :=
  (* 1. Search Text Match *)
  let matchesSearch :=
    String_includes (String_toLowerCase (Resident.name r))
                    (String_toLowerCase (searchTerm ui))
    || String_includes (Resident.unit r) (searchTerm ui)
    || match Resident.licensePlate r with
       | Some (c :: p) =>
           String_includes (String_toLowerCase (c :: p))
                           (String_toLowerCase (searchTerm ui))
       | _ => false
       end in
  (* 2. Type/Category Match *)
  let matchesType :=
    jsstring_eqb (filterType ui) (str "ALL")
    || jsstring_eqb (ResidentType_text (Resident.type r)) (filterType ui) in
  (* 3. Role Constraints *)
  if Role_eqb (User.role user) B
  then string_is (Resident.unit r) (User.unit user) && matchesSearch && matchesType
  else matchesSearch && matchesType.

(** [filtered], the rows on display. *)
Definition filtered {U : Unicode} (user : User.t) (ui : t)
    (residents : list Resident.t) : list Resident.t :=
  filter (matches user ui) residents.

(** The object literal of [handleAdd]; [now] is what [Date.now()]
    answers. *)
Definition resident_of `{Host} (user : User.t) (form : NewResident.t) (now : Z)
  : Resident.t :=
  {| Resident.id := Number_toString now 0;
     Resident.tenantId := User.tenantId user;
     Resident.name := NewResident.name form;
     Resident.unit := NewResident.unit form;
     Resident.type := NewResident.type form;
     Resident.status := Active;
     Resident.licensePlate :=
       or_undefined (String_trim (NewResident.licensePlate form));
     Resident.expirationDate :=
       or_undefined (NewResident.expirationDate form) |}.

Definition handleAdd `{Host} (user : User.t) (ui : t) (st : Store)
  : M (t * Store) :=
  (* Validation *)
  if negb (nonempty (String_trim (NewResident.name (newResident ui))))
     || negb (nonempty (String_trim (NewResident.unit (newResident ui))))
  then ret (setFormError (str "Nombre y Unidad son obligatorios.") ui, st)
  else
    (now <- Date_now ;;
     let resident := resident_of user (newResident ui) now in
     ret (setNewResident (blank user) (setFormError [] ui),
          setValue (fun prev => Replaced (prev ++ [resident])) st))%world.

(** 1. Initiate Delete (Open Modal).  For a resident (role B) the record
    looked up is the first one with the identifier; when there is none the
    modal opens. *)
Definition initiateDelete (user : User.t) (residents : list Resident.t)
    (id : jsstring) (ui : t) : t :=
  (* Role check: Only X and B can delete *)
  if negb (Role_eqb (User.role user) X) && negb (Role_eqb (User.role user) B)
  then ui
  else if Role_eqb (User.role user) B
          && match find (fun r => jsstring_eqb (Resident.id r) id) residents with
             | Some target => negb (string_is (Resident.unit target) (User.unit user))
             | None => false
             end
  then ui
  else setDeletingId (Some id) ui.

(** 2. Confirm Delete (Execute Action) *)
Definition confirmDelete (ui : t) (st : Store) : t * Store :=
  match deletingId ui with
  | Some (c :: d) =>
      let ui1 := if string_is (c :: d) (editingId ui)
                 then setEditingId None ui else ui in
      let ui2 := if string_is (c :: d) (extendingId ui)
                 then setExtendingId None ui1 else ui1 in
      (setDeletingId None ui2,
       setValue
         (fun prev =>
            Replaced (filter (fun r => negb (jsstring_eqb (Resident.id r) (c :: d)))
                             prev))
         st)
  | _ => (ui, st)
  end.

Definition handleEditClick (user : User.t) (resident : Resident.t)
    (hasLicensePlate hasExpirationDate : bool) (ui : t) : t :=
  (* Allow X and B *)
  if negb (Role_eqb (User.role user) X) && negb (Role_eqb (User.role user) B)
  then ui
  (* Safety for B: Only edit own unit *)
  else if Role_eqb (User.role user) B
          && negb (string_is (Resident.unit resident) (User.unit user))
  then ui
  else
    setExtendingId None
      (setEditForm
         (PartialResident.copy resident hasLicensePlate hasExpirationDate)
         (setEditingId (Some (Resident.id resident)) ui)).

Definition handleCancelEdit (ui : t) : t :=
  setEditForm PartialResident.empty (setEditingId None ui).

Definition handleSaveEdit (ui : t) (st : Store) : t * Store :=
  match editingId ui, PartialResident.name (editForm ui),
        PartialResident.unit (editForm ui) with
  | Some (c :: d), Some (_ :: _), Some (_ :: _) =>
      (setEditForm PartialResident.empty (setEditingId None ui),
       setValue
         (fun prev =>
            Replaced
              (map (fun r =>
                      if jsstring_eqb (Resident.id r) (c :: d)
                      then PartialResident.assign r (editForm ui)
                      else r)
                   prev))
         st)
  | _, _, _ => (ui, st)
  end.

(** [handleExtendClick], given what the expression for [localIso]
    evaluates to: the date of the record, or the present instant where it
    has none, in the local time of the host and cut after the minutes; or
    [None] where [toISOString] throws a [RangeError] (the date of the record
    is invalid), in which case the handler ends after [setExtendingId], the
    one update it has queued. *)
Definition handleExtendClick (user : User.t) (resident : Resident.t)
    (localIso : option jsstring) (ui : t) : t :=
  if negb (Role_eqb (User.role user) X) && negb (Role_eqb (User.role user) B)
  then ui
  else
    match localIso with
    | Some text =>
        setEditingId None
          (setExtensionDate text (setExtendingId (Some (Resident.id resident)) ui))
    | None => setExtendingId (Some (Resident.id resident)) ui
    end.

Definition handleCancelExtension (ui : t) : t :=
  setExtensionDate [] (setExtendingId None ui).

Definition handleSaveExtension (id : jsstring) (ui : t) (st : Store) : t * Store :=
  (setExtensionDate [] (setExtendingId None ui),
   setValue
     (fun prev =>
        Replaced
          (map (fun r =>
                  if jsstring_eqb (Resident.id r) id
                  then {| Resident.id := Resident.id r;
                          Resident.tenantId := Resident.tenantId r;
                          Resident.name := Resident.name r;
                          Resident.unit := Resident.unit r;
                          Resident.type := Resident.type r;
                          Resident.status := Resident.status r;
                          Resident.licensePlate := Resident.licensePlate r;
                          Resident.expirationDate :=
                            or_undefined (extensionDate ui) |}
                  else r)
               prev))
     st).

(** *** What the user can do

    The events of the component, each enabled where the markup shows the
    control that raises it.  A row is named by its place among the rows on
    display. *)
Inductive Event :=
| add_name (v : jsstring)
| add_unit (v : jsstring)
| add_type (v : ResidentType)
| add_licensePlate (v : jsstring)
| add_expirationDate (v : jsstring)
| add_pressed
| search_typed (v : jsstring)
| filter_chosen (v : jsstring)
| row_extend (row : nat) (localIso : option jsstring)
| row_edit (row : nat) (hasLicensePlate hasExpirationDate : bool)
| row_delete (row : nat)
| edit_name (v : jsstring)
| edit_unit (v : jsstring)
| edit_type (v : ResidentType)
| edit_licensePlate (v : jsstring)
| edit_save
| edit_cancel
| extension_typed (v : jsstring)
| extension_save
| extension_cancel
| delete_cancel
| delete_confirm
| timer (now : Z).

(** [user.role === 'X' || user.role === 'B'] *)
Definition manages (user : User.t) : bool :=
  Role_eqb (User.role user) X || Role_eqb (User.role user) B.

(** Whether a row on display is the one with the identifier [o]. *)
Definition row_with (rows : list Resident.t) (o : option jsstring) : bool :=
  existsb (fun r => string_is (Resident.id r) o) rows.

(** Whether the control of an event is on display and not disabled. *)
Definition enabled {U : Unicode} (user : User.t) (ui : t) (st : Store) (ev : Event)
  : bool :=
  let rows := filtered user ui (residents st) in
  let form_shown :=
    manages user && negb (truthy (editingId ui)) && negb (truthy (extendingId ui)) in
  let buttons r :=
    negb (string_is (Resident.id r) (editingId ui))
    && manages user && negb (truthy (extendingId ui)) in
  match ev with
  | add_name _ | add_type _ | add_licensePlate _ | add_expirationDate _
  | add_pressed => form_shown
  | add_unit _ => form_shown && negb (Role_eqb (User.role user) B)
  | search_typed _ | filter_chosen _ => true
  | row_extend row _ | row_edit row _ _ =>
      match nth_error rows row with
      | Some r => buttons r
      | None => false
      end
  | row_delete row =>
      match nth_error rows row with
      | Some r => string_is (Resident.id r) (editingId ui) || buttons r
      | None => false
      end
  | edit_name _ | edit_type _ | edit_licensePlate _ | edit_save | edit_cancel =>
      row_with rows (editingId ui)
  | edit_unit _ =>
      row_with rows (editingId ui) && negb (Role_eqb (User.role user) B)
  | extension_typed _ | extension_save | extension_cancel =>
      existsb (fun r => negb (string_is (Resident.id r) (editingId ui))
                        && string_is (Resident.id r) (extendingId ui))
              rows
  | delete_cancel | delete_confirm => truthy (deletingId ui)
  | timer _ => true
  end.

(** The handler of an event. *)
Definition handle {H : Host} {U : Unicode} (user : User.t) (ev : Event)
    (ui : t) (st : Store) : M (t * Store) :=
  let rows := filtered user ui (residents st) in
  let form := newResident ui in
  let edit := editForm ui in
  match ev with
  | add_name v =>
      ret (setNewResident
             {| NewResident.name := v;
                NewResident.unit := NewResident.unit form;
                NewResident.type := NewResident.type form;
                NewResident.licensePlate := NewResident.licensePlate form;
                NewResident.expirationDate := NewResident.expirationDate form |}
             ui, st)
  | add_unit v =>
      ret (if Role_eqb (User.role user) X
           then setNewResident
                  {| NewResident.name := NewResident.name form;
                     NewResident.unit := v;
                     NewResident.type := NewResident.type form;
                     NewResident.licensePlate := NewResident.licensePlate form;
                     NewResident.expirationDate := NewResident.expirationDate form |}
                  ui
           else ui, st)
  | add_type v =>
      ret (setNewResident
             {| NewResident.name := NewResident.name form;
                NewResident.unit := NewResident.unit form;
                NewResident.type := v;
                NewResident.licensePlate := NewResident.licensePlate form;
                NewResident.expirationDate := NewResident.expirationDate form |}
             ui, st)
  | add_licensePlate v =>
      ret (setNewResident
             {| NewResident.name := NewResident.name form;
                NewResident.unit := NewResident.unit form;
                NewResident.type := NewResident.type form;
                NewResident.licensePlate := String_toUpperCase v;
                NewResident.expirationDate := NewResident.expirationDate form |}
             ui, st)
  | add_expirationDate v =>
      ret (setNewResident
             {| NewResident.name := NewResident.name form;
                NewResident.unit := NewResident.unit form;
                NewResident.type := NewResident.type form;
                NewResident.licensePlate := NewResident.licensePlate form;
                NewResident.expirationDate := v |}
             ui, st)
  | add_pressed => handleAdd user ui st
  | search_typed v => ret (setSearchTerm v ui, st)
  | filter_chosen v => ret (setFilterType v ui, st)
  | row_extend row localIso =>
      ret (match nth_error rows row with
           | Some r => handleExtendClick user r localIso ui
           | None => ui
           end, st)
  | row_edit row hasLicensePlate hasExpirationDate =>
      ret (match nth_error rows row with
           | Some r => handleEditClick user r hasLicensePlate hasExpirationDate ui
           | None => ui
           end, st)
  | row_delete row =>
      ret (match nth_error rows row with
           | Some r => initiateDelete user (residents st) (Resident.id r) ui
           | None => ui
           end, st)
  | edit_name v =>
      ret (setEditForm
             {| PartialResident.id := PartialResident.id edit;
                PartialResident.tenantId := PartialResident.tenantId edit;
                PartialResident.name := Some v;
                PartialResident.unit := PartialResident.unit edit;
                PartialResident.type := PartialResident.type edit;
                PartialResident.status := PartialResident.status edit;
                PartialResident.licensePlate := PartialResident.licensePlate edit;
                PartialResident.expirationDate := PartialResident.expirationDate edit |}
             ui, st)
  | edit_unit v =>
      ret (setEditForm
             {| PartialResident.id := PartialResident.id edit;
                PartialResident.tenantId := PartialResident.tenantId edit;
                PartialResident.name := PartialResident.name edit;
                PartialResident.unit := Some v;
                PartialResident.type := PartialResident.type edit;
                PartialResident.status := PartialResident.status edit;
                PartialResident.licensePlate := PartialResident.licensePlate edit;
                PartialResident.expirationDate := PartialResident.expirationDate edit |}
             ui, st)
  | edit_type v =>
      ret (setEditForm
             {| PartialResident.id := PartialResident.id edit;
                PartialResident.tenantId := PartialResident.tenantId edit;
                PartialResident.name := PartialResident.name edit;
                PartialResident.unit := PartialResident.unit edit;
                PartialResident.type := Some v;
                PartialResident.status := PartialResident.status edit;
                PartialResident.licensePlate := PartialResident.licensePlate edit;
                PartialResident.expirationDate := PartialResident.expirationDate edit |}
             ui, st)
  | edit_licensePlate v =>
      ret (setEditForm
             {| PartialResident.id := PartialResident.id edit;
                PartialResident.tenantId := PartialResident.tenantId edit;
                PartialResident.name := PartialResident.name edit;
                PartialResident.unit := PartialResident.unit edit;
                PartialResident.type := PartialResident.type edit;
                PartialResident.status := PartialResident.status edit;
                PartialResident.licensePlate := Some (Some (String_toUpperCase v));
                PartialResident.expirationDate := PartialResident.expirationDate edit |}
             ui, st)
  | edit_save => ret (handleSaveEdit ui st)
  | edit_cancel => ret (handleCancelEdit ui, st)
  | extension_typed v => ret (setExtensionDate v ui, st)
  | extension_save =>
      ret (match extendingId ui with
           | Some id => handleSaveExtension id ui st
           | None => (ui, st)
           end)
  | extension_cancel => ret (handleCancelExtension ui, st)
  | delete_cancel => ret (setDeletingId None ui, st)
  | delete_confirm => ret (confirmDelete ui st)
  | timer now => ret (ui, checkExpiration now st)
  end.

(** One event: it has an effect where its control is enabled. *)
Definition step {H : Host} {U : Unicode} (user : User.t) (s : t * Store * World)
    (ev : Event) : t * Store * World :=
  let '(ui, st, w) := s in
  if enabled user ui st ev then handle user ev ui st w else s.

Definition run {H : Host} {U : Unicode} (user : User.t) (events : list Event)
    (s : t * Store * World) : t * Store * World :=
  fold_left (step user) events s.

End UserManagement.

(** A record with another expiration date. *)
Definition with_expiration (d : option jsstring) (r : Resident.t) : Resident.t :=
  {| Resident.id := Resident.id r;
     Resident.tenantId := Resident.tenantId r;
     Resident.name := Resident.name r;
     Resident.unit := Resident.unit r;
     Resident.type := Resident.type r;
     Resident.status := Resident.status r;
     Resident.licensePlate := Resident.licensePlate r;
     Resident.expirationDate := d |}.

(** The instants of the runs of the sweep among the events. *)
Definition timer_instants (events : list UserManagement.Event) : list Z :=
  flat_map (fun ev => match ev with
                      | UserManagement.timer now => [now]
                      | _ => []
                      end) events.

(** Whether a record is of the unit of the user: [r.unit === user.unit]. *)
Definition own_unit (user : User.t) (r : Resident.t) : bool :=
  string_is (Resident.unit r) (User.unit user).

(** The records of the units that are not the unit of the user. *)
Definition other_units (user : User.t) (residents : list Resident.t)
  : list Resident.t :=
  filter (fun r => negb (own_unit user r)) residents.

(** The identifiers of the records are pairwise distinct in every state
    in which one of the events is raised. *)
Fixpoint unique_along {H : Host} {U : Unicode} (user : User.t)
    (events : list UserManagement.Event)
    (s : UserManagement.t * Store * World) : Prop :=
  match events with
  | [] => True
  | ev :: rest =>
      NoDup (map Resident.id (residents (snd (fst s))))
      /\ unique_along user rest (UserManagement.step user s ev)
  end.

(** Nothing is being edited, extended or deleted. *)
Definition at_rest (ui : UserManagement.t) : Prop :=
  UserManagement.editingId ui = None
  /\ UserManagement.extendingId ui = None
  /\ UserManagement.deletingId ui = None.

(** What the state of the residents screen of a resident (role B) keeps
    to: the unit in the form being edited and the unit in the form of a new
    person are the user's own, and the records with the identifier that is
    about to be deleted are of the user's unit. *)
Definition keeps_to_unit (user : User.t) (ui : UserManagement.t) (st : Store)
  : Prop :=
  (forall u, PartialResident.unit (UserManagement.editForm ui) = Some u ->
             string_is u (User.unit user) = true)
  /\ (forall c d x,
        UserManagement.deletingId ui = Some (c :: d) ->
        In x (residents st) -> Resident.id x = c :: d ->
        string_is (Resident.unit x) (User.unit user) = true)
  /\ NewResident.unit (UserManagement.newResident ui)
     = NewResident.unit (UserManagement.blank user).

(** The events that type into the form of the row being edited. *)
Definition is_field_edit (ev : UserManagement.Event) : bool :=
  match ev with
  | UserManagement.edit_name _ | UserManagement.edit_unit _
  | UserManagement.edit_type _ | UserManagement.edit_licensePlate _ => true
  | _ => false
  end.

(** The form being edited is a copy of the record [r] as far as the
    identifier, the tenant, the status and the expiration date go. *)
Definition edits_record (r : Resident.t) (ui : UserManagement.t) : Prop :=
  UserManagement.editingId ui = Some (Resident.id r)
  /\ PartialResident.id (UserManagement.editForm ui) = Some (Resident.id r)
  /\ PartialResident.tenantId (UserManagement.editForm ui)
     = Some (Resident.tenantId r)
  /\ PartialResident.status (UserManagement.editForm ui)
     = Some (Resident.status r)
  /\ (PartialResident.expirationDate (UserManagement.editForm ui) = None
      \/ PartialResident.expirationDate (UserManagement.editForm ui)
         = Some (Resident.expirationDate r)).



(** ** App: the session (App.tsx) *)

Module App.

Record t := {
  currentUser : option User.t;
  isSidebarOpen : bool;
  isChatOpen : bool;
  activeTab : jsstring
}.

Definition initial : t :=
  {| currentUser := None; isSidebarOpen := true; isChatOpen := true;
     activeTab := str "dashboard" |}.

Definition setCurrentUser (u : option User.t) (app : t) : t :=
  {| currentUser := u; isSidebarOpen := isSidebarOpen app;
     isChatOpen := isChatOpen app; activeTab := activeTab app |}.

(** [handleLogin]: the user is looked up in the persisted list of users;
    nothing happens when there is none with the identifier. *)
Definition handleLogin (systemUsers : list User.t) (userId : jsstring) (app : t)
  : t :=
  match find (fun u => jsstring_eqb (User.id u) userId) systemUsers with
  | Some user =>
      {| currentUser := Some user; isSidebarOpen := true; isChatOpen := true;
         activeTab := str "dashboard" |}
  | None => app
  end.

Definition handleLogout (app : t) : t := setCurrentUser None app.

(** The effect that follows [systemUsers] and [currentUser]: when the
    entry of the logged-in user in the list differs from the session in
    name, avatar or role, the session takes the entry. *)
Definition syncCurrentUser (systemUsers : list User.t) (app : t) : t :=
  match currentUser app with
  | Some current =>
      match find (fun u => jsstring_eqb (User.id u) (User.id current))
                 systemUsers with
      | Some updatedUser =>
          if negb (jsstring_eqb (User.name updatedUser) (User.name current))
             || negb (jsstring_eqb (User.avatar updatedUser) (User.avatar current))
             || negb (Role_eqb (User.role updatedUser) (User.role current))
          then setCurrentUser (Some updatedUser) app
          else app
      | None => app
      end
  | None => app
  end.

End App.

(** ** UserProfile (components/UserProfile) *)

(** [Partial<User>], the type of [editForm]. *)
Module PartialUser.
Record t := {
  id : option jsstring;
  name : option jsstring;
  email : option jsstring;
  role : option Role;
  tenantId : option jsstring;
  avatar : option jsstring;
  unit : option (option jsstring)
}.

(** [{}] *)
Definition empty : t :=
  {| id := None; name := None; email := None; role := None; tenantId := None;
     avatar := None; unit := None |}.

(** [{ ...u, ...form }] *)
Definition assign (u : User.t) (form : t) : User.t :=
  {| User.id := match id form with Some v => v | None => User.id u end;
     User.name := match name form with Some v => v | None => User.name u end;
     User.email := match email form with Some v => v | None => User.email u end;
     User.role := match role form with Some v => v | None => User.role u end;
     User.tenantId :=
       match tenantId form with Some v => v | None => User.tenantId u end;
     User.avatar := match avatar form with Some v => v | None => User.avatar u end;
     User.unit := match unit form with Some v => v | None => User.unit u end |}.

Definition setName (v : jsstring) (form : t) : t :=
  {| id := id form; name := Some v; email := email form; role := role form;
     tenantId := tenantId form; avatar := avatar form; unit := unit form |}.

Definition setAvatar (v : jsstring) (form : t) : t :=
  {| id := id form; name := name form; email := email form; role := role form;
     tenantId := tenantId form; avatar := Some v; unit := unit form |}.

Definition setRole (v : Role) (form : t) : t :=
  {| id := id form; name := name form; email := email form; role := Some v;
     tenantId := tenantId form; avatar := avatar form; unit := unit form |}.
End PartialUser.

Module UserProfile.

Record t := {
  selectedUserId : jsstring;
  editForm : PartialUser.t;
  isEditing : bool
}.

(** The state of the component when it mounts. *)
Definition initial (currentUser : User.t) : t :=
  {| selectedUserId := User.id currentUser; editForm := PartialUser.empty;
     isEditing := false |}.

(** 1. Filter users: Only show users from the same Tenant *)
Definition tenantUsers (currentUser : User.t) (systemUsers : list User.t)
  : list User.t :=
  filter (fun u => jsstring_eqb (User.tenantId u) (User.tenantId currentUser))
         systemUsers.

(** 2. Determine who is being viewed/edited *)
Definition targetUser (currentUser : User.t) (systemUsers : list User.t) (p : t)
  : User.t :=
  if Role_eqb (User.role currentUser) B then currentUser
  else
    match find (fun u => jsstring_eqb (User.id u) (selectedUserId p))
               (tenantUsers currentUser systemUsers) with
    | Some u => u
    | None => currentUser
    end.

Definition isSelf (currentUser : User.t) (systemUsers : list User.t) (p : t)
  : bool :=
  jsstring_eqb (User.id (targetUser currentUser systemUsers p))
               (User.id currentUser).

(** 3. Visibility Rules (User List) *)
Definition showUserList (currentUser : User.t) : bool :=
  Role_eqb (User.role currentUser) X || Role_eqb (User.role currentUser) A.

(** 4. Edit Permission Rules *)
Definition canEdit (currentUser : User.t) (systemUsers : list User.t) (p : t)
  : bool :=
  Role_eqb (User.role currentUser) X || isSelf currentUser systemUsers p.

Definition handleEditClick (currentUser : User.t) (systemUsers : list User.t)
    (p : t) : t :=
  let target := targetUser currentUser systemUsers p in
  {| selectedUserId := selectedUserId p;
     editForm :=
       {| PartialUser.id := None;
          PartialUser.name := Some (User.name target);
          PartialUser.email := None;
          PartialUser.role := Some (User.role target);
          PartialUser.tenantId := None;
          PartialUser.avatar := Some (User.avatar target);
          PartialUser.unit := None |};
     isEditing := true |}.

(** [handleSave]: the state of the component and the list handed to
    [setSystemUsers]. *)
Definition handleSave (currentUser : User.t) (systemUsers : list User.t) (p : t)
  : t * list User.t :=
  let target := targetUser currentUser systemUsers p in
  ({| selectedUserId := selectedUserId p; editForm := PartialUser.empty;
      isEditing := false |},
   map (fun u =>
          if jsstring_eqb (User.id u) (User.id target)
          then PartialUser.assign u (editForm p)
          else u)
       systemUsers).

Definition handleUserSelect (currentUser : User.t) (userId : jsstring) (p : t)
  : t :=
  (* Double check: Role B should not be able to switch users *)
  if Role_eqb (User.role currentUser) B then p
  else {| selectedUserId := userId; editForm := PartialUser.empty;
          isEditing := false |}.

Definition setEditForm (form : PartialUser.t) (p : t) : t :=
  {| selectedUserId := selectedUserId p; editForm := form;
     isEditing := isEditing p |}.

(** *** What the user can do

    The events of the component, each enabled where the markup shows the
    control that raises it.  A user of the list is named by the place among
    the users on display.  The reading of an image file ends some time
    after the file was chosen, and sets the form from the form of the render
    in which it was chosen; the case in which the reading fails, which
    leaves no text for the avatar, is not among the events. *)
Inductive Event :=
| edit_pressed
| save_pressed
| cancel_pressed
| user_selected (row : nat)
| name_typed (v : jsstring)
| avatar_typed (v : jsstring)
| role_chosen (v : Role)
| image_loaded (render : nat) (result : jsstring)
| remounted.

(** The session and the component: the logged-in user, the persisted list
    of users, the state of the component, and the forms of the renders so
    far, the latest first. *)
Record Session := {
  currentUser : User.t;
  systemUsers : list User.t;
  profile : t;
  rendered : list PartialUser.t
}.

Definition start (currentUser : User.t) (systemUsers : list User.t) : Session :=
  {| currentUser := currentUser; systemUsers := systemUsers;
     profile := initial currentUser; rendered := [PartialUser.empty] |}.

Definition enabled (s : Session) (ev : Event) : bool :=
  let can := canEdit (currentUser s) (systemUsers s) (profile s) in
  match ev with
  | edit_pressed => can && negb (isEditing (profile s))
  | save_pressed | cancel_pressed => can && isEditing (profile s)
  | user_selected row =>
      showUserList (currentUser s)
      && match nth_error (tenantUsers (currentUser s) (systemUsers s)) row with
         | Some _ => true
         | None => false
         end
  | name_typed _ | avatar_typed _ => isEditing (profile s)
  | role_chosen _ =>
      Role_eqb (User.role (currentUser s)) X && isEditing (profile s)
      && negb (isSelf (currentUser s) (systemUsers s) (profile s))
  | image_loaded render _ =>
      match nth_error (rendered s) render with
      | Some _ => true
      | None => false
      end
  | remounted => true
  end.

(** The session user after the effect of [App] has followed a change of
    the list. *)
Definition synced (systemUsers : list User.t) (currentUser : User.t) : User.t :=
  match App.currentUser
          (App.syncCurrentUser systemUsers
             (App.setCurrentUser (Some currentUser) App.initial)) with
  | Some u => u
  | None => currentUser
  end.

Definition handle (ev : Event) (s : Session) : Session :=
  let render p users user :=
    {| currentUser := user; systemUsers := users; profile := p;
       rendered := editForm p :: rendered s |} in
  match ev with
  | edit_pressed =>
      render (handleEditClick (currentUser s) (systemUsers s) (profile s))
             (systemUsers s) (currentUser s)
  | save_pressed =>
      let '(p, users) := handleSave (currentUser s) (systemUsers s) (profile s) in
      render p users (synced users (currentUser s))
  | cancel_pressed =>
      render {| selectedUserId := selectedUserId (profile s);
                editForm := editForm (profile s); isEditing := false |}
             (systemUsers s) (currentUser s)
  | user_selected row =>
      match nth_error (tenantUsers (currentUser s) (systemUsers s)) row with
      | Some u =>
          render (handleUserSelect (currentUser s) (User.id u) (profile s))
                 (systemUsers s) (currentUser s)
      | None => s
      end
  | name_typed v =>
      render (setEditForm (PartialUser.setName v (editForm (profile s)))
                          (profile s))
             (systemUsers s) (currentUser s)
  | avatar_typed v =>
      render (setEditForm (PartialUser.setAvatar v (editForm (profile s)))
                          (profile s))
             (systemUsers s) (currentUser s)
  | role_chosen v =>
      render (setEditForm (PartialUser.setRole v (editForm (profile s)))
                          (profile s))
             (systemUsers s) (currentUser s)
  | image_loaded n result =>
      match nth_error (rendered s) n with
      | Some form =>
          render (setEditForm (PartialUser.setAvatar result form) (profile s))
                 (systemUsers s) (currentUser s)
      | None => s
      end
  | remounted =>
      {| currentUser := currentUser s; systemUsers := systemUsers s;
         profile := initial (currentUser s);
         rendered := [PartialUser.empty] |}
  end.

Definition step (s : Session) (ev : Event) : Session :=
  if enabled s ev then handle ev s else s.

Definition run (events : list Event) (s : Session) : Session :=
  fold_left step events s.

End UserProfile.

(** A user with another name and avatar. *)
Definition with_name_avatar (name avatar : jsstring) (u : User.t) : User.t :=
  {| User.id := User.id u; User.name := name; User.email := User.email u;
     User.role := User.role u; User.tenantId := User.tenantId u;
     User.avatar := avatar; User.unit := User.unit u |}.

(** The session user is the entry of the list of users that has its
    identifier. *)
Definition logged_in (systemUsers : list User.t) (currentUser : User.t) : Prop :=
  find (fun u => jsstring_eqb (User.id u) (User.id currentUser)) systemUsers
  = Some currentUser.

(** A form that holds at most a name, an avatar and a role. *)
Definition profile_form (form : PartialUser.t) : Prop :=
  PartialUser.id form = None /\ PartialUser.email form = None
  /\ PartialUser.tenantId form = None /\ PartialUser.unit form = None.

(** What the profile screen keeps of a session that started with the
    list [users0]: the forms hold at most a name, an avatar and a role; the
    session user is the entry of the list with its identifier; and the
    identifiers, e-mail addresses, tenants and units of the list are those
    of [users0]. *)
Definition session_kept (users0 : list User.t) (s : UserProfile.Session) : Prop :=
  Forall profile_form
         (UserProfile.editForm (UserProfile.profile s) :: UserProfile.rendered s)
  /\ logged_in (UserProfile.systemUsers s) (UserProfile.currentUser s)
  /\ map User.id (UserProfile.systemUsers s) = map User.id users0
  /\ map User.email (UserProfile.systemUsers s) = map User.email users0
  /\ map User.tenantId (UserProfile.systemUsers s) = map User.tenantId users0
  /\ map User.unit (UserProfile.systemUsers s) = map User.unit users0.

(** The list of users is [users0] but for the name and the avatar of the
    entries with the identifier of [user0], and the session user is [user0]
    with that name and avatar. *)
Definition own_profile_only (user0 : User.t) (users0 : list User.t)
    (s : UserProfile.Session) : Prop :=
  exists name avatar,
    UserProfile.systemUsers s
    = map (fun u => if jsstring_eqb (User.id u) (User.id user0)
                    then with_name_avatar name avatar u else u) users0
    /\ UserProfile.currentUser s = with_name_avatar name avatar user0.

(** What the profile screen of a user who is no administrator keeps
    besides: the role in a form, if any, is the role of the user, and a
    profile is being edited only while it is the user's own. *)
Definition own_role_kept (user0 : User.t) (s : UserProfile.Session) : Prop :=
  Forall (fun form => PartialUser.role form = None
                      \/ PartialUser.role form = Some (User.role user0))
         (UserProfile.editForm (UserProfile.profile s) :: UserProfile.rendered s)
  /\ (UserProfile.isEditing (UserProfile.profile s) = true ->
      UserProfile.isSelf (UserProfile.currentUser s) (UserProfile.systemUsers s)
        (UserProfile.profile s) = true).



(** ** Sample data of the screens *)

(** The form of a new person filled in: a visitor to unit 101 until
    2024-01-01T10:30. *)
Definition sample_form : NewResident.t :=
  {| NewResident.name := str "Ana Gomez";
     NewResident.unit := str "101";
     NewResident.type := Visitor;
     NewResident.licensePlate := [];
     NewResident.expirationDate := str "2024-01-01T10:30" |}.

(** The residents screen of the administrator with that form. *)
Definition sample_screen : UserManagement.t :=
  UserManagement.setNewResident sample_form (UserManagement.initial carlos).

(** The residents screen on which the date 2031-01-01T00:00 has been
    entered for an extension. *)
Definition sample_extension : UserManagement.t :=
  UserManagement.setExtensionDate (str "2031-01-01T00:00")
    (UserManagement.initial carlos).

(** A world whose clock stands still. *)
Definition still_world : World :=
  {| uuid_source := fun _ => []; uuids_drawn := 0;
     clock_source := fun _ => 1700000000000; clock_reads := 0 |}.


(** What a porter tries on the residents screen. *)
Definition porter_events : list UserManagement.Event :=
  [UserManagement.add_name (str "Intruso"); UserManagement.add_pressed;
   UserManagement.row_delete 0; UserManagement.delete_confirm;
   UserManagement.row_edit 0 false false; UserManagement.edit_save;
   UserManagement.timer new_year_2030].

(** A resident deletes the first row and the sweep runs. *)
Definition resident_events : list UserManagement.Event :=
  [UserManagement.row_delete 0; UserManagement.delete_confirm;
   UserManagement.timer new_year_2030].

(** The users of the mock database (constants.ts). *)
Definition sample_users : list User.t := [carlos; ana; beto].

(** A porter renames herself, picks the administrator, and tries to edit
    and save. *)
Definition profile_events : list UserProfile.Event :=
  [UserProfile.edit_pressed; UserProfile.name_typed (str "Ana P.");
   UserProfile.role_chosen X; UserProfile.save_pressed;
   UserProfile.user_selected 0; UserProfile.edit_pressed;
   UserProfile.role_chosen B; UserProfile.save_pressed].

(** What the administrator types into the form of the row being edited. *)
Definition sample_edits : list UserManagement.Event :=
  [UserManagement.edit_name (str "Juan P."); UserManagement.edit_unit (str "102")].

(* ================================================================== *)
(** * Part II: properties                                              *)
(* ================================================================== *)

(** ** Strings *)

Lemma jsstring_eqb_eq (a b : jsstring) : jsstring_eqb a b = true <-> a = b.
Proof.
  revert b; induction a as [|x a IH]; intros [|y b]; simpl; split; intro E;
    try reflexivity; try discriminate.
  - apply andb_true_iff in E as [E1 E2].
    apply N.eqb_eq in E1. apply IH in E2. now subst.
  - injection E as -> ->. rewrite N.eqb_refl. now apply IH.
Qed.

Lemma jsstring_eqb_refl (a : jsstring) : jsstring_eqb a a = true.
Proof. now apply jsstring_eqb_eq. Qed.

Lemma jsstring_eqb_neq (a b : jsstring) : a <> b -> jsstring_eqb a b = false.
Proof.
  intro N. destruct (jsstring_eqb a b) eqn:E; [|reflexivity].
  now apply jsstring_eqb_eq in E.
Qed.

Lemma hex_value_digit (n : N) : (n < 16)%N -> hex_value (hex_digit n) = Some n.
Proof.
  intro L. unfold hex_value, hex_digit.
  destruct (N.ltb_spec n 10).
  - replace ((48 <=? 48 + n) && (48 + n <=? 57))%N with true.
    + f_equal. lia.
    + symmetry. apply andb_true_iff. split; apply N.leb_le; lia.
  - replace ((48 <=? 87 + n) && (87 + n <=? 57))%N with false.
    + replace ((97 <=? 87 + n) && (87 + n <=? 102))%N with true.
      * f_equal. lia.
      * symmetry. apply andb_true_iff. split; apply N.leb_le; lia.
    + symmetry. apply andb_false_iff. right. apply N.leb_gt. lia.
Qed.

Lemma hex4_UnicodeEscape (c : code_unit) (r : jsstring) :
  (c < 65536)%N ->
  exists a b x d, UnicodeEscape c = [92; 117; a; b; x; d]%N /\ hex4 a b x d = Some c.
Proof.
  intro L. unfold UnicodeEscape. do 4 eexists. split; [reflexivity|].
  unfold hex4, obind.
  rewrite !hex_value_digit by (apply N.mod_lt; discriminate).
  f_equal.
  zify. Z.to_euclidean_division_equations. lia.
Qed.

Lemma parse_chars_plain (c : code_unit) (r : jsstring) :
  c <> 34%N -> c <> 92%N -> (32 <= c)%N ->
  parse_chars (c :: r) = then_cons c (parse_chars r).
Proof.
  intros N1 N2 L. simpl.
  apply N.eqb_neq in N1, N2. rewrite N1, N2.
  apply N.ltb_ge in L. rewrite L.
  unfold obind, then_cons. now destruct (parse_chars r) as [[? ?]|].
Qed.

Lemma parse_chars_simple (x u : code_unit) (r : jsstring) :
  simple_escape x = Some u ->
  parse_chars (92%N :: x :: r) = then_cons u (parse_chars r).
Proof.
  intro E.
  assert (x <> 117%N) as N by (intros ->; discriminate).
  apply N.eqb_neq in N.
  change (parse_chars (92%N :: x :: r))
    with (if (x =? 117)%N
          then match r with
               | a :: b :: c' :: d :: r2 =>
                   match hex4 a b c' d with
                   | Some u =>
                       obind (parse_chars r2) (fun '(t, rest) => Some (u :: t, rest))
                   | None => None
                   end
               | _ => None
               end
          else match simple_escape x with
               | Some u => obind (parse_chars r) (fun '(t, rest) => Some (u :: t, rest))
               | None => None
               end).
  rewrite N, E. unfold obind, then_cons. now destruct (parse_chars r) as [[? ?]|].
Qed.

Lemma parse_chars_unicode (a b c d u : code_unit) (r : jsstring) :
  hex4 a b c d = Some u ->
  parse_chars (92%N :: 117%N :: a :: b :: c :: d :: r) = then_cons u (parse_chars r).
Proof.
  intro E.
  change (parse_chars (92%N :: 117%N :: a :: b :: c :: d :: r))
    with (match hex4 a b c d with
          | Some u => obind (parse_chars r) (fun '(t, rest) => Some (u :: t, rest))
          | None => None
          end).
  rewrite E. unfold obind, then_cons. now destruct (parse_chars r) as [[? ?]|].
Qed.

Lemma parse_chars_escape (c : code_unit) (r : jsstring) :
  (c < 65536)%N ->
  parse_chars (UnicodeEscape c ++ r) = then_cons c (parse_chars r).
Proof.
  intro L. destruct (hex4_UnicodeEscape c r L) as (a & b & x & d & E & Hx).
  rewrite E. simpl app. now apply parse_chars_unicode.
Qed.

Lemma parse_chars_quote_unit (c : code_unit) (r : jsstring) :
  is_leading_surrogate c = false ->
  parse_chars (quote_unit c ++ r) = then_cons c (parse_chars r).
Proof.
  intro Hl. unfold quote_unit.
  destruct (N.eqb_spec c 8) as [->|N8]; [now apply parse_chars_simple|].
  destruct (N.eqb_spec c 9) as [->|N9]; [now apply parse_chars_simple|].
  destruct (N.eqb_spec c 10) as [->|N10]; [now apply parse_chars_simple|].
  destruct (N.eqb_spec c 12) as [->|N12]; [now apply parse_chars_simple|].
  destruct (N.eqb_spec c 13) as [->|N13]; [now apply parse_chars_simple|].
  destruct (N.eqb_spec c 34) as [->|N34]; [now apply parse_chars_simple|].
  destruct (N.eqb_spec c 92) as [->|N92]; [now apply parse_chars_simple|].
  rewrite Hl, orb_false_r.
  destruct (N.ltb_spec c 32) as [L|L]; simpl orb.
  - apply parse_chars_escape. lia.
  - destruct (is_trailing_surrogate c) eqn:Ht.
    + apply parse_chars_escape.
      unfold is_trailing_surrogate in Ht. apply andb_true_iff in Ht as [_ Ht].
      apply N.leb_le in Ht. lia.
    + simpl app. now apply parse_chars_plain.
Qed.

Lemma surrogate_plain (c : code_unit) :
  is_leading_surrogate c = true \/ is_trailing_surrogate c = true ->
  c <> 34%N /\ c <> 92%N /\ (32 <= c)%N /\ (c < 65536)%N.
Proof.
  unfold is_leading_surrogate, is_trailing_surrogate.
  intros [E|E]; apply andb_true_iff in E as [E1 E2];
    apply N.leb_le in E1, E2; lia.
Qed.

Lemma quote_units_cons (c : code_unit) (r : jsstring) :
  quote_units (c :: r) =
  if is_leading_surrogate c then
    match r with
    | d :: r' =>
        if is_trailing_surrogate d then c :: d :: quote_units r'
        else UnicodeEscape c ++ quote_units r
    | [] => UnicodeEscape c
    end
  else quote_unit c ++ quote_units r.
Proof. reflexivity. Qed.

(** Reading back the characters that [QuoteJSONString] writes between the
    quotes. *)
Lemma parse_chars_quote_units (s rest : jsstring) :
  parse_chars (quote_units s ++ 34%N :: rest) = Some (s, rest).
Proof.
  remember (length s) as n eqn:Hn.
  revert s Hn. induction n as [n IH] using lt_wf_ind. intros s Hn.
  destruct s as [|c r]; [reflexivity|].
  rewrite quote_units_cons.
  destruct (is_leading_surrogate c) eqn:Hl.
  - destruct (surrogate_plain c (or_introl Hl)) as (N1 & N2 & L & L').
    destruct r as [|d r'].
    + rewrite parse_chars_escape by assumption. reflexivity.
    + destruct (is_trailing_surrogate d) eqn:Ht.
      * destruct (surrogate_plain d (or_intror Ht)) as (M1 & M2 & K & _).
        simpl app.
        rewrite parse_chars_plain by assumption.
        rewrite parse_chars_plain by assumption.
        rewrite (IH (length r')) by (simpl in Hn; lia || reflexivity).
        reflexivity.
      * rewrite <- app_assoc, parse_chars_escape by assumption.
        rewrite (IH (length (d :: r'))) by (simpl in *; lia || reflexivity).
        reflexivity.
  - rewrite <- app_assoc, parse_chars_quote_unit by assumption.
    rewrite (IH (length r)) by (simpl in Hn; lia || reflexivity).
    reflexivity.
Qed.

(** ** Numbers *)

Ltac div_lia := zify; Z.to_euclidean_division_equations; lia.

Lemma is_digit_iff (c : code_unit) : is_digit c = true <-> (48 <= c <= 57)%N.
Proof.
  unfold is_digit. rewrite andb_true_iff, !N.leb_le. tauto.
Qed.

Lemma digits_value_snoc (ds : jsstring) (c : code_unit) :
  digits_value (ds ++ [c]) = (digits_value ds * 10 + (c - 48))%N.
Proof. unfold digits_value. now rewrite fold_left_app. Qed.

(** What [digits_aux] writes: digits only, the first of which is not [0]
    unless the number is, and whose value is the number. *)
Lemma digits_aux_spec (f : nat) :
  forall n : N,
    (n < 10 * 2 ^ N.of_nat f)%N ->
    forallb is_digit (digits_aux f n) = true
    /\ digits_value (digits_aux f n) = n
    /\ exists c r, digits_aux f n = c :: r /\ (c = 48%N -> n = 0%N /\ r = []).
Proof.
  assert (forall n, (n < 10)%N ->
            forallb is_digit [(48 + n)%N] = true
            /\ digits_value [(48 + n)%N] = n
            /\ exists c r, [(48 + n)%N] = c :: r /\ (c = 48%N -> n = 0%N /\ r = []))
    as one_digit.
  { intros n Hs. repeat split.
    - cbn [forallb]. rewrite andb_true_r. apply is_digit_iff. lia.
    - unfold digits_value. cbn [fold_left]. lia.
    - exists (48 + n)%N, []. split; [reflexivity|]. intro. split; [lia|reflexivity]. }
  induction f as [|f IH]; intros n L.
  - change (N.of_nat 0) with 0%N in L. rewrite N.pow_0_r in L.
    cbn [digits_aux]. rewrite N.mod_small by lia. apply one_digit. lia.
  - cbn [digits_aux]. destruct (N.ltb_spec n 10) as [Hs|Hs].
    + now apply one_digit.
    + assert (n / 10 < 10 * 2 ^ N.of_nat f)%N as L'.
      { rewrite Nat2N.inj_succ, N.pow_succ_r' in L.
        apply N.Div0.div_lt_upper_bound.
        generalize dependent (2 ^ N.of_nat f)%N. intros. lia. }
      destruct (IH _ L') as (D & V & c & r & E & Z0).
      assert (n mod 10 < 10)%N as M by (apply N.mod_lt; discriminate).
      repeat split.
      * rewrite forallb_app, D. cbn [forallb]. rewrite andb_true_r.
        apply is_digit_iff. clear - M. div_lia.
      * rewrite digits_value_snoc, V.
        clear. div_lia.
      * exists c, (r ++ [(48 + n mod 10)%N]). rewrite E. split; [reflexivity|].
        intro C. destruct (Z0 C) as [Q _].
        clear - Q Hs. div_lia.
Qed.

Lemma digits_spec (n : N) :
  forallb is_digit (digits n) = true
  /\ digits_value (digits n) = n
  /\ exists c r, digits n = c :: r /\ (c = 48%N -> n = 0%N /\ r = []).
Proof.
  apply digits_aux_spec. rewrite N2Nat.id.
  destruct n as [|p]; [reflexivity|].
  pose proof (N.log2_spec (N.pos p) eq_refl) as [_ U].
  rewrite N.pow_succ_r' in U. lia.
Qed.

Lemma take_digits_app (ds rest : jsstring) :
  forallb is_digit ds = true ->
  match rest with [] => True | c :: _ => is_digit c = false end ->
  take_digits (ds ++ rest) = (ds, rest).
Proof.
  intros D E. induction ds as [|c ds IH]; simpl.
  - destruct rest as [|c r]; [reflexivity|]. simpl. now rewrite E.
  - simpl in D. apply andb_true_iff in D as [D1 D2].
    rewrite D1, (IH D2). reflexivity.
Qed.

Lemma number_end_spec (rest : jsstring) :
  number_end rest = true ->
  match rest with
  | [] => True
  | c :: _ => is_digit c = false /\ c <> 46%N /\ c <> 101%N /\ c <> 69%N
  end.
Proof.
  destruct rest as [|c r]; [trivial|]. simpl. intro E.
  apply negb_true_iff in E.
  apply orb_false_iff in E as [E E3]. apply orb_false_iff in E as [E E2].
  apply orb_false_iff in E as [E0 E1].
  apply N.eqb_neq in E1, E2, E3. now repeat split.
Qed.

Lemma parse_int_digits (n : N) (rest : jsstring) :
  number_end rest = true ->
  parse_int (digits n ++ rest) = Some (digits n, rest).
Proof.
  intro E. apply number_end_spec in E.
  destruct (digits_spec n) as (D & _ & c & r & Hd & Z0).
  rewrite Hd in *. simpl app. unfold parse_int.
  destruct (N.eqb_spec c 48) as [C|C].
  - destruct (Z0 C) as [_ ->]. reflexivity.
  - assert (is_digit c = true) as Dc by (simpl in D; now apply andb_true_iff in D).
    rewrite Dc. change (c :: r ++ rest) with ((c :: r) ++ rest).
    f_equal. apply take_digits_app; [assumption|].
    destruct rest; [trivial|tauto].
Qed.

Lemma parse_frac_end (rest : jsstring) :
  number_end rest = true -> parse_frac rest = Some ([], rest).
Proof.
  intro E. apply number_end_spec in E. destruct rest as [|c r]; [reflexivity|].
  destruct E as (_ & E & _). apply N.eqb_neq in E. simpl. now rewrite E.
Qed.

Lemma parse_exp_end (rest : jsstring) :
  number_end rest = true -> parse_exp rest = Some (0, rest).
Proof.
  intro E. apply number_end_spec in E. destruct rest as [|c r]; [reflexivity|].
  destruct E as (_ & _ & E1 & E2). apply N.eqb_neq in E1, E2. simpl.
  now rewrite E1, E2.
Qed.

Lemma digits_head (n : N) :
  exists c r, digits n = c :: r /\ is_digit c = true.
Proof.
  destruct (digits_spec n) as (D & _ & c & r & Hd & _).
  exists c, r. split; [assumption|]. rewrite Hd in D. simpl in D.
  now apply andb_true_iff in D.
Qed.

Lemma parse_unsigned_digits (neg : bool) (n : N) (rest : jsstring) :
  number_end rest = true ->
  parse_unsigned neg (digits n ++ rest)
  = Some (if neg then - Z.of_N n else Z.of_N n, 0, rest).
Proof.
  intro E. unfold parse_unsigned.
  rewrite (parse_int_digits _ _ E). cbn [obind].
  rewrite (parse_frac_end _ E). cbn [obind].
  rewrite (parse_exp_end _ E). cbn [obind].
  rewrite app_nil_r. destruct (digits_spec n) as (_ & V & _).
  rewrite V. reflexivity.
Qed.

(** Reading back the text of an integer. *)
Lemma parse_number_integer_text (z : Z) (rest : jsstring) :
  number_end rest = true ->
  parse_number (integer_text z ++ rest) = Some (z, 0, rest).
Proof.
  intro E. unfold integer_text.
  destruct (Z.ltb_spec z 0) as [L|L].
  - cbn [app parse_number]. rewrite N.eqb_refl.
    rewrite (parse_unsigned_digits _ _ _ E). do 2 f_equal. f_equal. lia.
  - destruct (digits_head (Z.abs_N z)) as (c & r & Hd & Dc).
    assert ((c =? 45)%N = false) as C.
    { apply N.eqb_neq. apply is_digit_iff in Dc. lia. }
    pose proof (parse_unsigned_digits false (Z.abs_N z) rest E) as P.
    rewrite Hd in *. cbn [app parse_number] in *. rewrite C, P.
    do 2 f_equal. f_equal. lia.
Qed.

(** ** JSON values *)

(** Induction on a value with the hypothesis for every element of an array
    and every property of an object. *)
Lemma json_nested_ind (P : json -> Prop) :
  P JNull ->
  (forall b, P (JBool b)) ->
  (forall m e, P (JNumber m e)) ->
  (forall s, P (JString s)) ->
  (forall items, Forall P items -> P (JArray items)) ->
  (forall props, Forall (fun kv => P (snd kv)) props -> P (JObject props)) ->
  forall v, P v.
Proof.
  intros Hnull Hbool Hnum Hstr Harr Hobj.
  fix IH 1. intros [ | b | m e | s | items | props].
  - exact Hnull.
  - apply Hbool.
  - apply Hnum.
  - apply Hstr.
  - apply Harr. induction items as [|x items IHl]; constructor.
    + apply IH.
    + exact IHl.
  - apply Hobj. induction props as [|[k x] props IHl]; constructor.
    + apply IH.
    + exact IHl.
Qed.

Section Roundtrip.
Context {H : Host}.

Lemma stringify_head (v : json) :
  printable v = true ->
  exists c r, JSON_stringify v = c :: r /\ value_start c.
Proof.
  unfold value_start.
  destruct v as [ | [|] | m e | s | items | props]; intro Pv;
    try (do 2 eexists; split; [reflexivity|repeat split; discriminate]).
  cbn [JSON_stringify]. unfold JSON_number.
  cbn [printable] in Pv. rewrite Pv. unfold integer_text.
  destruct (digits_head (Z.abs_N m)) as (c & r & Hd & Dc).
  apply is_digit_iff in Dc.
  destruct (m <? 0).
  - do 2 eexists; split; [reflexivity|repeat split; discriminate].
  - rewrite Hd. exists c, r. split; [reflexivity|].
    unfold is_ws.
    repeat split; try lia.
    repeat (apply orb_false_iff; split); apply N.eqb_neq; lia.
Qed.

Lemma skip_ws_start (c : code_unit) (r : jsstring) :
  is_ws c = false -> skip_ws (c :: r) = c :: r.
Proof. intro E. cbn [skip_ws]. now rewrite E. Qed.

Lemma reads_number (m e : Z) : reads (JNumber m e).
Proof.
  intros Pv f rest Hf E. destruct f as [|f]; [cbn in Hf; lia|].
  cbn [JSON_stringify]. unfold JSON_number.
  cbn [printable] in Pv. rewrite Pv.
  apply andb_true_iff in Pv as [Pe _]. apply Z.eqb_eq in Pe. subst e.
  pose proof (parse_number_integer_text m rest E) as PN.
  assert (exists c r, integer_text m ++ rest = c :: r
                      /\ (c = 45%N \/ is_digit c = true)) as (c & r & Hc & Cc).
  { unfold integer_text. destruct (digits_head (Z.abs_N m)) as (c & r & Hd & Dc).
    destruct (m <? 0).
    - do 2 eexists. split; [reflexivity|now left].
    - rewrite Hd. do 2 eexists. split; [reflexivity|now right]. }
  rewrite Hc in *.
  assert (48 <= c <= 57 \/ c = 45)%N as R.
  { destruct Cc as [->|Dc]; [now right|]. apply is_digit_iff in Dc. now left. }
  cbn [parse_value].
  assert (is_ws c = false) as W.
  { unfold is_ws. repeat (apply orb_false_iff; split); apply N.eqb_neq; lia. }
  rewrite (skip_ws_start _ _ W).
  replace (c =? 34)%N with false by (symmetry; apply N.eqb_neq; lia).
  replace (c =? 91)%N with false by (symmetry; apply N.eqb_neq; lia).
  replace (c =? 123)%N with false by (symmetry; apply N.eqb_neq; lia).
  replace (c =? 110)%N with false by (symmetry; apply N.eqb_neq; lia).
  replace (c =? 116)%N with false by (symmetry; apply N.eqb_neq; lia).
  replace (c =? 102)%N with false by (symmetry; apply N.eqb_neq; lia).
  rewrite PN. reflexivity.
Qed.

Lemma reads_string (s : jsstring) : reads (JString s).
Proof.
  intros _ f rest Hf _. destruct f as [|f]; [cbn in Hf; lia|].
  cbn [JSON_stringify]. unfold QuoteJSONString.
  cbn [app parse_value skip_ws]. change (is_ws 34%N) with false. cbv iota.
  rewrite N.eqb_refl, <- app_assoc. cbn [app].
  now rewrite parse_chars_quote_units.
Qed.

Lemma obj_set_fresh (acc : list (jsstring * json)) (k : jsstring) (v : json) :
  existsb (fun k' => jsstring_eqb k' k) (map fst acc) = false ->
  obj_set acc k v = acc ++ [(k, v)].
Proof.
  induction acc as [|[k' v'] acc IH]; intro E; [reflexivity|].
  cbn in E. apply orb_false_iff in E as [E1 E2].
  cbn [obj_set app]. rewrite E1. f_equal. now apply IH.
Qed.

Lemma distinct_app_cons (acc : list jsstring) (k : jsstring) (l : list jsstring) :
  distinct (acc ++ k :: l) = true ->
  existsb (fun k' => jsstring_eqb k' k) acc = false
  /\ distinct ((acc ++ [k]) ++ l) = true.
Proof.
  intro D. split.
  - induction acc as [|a acc IH]; [reflexivity|].
    cbn in D. apply andb_true_iff in D as [D1 D2].
    cbn. rewrite (IH D2), orb_false_r.
    apply negb_true_iff in D1. rewrite existsb_app in D1.
    apply orb_false_iff in D1 as [_ D1]. cbn in D1.
    now apply orb_false_iff in D1 as [D1 _].
  - now rewrite <- app_assoc.
Qed.

(** The elements of an array, read by [parse_elements]. *)
Lemma reads_elements (xs : list json) :
  forall (x : json) (acc : list json) (f : nat) (rest : jsstring),
    Forall reads (x :: xs) ->
    forallb printable (x :: xs) = true ->
    (fold_right (fun x n => S (weight x + n)) O (x :: xs) <= f)%nat ->
    parse_elements f
      (join_comma (map JSON_stringify (x :: xs)) ++ 93%N :: rest) acc
    = Some (JArray (acc ++ x :: xs), rest).
Proof.
  induction xs as [|y ys IH]; intros x acc f rest HR HP Hf;
    inversion HR as [|? ? Rx HR']; subst;
    cbn [forallb] in HP; apply andb_true_iff in HP as [Px HP'];
    (destruct f as [|f]; [cbn in Hf; lia|]);
    cbn [fold_right] in Hf; cbn [parse_elements].
  - cbn [map join_comma].
    rewrite (Rx Px f (93%N :: rest)) by (reflexivity || lia).
    reflexivity.
  - change (join_comma (map JSON_stringify (x :: y :: ys)))
      with (JSON_stringify x ++ 44%N :: join_comma (map JSON_stringify (y :: ys))).
    rewrite <- app_assoc. cbn [app].
    rewrite (Rx Px f) by (reflexivity || lia).
    cbn [obind skip_ws]. change (is_ws 44%N) with false. cbv iota.
    rewrite N.eqb_refl.
    rewrite (IH y (acc ++ [x]) f rest HR' HP') by (cbn [fold_right]; lia).
    now rewrite <- app_assoc.
Qed.

(** The properties of an object, read by [parse_members]. *)
Lemma reads_members (ps : list (jsstring * json)) :
  forall (p : jsstring * json) (acc : list (jsstring * json)) (f : nat)
         (rest : jsstring),
    Forall (fun kv => reads (snd kv)) (p :: ps) ->
    forallb (fun kv => printable (snd kv)) (p :: ps) = true ->
    distinct (map fst acc ++ map fst (p :: ps)) = true ->
    (fold_right (fun kv n => S (weight (snd kv) + n)) O (p :: ps) <= f)%nat ->
    parse_members f
      (join_comma (map member_text (p :: ps)) ++ 125%N :: rest) acc
    = Some (JObject (acc ++ p :: ps), rest).
Proof.
  induction ps as [|q qs IH]; intros [k x] acc f rest HR HP HD Hf;
    inversion HR as [|? ? Rx HR']; subst;
    cbn [forallb] in HP; apply andb_true_iff in HP as [Px HP'];
    cbn [snd] in Rx, Px;
    (destruct f as [|f]; [cbn in Hf; lia|]);
    cbn [fold_right snd] in Hf; cbn [parse_members];
    cbn [map fst] in HD; apply distinct_app_cons in HD as [Hk HD].
  - cbn [map join_comma]. unfold member_text, QuoteJSONString. cbn [fst snd].
    cbn [app skip_ws]. change (is_ws 34%N) with false. cbv iota.
    rewrite N.eqb_refl. rewrite <- !app_assoc. cbn [app].
    rewrite parse_chars_quote_units. cbn [obind skip_ws].
    change (is_ws 58%N) with false. cbv iota. rewrite N.eqb_refl.
    rewrite (Rx Px f (125%N :: rest)) by (reflexivity || lia).
    cbn [obind skip_ws]. change (is_ws 125%N) with false. cbv iota.
    change (125 =? 44)%N with false. cbv iota. rewrite N.eqb_refl.
    now rewrite obj_set_fresh.
  - change (join_comma (map member_text ((k, x) :: q :: qs)))
      with (member_text (k, x) ++ 44%N :: join_comma (map member_text (q :: qs))).
    unfold member_text at 1, QuoteJSONString. cbn [fst snd].
    cbn [app skip_ws]. change (is_ws 34%N) with false. cbv iota.
    rewrite N.eqb_refl. rewrite <- !app_assoc. cbn [app].
    rewrite parse_chars_quote_units. cbn [obind skip_ws].
    change (is_ws 58%N) with false. cbv iota. rewrite N.eqb_refl.
    rewrite (Rx Px f) by (reflexivity || lia).
    cbn [obind skip_ws]. change (is_ws 44%N) with false. cbv iota.
    rewrite N.eqb_refl. rewrite obj_set_fresh by assumption.
    rewrite (IH q (acc ++ [(k, x)]) f rest HR' HP').
    + now rewrite <- app_assoc.
    + now rewrite map_app.
    + cbn [fold_right]. lia.
Qed.

(** [parse_value] reads back the text of every printable value. *)
Lemma parse_value_stringify (v : json) : reads v.
Proof.
  induction v as [ | b | m e | s | items IH | props IH ] using json_nested_ind.
  - intros _ f rest Hf _. destruct f as [|f]; [cbn in Hf; lia|]. reflexivity.
  - intros _ f rest Hf _. destruct f as [|f]; [cbn in Hf; lia|].
    destruct b; reflexivity.
  - apply reads_number.
  - apply reads_string.
  - intros Pv f rest Hf _. destruct f as [|f]; [cbn in Hf; lia|].
    cbn [weight] in Hf. cbn [printable] in Pv.
    destruct items as [|x xs]; [reflexivity|].
    cbn [JSON_stringify app]. rewrite <- app_assoc. cbn [app parse_value skip_ws].
    change (is_ws 91%N) with false. cbv iota.
    change (91 =? 34)%N with false. cbv iota. rewrite N.eqb_refl.
    assert (printable x = true) as Px
      by (cbn [forallb] in Pv; now apply andb_true_iff in Pv).
    destruct (stringify_head x Px) as (c & r & Hc & W & N1 & _).
    match goal with
    | |- context [skip_ws ?t] =>
        assert (exists r', t = c :: r') as [r' Hr']
          by (destruct xs; cbn [map join_comma]; rewrite Hc; eexists; reflexivity);
        rewrite Hr', (skip_ws_start _ _ W);
        apply N.eqb_neq in N1; rewrite N1, <- Hr'
    end.
    apply (reads_elements xs x [] f rest IH Pv). lia.
  - intros Pv f rest Hf _. destruct f as [|f]; [cbn in Hf; lia|].
    cbn [weight] in Hf. cbn [printable] in Pv.
    apply andb_true_iff in Pv as [Dv Pv].
    destruct props as [|p ps]; [reflexivity|].
    cbn [JSON_stringify app]. rewrite <- app_assoc. cbn [app parse_value skip_ws].
    change (is_ws 123%N) with false. cbv iota.
    change (123 =? 34)%N with false. change (123 =? 91)%N with false.
    cbv iota. rewrite N.eqb_refl.
    change (map (fun kv => QuoteJSONString (fst kv) ++ 58%N :: JSON_stringify (snd kv))
                (p :: ps))
      with (map member_text (p :: ps)).
    match goal with
    | |- context [skip_ws ?t] =>
        assert (exists r', t = 34%N :: r') as [r' Hr']
          by (destruct ps; cbn [map join_comma];
              unfold member_text at 1, QuoteJSONString; eexists; reflexivity);
        rewrite Hr'; cbn [skip_ws]; change (is_ws 34%N) with false; cbv iota;
        change (34 =? 125)%N with false; cbv iota; rewrite <- Hr'
    end.
    apply (reads_members ps p [] f rest IH Pv Dv). lia.
Qed.

Lemma join_comma_cons2 (a b : jsstring) (l : list jsstring) :
  join_comma (a :: b :: l) = a ++ 44%N :: join_comma (b :: l).
Proof. reflexivity. Qed.

Lemma light_elements (xs : list json) :
  forall x,
    Forall light (x :: xs) ->
    forallb printable (x :: xs) = true ->
    (fold_right (fun x n => S (weight x + n)) O (x :: xs)
     <= 2 * length (join_comma (map JSON_stringify (x :: xs))) + 1)%nat.
Proof.
  induction xs as [|y ys IH]; intros x HL HP;
    inversion HL as [|? ? Lx HL']; subst;
    cbn [forallb] in HP; apply andb_true_iff in HP as [Px HP'];
    specialize (Lx Px).
  - cbn [fold_right map join_comma]. lia.
  - specialize (IH y HL' HP').
    cbn [map] in *. rewrite join_comma_cons2, length_app.
    cbn [fold_right length] in *. lia.
Qed.

Lemma light_members (ps : list (jsstring * json)) :
  forall p,
    Forall (fun kv => light (snd kv)) (p :: ps) ->
    forallb (fun kv => printable (snd kv)) (p :: ps) = true ->
    (fold_right (fun kv n => S (weight (snd kv) + n)) O (p :: ps)
     <= 2 * length (join_comma (map member_text (p :: ps))) + 1)%nat.
Proof.
  assert (forall kv, length (JSON_stringify (snd kv)) <= length (member_text kv))%nat
    as M.
  { intros [k x]. unfold member_text. rewrite length_app. cbn [length snd]. lia. }
  induction ps as [|q qs IH]; intros p HL HP;
    inversion HL as [|? ? Lx HL']; subst;
    cbn [forallb] in HP; apply andb_true_iff in HP as [Px HP'];
    specialize (Lx Px); specialize (M p).
  - cbn [fold_right map join_comma]. lia.
  - specialize (IH q HL' HP').
    cbn [map] in *. rewrite join_comma_cons2, length_app.
    cbn [fold_right length] in *. lia.
Qed.

(** The fuel that [JSON_parse] supplies covers the text of a value. *)
Lemma weight_stringify (v : json) : light v.
Proof.
  induction v as [ | b | m e | s | items IH | props IH ] using json_nested_ind;
    intro Pv.
  - cbn. lia.
  - destruct b; cbn; lia.
  - destruct (stringify_head _ Pv) as (c & r & -> & _). cbn [weight length]. lia.
  - cbn [weight JSON_stringify]. unfold QuoteJSONString. cbn [length]. lia.
  - cbn [weight JSON_stringify length]. rewrite length_app. cbn [length].
    destruct items as [|x xs]; [cbn; lia|].
    cbn [printable] in Pv. pose proof (light_elements xs x IH Pv). lia.
  - cbn [weight JSON_stringify length]. rewrite length_app. cbn [length].
    destruct props as [|p ps]; [cbn; lia|].
    cbn [printable] in Pv. apply andb_true_iff in Pv as [_ Pv].
    pose proof (light_members ps p IH Pv) as L.
    change (map (fun kv => QuoteJSONString (fst kv) ++ 58%N :: JSON_stringify (snd kv))
                (p :: ps))
      with (map member_text (p :: ps)).
    lia.
Qed.

(** [JSON.parse(JSON.stringify(v))] is [v]. *)
Lemma JSON_parse_stringify (v : json) :
  printable v = true -> JSON_parse (JSON_stringify v) = Ok v.
Proof.
  intro Pv. unfold JSON_parse.
  pose proof (parse_value_stringify v Pv
                (2 * length (JSON_stringify v) + 2)%nat []) as R.
  rewrite app_nil_r in R. rewrite R; [reflexivity| |reflexivity].
  pose proof (weight_stringify v Pv). lia.
Qed.
End Roundtrip.

(** ** The fuel of [JSON_parse] *)

Lemma skip_ws_length (s : jsstring) : (length (skip_ws s) <= length s)%nat.
Proof.
  induction s as [|c r IH]; [reflexivity|]. cbn [skip_ws].
  destruct (is_ws c); cbn [length]; lia.
Qed.

Lemma parse_chars_length (n : nat) :
  forall s t r, (length s <= n)%nat ->
    parse_chars s = Some (t, r) -> (length r < length s)%nat.
Proof.
  induction n as [n IH] using lt_wf_ind. intros s t r L.
  destruct s as [|c s]; [discriminate|]. cbn [parse_chars length] in *.
  destruct (c =? 34)%N; [intro E; injection E as _ <-; lia|].
  destruct (c =? 92)%N.
  - destruct s as [|x r1]; [discriminate|]. cbn [length] in *.
    destruct (x =? 117)%N.
    + destruct r1 as [|a [|b [|c' [|d r2]]]]; try discriminate.
      destruct (hex4 a b c' d); [|discriminate].
      destruct (parse_chars r2) as [[t' r']|] eqn:E; [|discriminate].
      cbn [obind length] in *. intro E'. injection E' as _ <-.
      apply (IH (length r2)) in E; lia.
    + destruct (simple_escape x); [|discriminate].
      destruct (parse_chars r1) as [[t' r']|] eqn:E; [|discriminate].
      cbn [obind]. intro E'. injection E' as _ <-.
      apply (IH (length r1)) in E; lia.
  - destruct (c <? 32)%N; [discriminate|].
    destruct (parse_chars s) as [[t' r']|] eqn:E; [|discriminate].
    cbn [obind]. intro E'. injection E' as _ <-.
    apply (IH (length s)) in E; lia.
Qed.

Lemma take_digits_length (s ds r : jsstring) :
  take_digits s = (ds, r) -> (length r <= length s)%nat.
Proof.
  revert ds r. induction s as [|c s IH]; intros ds r; cbn [take_digits].
  - intro E. injection E as _ <-. reflexivity.
  - destruct (is_digit c).
    + destruct (take_digits s) as [ds' r'] eqn:E. intro E'. injection E' as _ <-.
      specialize (IH _ _ eq_refl). cbn [length]. lia.
    + intro E. injection E as _ <-. reflexivity.
Qed.

Lemma parse_unsigned_length (neg : bool) (s : jsstring) (m e : Z) (r : jsstring) :
  parse_unsigned neg s = Some (m, e, r) -> (length r < length s)%nat.
Proof.
  unfold parse_unsigned.
  destruct (parse_int s) as [[ip s2]|] eqn:Ei; [|discriminate]. cbn [obind].
  destruct (parse_frac s2) as [[fp s3]|] eqn:Ef; [|discriminate]. cbn [obind].
  destruct (parse_exp s3) as [[ex s4]|] eqn:Ee; [|discriminate]. cbn [obind].
  intro E. injection E as _ _ <-.
  assert (length s2 < length s)%nat as L1.
  { unfold parse_int in Ei. destruct s as [|c s]; [discriminate|].
    destruct (c =? 48)%N; [injection Ei as _ <-; cbn [length]; lia|].
    destruct (is_digit c) eqn:D; [|discriminate].
    cbn [take_digits] in Ei. rewrite D in Ei.
    destruct (take_digits s) as [ds r'] eqn:T. injection Ei as _ <-.
    apply take_digits_length in T. cbn [length]. lia. }
  assert (length s3 <= length s2)%nat as L2.
  { unfold parse_frac in Ef. destruct s2 as [|c s2]; [injection Ef as _ <-; lia|].
    destruct (c =? 46)%N; [|injection Ef as _ <-; lia].
    destruct (take_digits s2) as [[|d ds] r'] eqn:T; [discriminate|].
    injection Ef as _ <-. apply take_digits_length in T. cbn [length]. lia. }
  assert (length s4 <= length s3)%nat as L3.
  { unfold parse_exp in Ee. destruct s3 as [|c s3]; [injection Ee as _ <-; lia|].
    destruct ((c =? 101) || (c =? 69))%N; [|injection Ee as _ <-; lia].
    match type of Ee with
    | context [match ?m with (_, _) => _ end] =>
        destruct m as [b r1] eqn:Em
    end.
    assert (length r1 <= length s3)%nat as Lr.
    { destruct s3 as [|x r']; [injection Em as _ <-; lia|].
      destruct (x =? 45)%N; [injection Em as _ <-; cbn [length]; lia|].
      destruct (x =? 43)%N; injection Em as _ <-; cbn [length]; lia. }
    destruct (take_digits r1) as [[|d ds] r'] eqn:T; [discriminate|].
    injection Ee as _ <-. apply take_digits_length in T. cbn [length]. lia. }
  lia.
Qed.

Lemma parse_number_length (s : jsstring) (m e : Z) (r : jsstring) :
  parse_number s = Some (m, e, r) -> (length r < length s)%nat.
Proof.
  unfold parse_number. destruct s as [|c s]; [discriminate|].
  destruct (c =? 45)%N; intro E; apply parse_unsigned_length in E;
    cbn [length] in *; lia.
Qed.

Lemma strip_prefix_length (p s r : jsstring) :
  strip_prefix p s = Some r -> (length r <= length s)%nat.
Proof.
  revert s. induction p as [|x p IH]; intros s; cbn [strip_prefix].
  - intro E. injection E as <-. reflexivity.
  - destruct s as [|y s]; [discriminate|]. destruct (x =? y)%N; [|discriminate].
    intro E. apply IH in E. cbn [length]. lia.
Qed.

(** Reading a value consumes text. *)
Lemma parse_value_length (f : nat) :
  (forall s v r, parse_value f s = Some (v, r) -> (length r < length s)%nat)
  /\ (forall s acc v r, parse_elements f s acc = Some (v, r) ->
        (length r < length s)%nat)
  /\ (forall s acc v r, parse_members f s acc = Some (v, r) ->
        (length r < length s)%nat).
Proof.
  induction f as [|f (IHv & IHe & IHm)]; [repeat split; intros; discriminate|].
  split; [|split].
  - intros s v r. cbn [parse_value]. pose proof (skip_ws_length s) as W.
    destruct (skip_ws s) as [|c t]; [discriminate|]. cbn [length] in W.
    destruct (c =? 34)%N.
    { destruct (parse_chars t) as [[x r']|] eqn:E; [|discriminate].
      cbn [obind]. intro E'. injection E' as _ <-.
      apply (parse_chars_length (length t)) in E; lia. }
    destruct (c =? 91)%N.
    { pose proof (skip_ws_length t) as W'.
      destruct (skip_ws t) as [|d r']; [discriminate|]. cbn [length] in W'.
      destruct (d =? 93)%N; [intro E; injection E as _ <-; lia|].
      intro E. apply IHe in E. lia. }
    destruct (c =? 123)%N.
    { pose proof (skip_ws_length t) as W'.
      destruct (skip_ws t) as [|d r']; [discriminate|]. cbn [length] in W'.
      destruct (d =? 125)%N; [intro E; injection E as _ <-; lia|].
      intro E. apply IHm in E. lia. }
    destruct (c =? 110)%N.
    { destruct (strip_prefix (str "ull") t) as [r'|] eqn:E; [|discriminate].
      cbn [obind]. intro E'. injection E' as _ <-.
      apply strip_prefix_length in E. lia. }
    destruct (c =? 116)%N.
    { destruct (strip_prefix (str "rue") t) as [r'|] eqn:E; [|discriminate].
      cbn [obind]. intro E'. injection E' as _ <-.
      apply strip_prefix_length in E. lia. }
    destruct (c =? 102)%N.
    { destruct (strip_prefix (str "alse") t) as [r'|] eqn:E; [|discriminate].
      cbn [obind]. intro E'. injection E' as _ <-.
      apply strip_prefix_length in E. lia. }
    destruct (parse_number (c :: t)) as [[[m e] r']|] eqn:E; [|discriminate].
    cbn [obind]. intro E'. injection E' as _ <-.
    apply parse_number_length in E. cbn [length] in E. lia.
  - intros s acc v r. cbn [parse_elements].
    destruct (parse_value f s) as [[x t]|] eqn:E; [|discriminate]. cbn [obind].
    apply IHv in E. pose proof (skip_ws_length t) as W.
    destruct (skip_ws t) as [|c r']; [discriminate|]. cbn [length] in W.
    destruct (c =? 44)%N; [intro E'; apply IHe in E'; lia|].
    destruct (c =? 93)%N; [|discriminate]. intro E'. injection E' as _ <-. lia.
  - intros s acc v r. cbn [parse_members]. pose proof (skip_ws_length s) as W.
    destruct (skip_ws s) as [|q t]; [discriminate|]. cbn [length] in W.
    destruct (q =? 34)%N; [|discriminate].
    destruct (parse_chars t) as [[k r1]|] eqn:Ec; [|discriminate]. cbn [obind].
    apply (parse_chars_length (length t)) in Ec; [|lia].
    pose proof (skip_ws_length r1) as W1.
    destruct (skip_ws r1) as [|c r2]; [discriminate|]. cbn [length] in W1.
    destruct (c =? 58)%N; [|discriminate].
    destruct (parse_value f r2) as [[x r3]|] eqn:E; [|discriminate]. cbn [obind].
    apply IHv in E. pose proof (skip_ws_length r3) as W3.
    destruct (skip_ws r3) as [|d r4]; [discriminate|]. cbn [length] in W3.
    destruct (d =? 44)%N; [intro E'; apply IHm in E'; lia|].
    destruct (d =? 125)%N; [|discriminate]. intro E'. injection E' as _ <-. lia.
Qed.

(** What any fuel reads, twice the length of the text reads. *)
Lemma parse_value_enough_fuel (f : nat) :
  (forall s x, parse_value f s = Some x ->
     forall g, (2 * length s <= g)%nat -> parse_value g s = Some x)
  /\ (forall s acc x, parse_elements f s acc = Some x ->
        forall g, (2 * length s + 1 <= g)%nat -> parse_elements g s acc = Some x)
  /\ (forall s acc x, parse_members f s acc = Some x ->
        forall g, (2 * length s + 1 <= g)%nat -> parse_members g s acc = Some x).
Proof.
  induction f as [|f (IHv & IHe & IHm)]; [repeat split; intros; discriminate|].
  destruct (parse_value_length f) as (Lv & Le & Lm).
  split; [|split].
  - intros s x E g G. pose proof (skip_ws_length s) as W.
    cbn [parse_value] in E.
    destruct (skip_ws s) as [|c t] eqn:Es; [discriminate|]. cbn [length] in W.
    destruct g as [|g]; [lia|]. cbn [parse_value]. rewrite Es.
    destruct (c =? 34)%N; [assumption|].
    destruct (c =? 91)%N.
    { pose proof (skip_ws_length t) as W'.
      destruct (skip_ws t) as [|d r']; [discriminate|]. cbn [length] in W'.
      destruct (d =? 93)%N; [assumption|]. apply (IHe _ _ _ E). lia. }
    destruct (c =? 123)%N; [|assumption].
    pose proof (skip_ws_length t) as W'.
    destruct (skip_ws t) as [|d r']; [discriminate|]. cbn [length] in W'.
    destruct (d =? 125)%N; [assumption|]. apply (IHm _ _ _ E). lia.
  - intros s acc x E g G. cbn [parse_elements] in E.
    destruct (parse_value f s) as [[v t]|] eqn:Ev; [|discriminate].
    cbn [obind] in E. destruct g as [|g]; [lia|]. cbn [parse_elements].
    rewrite (IHv _ _ Ev g) by lia. cbn [obind].
    apply Lv in Ev. pose proof (skip_ws_length t) as W.
    destruct (skip_ws t) as [|c r']; [discriminate|]. cbn [length] in W.
    destruct (c =? 44)%N; [|assumption]. apply (IHe _ _ _ E). lia.
  - intros s acc x E g G. cbn [parse_members] in E.
    pose proof (skip_ws_length s) as W.
    destruct (skip_ws s) as [|q t] eqn:Es; [discriminate|]. cbn [length] in W.
    destruct g as [|g]; [lia|]. cbn [parse_members]. rewrite Es.
    destruct (q =? 34)%N; [|discriminate].
    destruct (parse_chars t) as [[k r1]|] eqn:Ec; [|discriminate].
    cbn [obind] in *. apply (parse_chars_length (length t)) in Ec; [|lia].
    pose proof (skip_ws_length r1) as W1.
    destruct (skip_ws r1) as [|c r2]; [discriminate|]. cbn [length] in W1.
    destruct (c =? 58)%N; [|discriminate].
    destruct (parse_value f r2) as [[v r3]|] eqn:Ev; [|discriminate].
    cbn [obind] in E. rewrite (IHv _ _ Ev g) by lia. cbn [obind].
    apply Lv in Ev. pose proof (skip_ws_length r3) as W3.
    destruct (skip_ws r3) as [|d r4]; [discriminate|]. cbn [length] in W3.
    destruct (d =? 44)%N; [|assumption]. apply (IHm _ _ _ E). lia.
Qed.

(** The fuel of [JSON_parse] is no limit: [JSON_parse] returns the value
    that [parse_value] reads from the whole text with some fuel, and throws
    exactly when no fuel reads one. *)
Lemma JSON_parse_any_fuel (text : jsstring) (v : json) :
  JSON_parse text = Ok v
  <-> exists f rest, parse_value f text = Some (v, rest) /\ skip_ws rest = [].
Proof.
  unfold JSON_parse. split.
  - destruct (parse_value (2 * length text + 2) text) as [[v' rest]|] eqn:E;
      [|discriminate].
    destruct (skip_ws rest) eqn:W; [|discriminate].
    intro E'. injection E' as <-. now exists (2 * length text + 2)%nat, rest.
  - intros (f & rest & E & W).
    destruct (parse_value_enough_fuel f) as (Hv & _).
    rewrite (Hv _ _ E (2 * length text + 2)%nat) by lia. now rewrite W.
Qed.

(** ** The validator on the code of a credential *)

Section Validator.
Context {H : Host}.

Lemma printable_payload (c : QRPayload.t) :
  is_safe_integer (QRPayload.generatedAt c) = true ->
  printable (QRPayload.to_json c) = true.
Proof.
  intro S. unfold QRPayload.to_json. cbn [printable forallb snd map fst].
  rewrite S. reflexivity.
Qed.

Lemma JSON_parse_encode (c : QRPayload.t) :
  is_safe_integer (QRPayload.generatedAt c) = true ->
  JSON_parse (encode c) = Ok (QRPayload.to_json c).
Proof. intro S. apply JSON_parse_stringify. now apply printable_payload. Qed.

Lemma ToBoolean_string (s : jsstring) :
  ToBoolean (Some (JString s)) = nonempty s.
Proof. now destruct s. Qed.

Lemma decode_encode (c : QRPayload.t) :
  valid_credential c = true -> decode (encode c) = Ok (QRPayload.to_json c).
Proof.
  unfold valid_credential, required_fields_present.
  intro V. apply andb_true_iff in V as [V S].
  apply andb_true_iff in V as [V V3]. apply andb_true_iff in V as [V1 V2].
  unfold decode. rewrite (JSON_parse_encode c S). cbn [rbind].
  change (get_field (QRPayload.to_json c) (str "tenantId"))
    with (Ok (Some (JString (QRPayload.tenantId c)))).
  change (get_field (QRPayload.to_json c) (str "expiresAt"))
    with (Ok (Some (JString (QRPayload.expiresAt c)))).
  change (get_field (QRPayload.to_json c) (str "visitorName"))
    with (Ok (Some (JString (QRPayload.visitorName c)))).
  cbn [rbind]. rewrite !ToBoolean_string, V1, V2, V3. reflexivity.
Qed.

Lemma decode_encode_incomplete (c : QRPayload.t) :
  is_safe_integer (QRPayload.generatedAt c) = true ->
  required_fields_present c = false ->
  decode (encode c) = Throw UserError.
Proof.
  unfold required_fields_present. intros S V.
  unfold decode. rewrite (JSON_parse_encode c S). cbn [rbind].
  change (get_field (QRPayload.to_json c) (str "tenantId"))
    with (Ok (Some (JString (QRPayload.tenantId c)))).
  change (get_field (QRPayload.to_json c) (str "expiresAt"))
    with (Ok (Some (JString (QRPayload.expiresAt c)))).
  change (get_field (QRPayload.to_json c) (str "visitorName"))
    with (Ok (Some (JString (QRPayload.visitorName c)))).
  cbn [rbind]. rewrite !ToBoolean_string.
  rewrite <- !negb_andb, V. reflexivity.
Qed.

(** What the [try] block does with the code of a valid credential. *)
Lemma validateQR_try_encode (c : QRPayload.t) (user : User.t) (now : Z)
    (st : QRValidatorState) :
  valid_credential c = true ->
  validateQR_try user now (encode c) st =
  if jsstring_eqb (QRPayload.tenantId c) (User.tenantId user) then
    match Date_parse (QRPayload.expiresAt c) with
    | Some t =>
        if t <? now
        then Ok (setScanStatus invalid (setErrorMsg (msg_expired t) st))
        else Ok (setScanStatus valid
                   (setScannedData (Some (QRPayload.to_json c)) st))
    | None =>
        Ok (setScanStatus valid (setScannedData (Some (QRPayload.to_json c)) st))
    end
  else
    Ok (setScanStatus invalid
          (setErrorMsg (msg_other_tenant (QRPayload.tenantId c)) st)).
Proof.
  intro V. unfold validateQR_try. rewrite (decode_encode c V). cbn [rbind].
  change (get_field (QRPayload.to_json c) (str "tenantId"))
    with (Ok (Some (JString (QRPayload.tenantId c)))).
  change (get_field (QRPayload.to_json c) (str "expiresAt"))
    with (Ok (Some (JString (QRPayload.expiresAt c)))).
  cbn [rbind strict_equal_string new_Date ToString].
  destruct (jsstring_eqb (QRPayload.tenantId c) (User.tenantId user));
    cbn [negb]; [|reflexivity].
  destruct (Date_parse (QRPayload.expiresAt c)) as [t|]; [|reflexivity].
  now destruct (t <? now).
Qed.

Lemma validate_encode (c : QRPayload.t) (user : User.t) (now : Z) :
  valid_credential c = true ->
  validate user now (encode c) =
  if jsstring_eqb (QRPayload.tenantId c) (User.tenantId user) then
    match Date_parse (QRPayload.expiresAt c) with
    | Some t =>
        if t <? now then Some (Rejected (Expired t))
        else Some (Accepted (QRPayload.to_json c))
    | None => Some (Accepted (QRPayload.to_json c))
    end
  else Some (Rejected (TenantMismatch (QRPayload.tenantId c))).
Proof.
  intro V. unfold validate, tick_found, validateQR.
  rewrite (validateQR_try_encode c user now _ V).
  destruct (jsstring_eqb (QRPayload.tenantId c) (User.tenantId user));
    [|reflexivity].
  destruct (Date_parse (QRPayload.expiresAt c)) as [t|]; [|reflexivity].
  now destruct (t <? now).
Qed.
End Validator.

(** ** The sweep *)

Section Sweep.
Context {H : Host}.

(** The callback keeps exactly the retained records and raises the flag
    at every other one. *)
Lemma keep_resident_retained (now : Z) (r : Resident.t) (hasChanges : bool) :
  keep_resident now r hasChanges
  = (retained now r, if retained now r then hasChanges else true).
Proof.
  unfold keep_resident, retained, expiration_unreadable, expires_after,
    expiration_unset, expiration_time.
  destruct (Resident.expirationDate r) as [[|c d]|]; try reflexivity.
  cbn [nonempty negb orb andb Date_le].
  destruct (Date_parse (c :: d)) as [t|]; [|reflexivity].
  unfold Date_le. cbn [orb]. rewrite Z.ltb_antisym. now destruct (t <=? now).
Qed.

Lemma Array_filter_keep_resident (now : Z) (l : list Resident.t) :
  forall hasChanges,
    Array_filter (keep_resident now) l hasChanges
    = (filter (retained now) l,
       hasChanges || existsb (fun r => negb (retained now r)) l).
Proof.
  induction l as [|r l IH]; intro b; cbn [Array_filter filter existsb].
  - now rewrite orb_false_r.
  - rewrite keep_resident_retained, IH.
    destruct (retained now r); cbn [negb orb]; [reflexivity|].
    now rewrite orb_true_r.
Qed.

Lemma filter_all (T : Type) (p : T -> bool) (l : list T) :
  existsb (fun x => negb (p x)) l = false -> filter p l = l.
Proof.
  induction l as [|x l IH]; [reflexivity|]. cbn [existsb filter]. intro E.
  apply orb_false_iff in E as [E1 E2]. apply negb_false_iff in E1.
  now rewrite E1, IH.
Qed.

Lemma filter_shorter (T : Type) (p : T -> bool) (l : list T) :
  existsb (fun x => negb (p x)) l = true ->
  (length (filter p l) < length l)%nat.
Proof.
  induction l as [|x l IH]; [discriminate|]. cbn [existsb filter]. intro E.
  pose proof (filter_length_le p l) as L.
  destruct (p x); cbn [negb orb length] in *; [|lia].
  specialize (IH E). lia.
Qed.

Lemma existsb_filter_retained (T : Type) (p : T -> bool) (l : list T) :
  existsb (fun x => negb (p x)) (filter p l) = false.
Proof.
  induction l as [|x l IH]; [reflexivity|]. cbn [filter].
  destruct (p x) eqn:E; [|assumption]. cbn [existsb]. now rewrite E, IH.
Qed.

(** The updater hands back the array it was given unless a record has
    expired. *)
Lemma expiration_updater_spec (now : Z) (l : list Resident.t) :
  expiration_updater now l =
  if existsb (fun r => negb (retained now r)) l
  then Replaced (filter (retained now) l)
  else Same.
Proof.
  unfold expiration_updater. now rewrite Array_filter_keep_resident.
Qed.

(** The store after a sweep. *)
Lemma checkExpiration_spec (now : Z) (st : Store) :
  checkExpiration now st =
  if existsb (fun r => negb (retained now r)) (residents st)
  then {| residents := filter (retained now) (residents st);
          setItem_log := filter (retained now) (residents st) :: setItem_log st |}
  else st.
Proof.
  unfold checkExpiration, setValue. rewrite expiration_updater_spec.
  now destruct (existsb _ (residents st)).
Qed.

Lemma residents_checkExpiration (now : Z) (st : Store) :
  residents (checkExpiration now st) = filter (retained now) (residents st).
Proof.
  rewrite checkExpiration_spec.
  destruct (existsb _ (residents st)) eqn:E; [reflexivity|].
  symmetry. now apply filter_all.
Qed.

Lemma checkExpiration_twice (now : Z) (st : Store) :
  checkExpiration now (checkExpiration now st) = checkExpiration now st.
Proof.
  rewrite (checkExpiration_spec now (checkExpiration now st)).
  now rewrite residents_checkExpiration, existsb_filter_retained.
Qed.

Lemma checkExpiration_nothing_removed (now : Z) (st : Store) :
  removedCount now st = O ->
  expiration_updater now (residents st) = Same /\ checkExpiration now st = st.
Proof.
  unfold removedCount.
  rewrite residents_checkExpiration, checkExpiration_spec, expiration_updater_spec.
  destruct (existsb _ (residents st)) eqn:E; [|now split].
  apply (filter_shorter _ (retained now)) in E. lia.
Qed.

Lemma subsequence_filter (T : Type) (p : T -> bool) (l : list T) :
  subsequence (filter p l) l.
Proof.
  induction l as [|x l IH]; cbn [filter]; [constructor|].
  destruct (p x); now constructor.
Qed.

Lemma retained_with_tenant (now : Z) (t : jsstring) (r : Resident.t) :
  retained now (with_tenant t r) = retained now r.
Proof. reflexivity. Qed.

Lemma filter_comm (T : Type) (p q : T -> bool) (l : list T) :
  filter p (filter q l) = filter q (filter p l).
Proof.
  induction l as [|x l IH]; [reflexivity|]. cbn [filter].
  destruct (p x) eqn:P, (q x) eqn:Q; cbn [filter]; rewrite ?P, ?Q, IH; reflexivity.
Qed.
End Sweep.

(** ** The generator *)

Section Generator.
Context {H : Host}.
Variables (user : User.t) (host : Resident.t) (finalExpiration : jsstring).

Lemma new_payload_spec (w : World) :
  new_payload user host finalExpiration w
  = (nth_payload user host finalExpiration w 0, advance w 1 1).
Proof.
  unfold new_payload, bind, randomUUID, Date_now, ret, nth_payload, advance.
  cbn [uuid_source uuids_drawn clock_source clock_reads].
  now rewrite !Nat.add_0_r, !Nat.add_1_r.
Qed.

Lemma nth_payload_advance (w : World) (i : nat) :
  nth_payload user host finalExpiration (advance w 1 1) i
  = nth_payload user host finalExpiration w (S i).
Proof.
  unfold nth_payload, advance.
  cbn [uuid_source uuids_drawn clock_source clock_reads].
  now rewrite !Nat.add_1_r, !Nat.add_succ_comm.
Qed.

Lemma advance_advance (w : World) (a b c d : nat) :
  advance (advance w a b) c d = advance w (a + c) (b + d).
Proof.
  unfold advance. cbn [uuid_source uuids_drawn clock_source clock_reads].
  now rewrite !Nat.add_assoc.
Qed.

(** The loop of [handleGenerate] appends one payload, and its code, for
    each of its [n] iterations. *)
Lemma generate_loop_spec (n : nat) :
  forall (payloads : list QRPayload.t) (newCodes : list jsstring) (w : World),
    generate_loop n user host finalExpiration payloads newCodes w
    = (payloads ++ map (nth_payload user host finalExpiration w) (seq 0 n),
       newCodes
       ++ map encode (map (nth_payload user host finalExpiration w) (seq 0 n)),
       advance w n n).
Proof.
  induction n as [|n IH]; intros ps cs w.
  - cbn [generate_loop seq map ret]. rewrite !app_nil_r.
    unfold advance. rewrite !Nat.add_0_r. now destruct w.
  - cbn [generate_loop]. unfold bind at 1. rewrite new_payload_spec, IH.
    rewrite advance_advance. cbn [seq map]. rewrite <- !app_assoc. cbn [app].
    rewrite <- seq_shift, !map_map.
    rewrite (map_ext _ _ (nth_payload_advance w)).
    rewrite (map_ext
               (fun x => encode (nth_payload user host finalExpiration
                                   (advance w 1 1) x))
               (fun x => encode (nth_payload user host finalExpiration w (S x))))
      by (intro; now rewrite nth_payload_advance).
    reflexivity.
Qed.
End Generator.

Section Issue.
Context {H : Host}.

Lemma default_expiration_spec (gen : QRGeneratorState) (w : World) :
  default_expiration (expirationDate gen) w
  = (if expiry_available gen w then Ok (batch_expiration gen w)
     else Throw RangeError,
     if nonempty (expirationDate gen) then w else advance w 0 1).
Proof.
  unfold default_expiration, batch_expiration, expiry_available.
  destruct (expirationDate gen) as [|c d]; [|reflexivity].
  unfold bind, Date_now, ret, advance, new_Date_toISOString.
  cbn [nonempty orb]. rewrite Nat.add_0_r, Nat.add_1_r.
  now destruct (time_in_range _).
Qed.

(** What the statements of [handleGenerate] build: nothing where no
    resident is selected or found; then the [RangeError] where no date was
    entered and the clock is within a day of the end of the time values; and
    otherwise one payload for each iteration of the loop, whatever the
    quantity. *)
Lemma handleGenerate_body_spec (user : User.t) (residents : list Resident.t)
    (gen : QRGeneratorState) (w : World) :
  handleGenerate_body user residents gen w =
  match selected_resident residents gen with
  | None => (Ok None, w)
  | Some host =>
      let w1 := if nonempty (expirationDate gen) then w else advance w 0 1 in
      let n := Z.to_nat (quantity gen) in
      let payloads := map (nth_payload user host (batch_expiration gen w) w1) (seq 0 n) in
      if expiry_available gen w
      then (Ok (Some (payloads, map encode payloads)), advance w1 n n)
      else (Throw RangeError, w1)
  end.
Proof.
  unfold handleGenerate_body, selected_resident.
  destruct (selectedResidentId gen) as [|c d] eqn:E; [reflexivity|].
  destruct (find _ residents) as [host|]; [|reflexivity].
  unfold bind. rewrite default_expiration_spec.
  destruct (expiry_available gen w); [|reflexivity].
  now rewrite generate_loop_spec.
Qed.

Lemma issue_spec (user : User.t) (residents : list Resident.t)
    (gen : QRGeneratorState) (w : World) :
  issue user residents gen w =
  match selected_resident residents gen with
  | None => (None, w)
  | Some host =>
      let w1 := if nonempty (expirationDate gen) then w else advance w 0 1 in
      let n := Z.to_nat (quantity gen) in
      let payloads := map (nth_payload user host (batch_expiration gen w) w1) (seq 0 n) in
      if expiry_available gen w
      then (Some (payloads, map encode payloads), advance w1 n n)
      else (None, w1)
  end.
Proof.
  unfold issue, bind. rewrite handleGenerate_body_spec.
  destruct (selected_resident residents gen) as [host|]; [|reflexivity].
  cbv zeta. now destruct (expiry_available gen w).
Qed.

Lemma selected_resident_spec (residents : list Resident.t)
    (gen : QRGeneratorState) (host : Resident.t) :
  selected_resident residents gen = Some host ->
  In host residents /\ Resident.id host = selectedResidentId gen.
Proof.
  unfold selected_resident. destruct (selectedResidentId gen); [discriminate|].
  intro F. apply find_some in F as [I E]. split; [assumption|].
  now apply jsstring_eqb_eq.
Qed.

Lemma tenantResidents_spec (residents : list Resident.t) (u : User.t)
    (r : Resident.t) :
  In r (tenantResidents residents (Some u)) ->
  In r residents /\ Resident.tenantId r = User.tenantId u.
Proof.
  unfold tenantResidents. intro I. apply filter_In in I as [I E].
  split; [assumption|]. now apply jsstring_eqb_eq.
Qed.
End Issue.

(** ** The outcomes of the validator *)

Section Outcome.
Context {H : Host}.

Lemma validateQR_try_decode (user : User.t) (now : Z) (raw : jsstring)
    (st : QRValidatorState) (e : exn) :
  decode raw = Throw e -> validateQR_try user now raw st = Throw e.
Proof. intro D. unfold validateQR_try. now rewrite D. Qed.

Lemma decode_JSON_parse (raw : jsstring) (e : exn) :
  JSON_parse raw = Throw e -> decode raw = Throw e.
Proof. intro D. unfold decode. now rewrite D. Qed.

Lemma validate_decode_throw (user : User.t) (now : Z) (raw : jsstring) (e : exn) :
  decode raw = Throw e ->
  validate user now raw = Some (Rejected MalformedPayload).
Proof.
  intro D. unfold validate, tick_found, validateQR.
  now rewrite (validateQR_try_decode user now raw _ e D).
Qed.

(** [decode] answers with the parsed value, in which the three required
    fields are present and truthy, or throws. *)
Lemma decode_ok (raw : jsstring) (payload : json) :
  decode raw = Ok payload ->
  JSON_parse raw = Ok payload
  /\ forall k, In k required_keys ->
       exists v, get_field payload k = Ok (Some v) /\ ToBoolean (Some v) = true.
Proof.
  unfold decode. destruct (JSON_parse raw) as [p|]; cbn [rbind]; [|discriminate].
  destruct (get_field p (str "tenantId")) as [t|] eqn:Et; cbn [rbind]; [|discriminate].
  destruct (get_field p (str "expiresAt")) as [x|] eqn:Ex; cbn [rbind]; [|discriminate].
  destruct (get_field p (str "visitorName")) as [n|] eqn:En; cbn [rbind]; [|discriminate].
  destruct (ToBoolean t) eqn:Bt; cbn [negb orb]; [|discriminate].
  destruct (ToBoolean x) eqn:Bx; cbn [negb orb]; [|discriminate].
  destruct (ToBoolean n) eqn:Bn; cbn [negb orb]; [|discriminate].
  intro E. injection E as <-. split; [reflexivity|].
  intros k [<-|[<-|[<-|[]]]].
  - destruct t as [v|]; [|discriminate]. now exists v.
  - destruct x as [v|]; [|discriminate]. now exists v.
  - destruct n as [v|]; [|discriminate]. now exists v.
Qed.

Lemma decode_falsy (raw : jsstring) (payload : json) (k : jsstring) :
  JSON_parse raw = Ok payload ->
  In k required_keys ->
  (forall v, get_field payload k = Ok v -> ToBoolean v = false) ->
  exists e, decode raw = Throw e.
Proof.
  intros P I F. destruct (decode raw) as [p|e] eqn:D; [|now exists e].
  apply decode_ok in D as [P' C]. rewrite P in P'. injection P' as <-.
  destruct (C k I) as (v & G & B). rewrite (F _ G) in B. discriminate.
Qed.

(** Every run of the [try] block that does not throw ends in a state
    that shows an outcome. *)
Lemma validateQR_try_outcome (user : User.t) (now : Z) (raw : jsstring)
    (st st' : QRValidatorState) :
  validateQR_try user now raw st = Ok st' ->
  exists payload,
    decode raw = Ok payload
    /\ (outcome st' = Some (Accepted payload)
        \/ (exists t, outcome st' = Some (Rejected (TenantMismatch t)))
        \/ (exists t, outcome st' = Some (Rejected (Expired t)))).
Proof.
  unfold validateQR_try.
  destruct (decode raw) as [p|]; cbn [rbind]; [|discriminate].
  destruct (get_field p (str "tenantId")) as [t|]; cbn [rbind]; [|discriminate].
  destruct (get_field p (str "expiresAt")) as [x|]; cbn [rbind]; [|discriminate].
  intro E. exists p. split; [reflexivity|].
  destruct (negb (strict_equal_string t (User.tenantId user))).
  - destruct (match t with Some v => ToString v | None => Ok (str "undefined") end)
      as [tenant|]; cbn [rbind] in E; [|discriminate].
    injection E as <-. right. left. now exists tenant.
  - destruct (new_Date x) as [[d|]|]; cbn [rbind] in E; [| |discriminate].
    + destruct (d <? now); injection E as <-.
      * right. right. now exists d.
      * now left.
    + injection E as <-. now left.
Qed.

(** The outcome of [validateQR] does not depend on the state in which the
    code is scanned. *)
Lemma outcome_validateQR (user : User.t) (now : Z) (raw : jsstring)
    (st : QRValidatorState) :
  outcome (validateQR user now raw st) = validate user now raw.
Proof.
  unfold validate, tick_found, validateQR, validateQR_try.
  destruct (decode raw) as [p|]; cbn [rbind]; [|reflexivity].
  destruct (get_field p (str "tenantId")) as [t|]; cbn [rbind]; [|reflexivity].
  destruct (get_field p (str "expiresAt")) as [x|]; cbn [rbind]; [|reflexivity].
  destruct (negb (strict_equal_string t (User.tenantId user))).
  - destruct (match t with Some v => ToString v | None => Ok (str "undefined") end);
      reflexivity.
  - destruct (new_Date x) as [[d|]|]; cbn [rbind]; try reflexivity.
    destruct (d <? now); reflexivity.
Qed.

Lemma validate_total (user : User.t) (now : Z) (raw : jsstring) :
  exists o, validate user now raw = Some o.
Proof.
  unfold validate, tick_found, validateQR.
  destruct (validateQR_try user now raw (stopCamera scanning_state)) as [st'|e] eqn:E.
  - apply validateQR_try_outcome in E as (p & _ & [O|[[t O]|[t O]]]);
      rewrite O; eexists; reflexivity.
  - eexists; reflexivity.
Qed.

Lemma validate_accepted (user : User.t) (now : Z) (raw : jsstring) (payload : json) :
  validate user now raw = Some (Accepted payload) -> decode raw = Ok payload.
Proof.
  unfold validate, tick_found, validateQR.
  destruct (validateQR_try user now raw (stopCamera scanning_state)) as [st'|e] eqn:E.
  - unfold validateQR_try in E.
    destruct (decode raw) as [p|]; cbn [rbind] in E; [|discriminate].
    destruct (get_field p (str "tenantId")) as [t|]; cbn [rbind] in E; [|discriminate].
    destruct (get_field p (str "expiresAt")) as [x|]; cbn [rbind] in E; [|discriminate].
    destruct (negb (strict_equal_string t (User.tenantId user))).
    + destruct (match t with Some v => ToString v | None => Ok (str "undefined") end)
        as [tenant|]; cbn [rbind] in E; [|discriminate].
      injection E as <-. discriminate.
    + destruct (new_Date x) as [[d|]|]; cbn [rbind] in E; [| |discriminate].
      * destruct (d <? now); injection E as <-; [discriminate|].
        cbn. intro A. now injection A as ->.
      * injection E as <-. cbn. intro A. now injection A as ->.
  - discriminate.
Qed.
End Outcome.

(** ** Scenarios

    The scenarios of the specification, run on the sample host. *)

(** A record that expires at 10:30 is removed by the sweep of 10:31 and
    kept by the sweep of 10:25. *)
Example sweep_after_expiry :
  residents (checkExpiration (H := IsoUtcHost) (1704105000000 + 60000)
               sample_store)
  = [juan; maria].
Proof. vm_compute. reflexivity. Qed.

Example sweep_before_expiry :
  checkExpiration (H := IsoUtcHost) (1704105000000 - 300000) sample_store
  = sample_store.
Proof. vm_compute. reflexivity. Qed.

(** The code of a credential is accepted by the checkpoint of its tenant
    before it expires and rejected after. *)
Example invitation_accepted :
  validate (H := IsoUtcHost) ana 1700000000000
    (encode (H := IsoUtcHost) invitation)
  = Some (Accepted (QRPayload.to_json invitation)).
Proof. vm_compute. reflexivity. Qed.

Example invitation_expired :
  validate (H := IsoUtcHost) ana (new_year_2030 + 1)
    (encode (H := IsoUtcHost) invitation)
  = Some (Rejected (Expired new_year_2030)).
Proof. vm_compute. reflexivity. Qed.

(** The default expiry of a batch issued at 2023-11-14T22:13:20.000Z. *)
Example default_expiry_next_day :
  batch_expiration (sample_generator 5) sample_world
  = str "2023-11-15T22:13:20.000Z".
Proof. vm_compute. reflexivity. Qed.

(* ================================================================== *)
(** * Part III: the properties of the specification                    *)
(* ================================================================== *)

(** ** C1: tenant isolation *)

(** C1.  For every credential [c] whose tenant differs from the tenant of
    the validating user, validating the code of [c] is rejected with
    [TenantMismatch (tenantId c)], at every [now] and whatever the expiry of
    [c] is: the tenant is compared before the expiry.  A credential is a
    valid one, as [handleGenerate] issues them: [tenantId], [expiresAt] and
    [visitorName] are not empty and [generatedAt] is an integer of the safe
    range. *)
Theorem tenant_isolation {H : Host} (c : QRPayload.t) (user : User.t) (now : Z) :
  valid_credential c = true ->
  QRPayload.tenantId c <> User.tenantId user ->
  validate user now (encode c)
  = Some (Rejected (TenantMismatch (QRPayload.tenantId c))).
Proof.
  intros V N. rewrite (validate_encode c user now V).
  now rewrite (jsstring_eqb_neq _ _ N).
Qed.

(** The scenario of the specification: a credential of tenant t2 shown
    at a checkpoint of tenant t1, before it expires and after. *)
Lemma tenant_isolation_witness :
  valid_credential foreign_invitation = true
  /\ QRPayload.tenantId foreign_invitation <> User.tenantId ana
  /\ validate (H := IsoUtcHost) ana 1700000000000
       (encode (H := IsoUtcHost) foreign_invitation)
     = Some (Rejected (TenantMismatch (QRPayload.tenantId foreign_invitation)))
  /\ validate (H := IsoUtcHost) ana (new_year_2030 + 1)
       (encode (H := IsoUtcHost) foreign_invitation)
     = Some (Rejected (TenantMismatch (QRPayload.tenantId foreign_invitation))).
Proof.
  assert (QRPayload.tenantId foreign_invitation <> User.tenantId ana) as N
    by (vm_compute; discriminate).
  split; [reflexivity|]. split; [exact N|]. split.
  - apply (tenant_isolation (H := IsoUtcHost) foreign_invitation ana 1700000000000);
      [reflexivity|exact N].
  - apply (tenant_isolation (H := IsoUtcHost) foreign_invitation ana
             (new_year_2030 + 1)); [reflexivity|exact N].
Defined.

(** ** C2: the expiry boundary *)

(** C2, as amended.  For every valid credential [c] of the tenant of the
    validating user: where [expiresAt] reads as the instant [e], the code is
    accepted exactly when [now <= e] and rejected as [Expired e] exactly
    when [e < now], so at [now = e] it is accepted; where [expiresAt] does
    not read as a date, the code is accepted at every [now]. *)
Theorem expiry_boundary {H : Host} (c : QRPayload.t) (user : User.t) (now : Z) :
  valid_credential c = true ->
  QRPayload.tenantId c = User.tenantId user ->
  (forall e, Date_parse (QRPayload.expiresAt c) = Some e ->
     (validate user now (encode c) = Some (Accepted (QRPayload.to_json c))
      <-> now <= e)
     /\ (validate user now (encode c) = Some (Rejected (Expired e))
         <-> e < now))
  /\ (Date_parse (QRPayload.expiresAt c) = None ->
      validate user now (encode c) = Some (Accepted (QRPayload.to_json c))).
Proof.
  intros V T. rewrite (validate_encode c user now V), T, jsstring_eqb_refl.
  split.
  - intros e ->. destruct (Z.ltb_spec e now) as [L|L]; split; split;
      intro E; try reflexivity; try discriminate; lia.
  - now intros ->.
Qed.

(** At the instant of its expiry the sample credential is accepted. *)
Lemma expiry_boundary_witness :
  valid_credential invitation = true
  /\ QRPayload.tenantId invitation = User.tenantId ana
  /\ @Date_parse IsoUtcHost (QRPayload.expiresAt invitation) = Some new_year_2030
  /\ (validate (H := IsoUtcHost) ana new_year_2030
        (encode (H := IsoUtcHost) invitation)
      = Some (Accepted (QRPayload.to_json invitation))
      <-> new_year_2030 <= new_year_2030).
Proof.
  assert (@Date_parse IsoUtcHost (QRPayload.expiresAt invitation)
          = Some new_year_2030) as P by (vm_compute; reflexivity).
  split; [reflexivity|]. split; [reflexivity|]. split; [exact P|].
  apply (proj1 (expiry_boundary (H := IsoUtcHost) invitation ana new_year_2030
                  eq_refl eq_refl) new_year_2030 P).
Defined.

(** C2, as stated, fails: at the very instant at which it expires, a
    credential of the validator's tenant is accepted, not rejected as
    expired. *)
Lemma accepted_at_expiry_instant :
  QRPayload.tenantId invitation = User.tenantId ana
  /\ @Date_parse IsoUtcHost (QRPayload.expiresAt invitation)
     = Some new_year_2030
  /\ ~ new_year_2030 < new_year_2030
  /\ validate (H := IsoUtcHost) ana new_year_2030
       (encode (H := IsoUtcHost) invitation)
     = Some (Accepted (QRPayload.to_json invitation)).
Proof.
  split; [reflexivity|]. split; [vm_compute; reflexivity|].
  split; [lia|vm_compute; reflexivity].
Qed.

(** ** C3: what a sweep retains *)

(** C3, as amended.  After a sweep at [now] the store holds exactly the
    records whose expiration date is unset (absent or empty), is set but
    does not read as a date, or is strictly later than [now], in their
    order; a record without expiration date is never removed, and a record
    whose date reads as an instant not later than [now] is always
    removed. *)
Theorem sweep_retains {H : Host} (now : Z) (st : Store) :
  residents (checkExpiration now st) = filter (retained now) (residents st)
  /\ (forall r, In r (residents (checkExpiration now st)) <->
        In r (residents st)
        /\ (expiration_unset r = true \/ expiration_unreadable r = true
            \/ expires_after now r = true))
  /\ (forall r, In r (residents st) -> expiration_unset r = true ->
        In r (residents (checkExpiration now st)))
  /\ (forall r t, expiration_time r = Some t -> t <= now ->
        ~ In r (residents (checkExpiration now st))).
Proof.
  rewrite residents_checkExpiration. split; [reflexivity|].
  assert (forall r, retained now r = true <->
            expiration_unset r = true \/ expiration_unreadable r = true
            \/ expires_after now r = true) as R.
  { intro r. unfold retained. rewrite !orb_true_iff. tauto. }
  split; [|split].
  - intro r. rewrite filter_In, R. tauto.
  - intros r I U. apply filter_In. split; [assumption|]. apply R. now left.
  - intros r t E L I. apply filter_In in I as [_ I]. apply R in I.
    unfold expiration_unreadable, expires_after in I. rewrite E in I.
    unfold expiration_unset, expiration_time in *.
    destruct (Resident.expirationDate r) as [[|c d]|]; try discriminate.
    cbn [nonempty negb andb] in I.
    destruct I as [I|[I|I]]; try discriminate.
    apply Z.ltb_lt in I. lia.
Qed.

(** The scenario of the specification: a record that expired is removed
    and the records without expiration date stay. *)
Lemma sweep_retains_witness :
  residents (checkExpiration (H := IsoUtcHost) new_year_2030 sample_store)
  = [juan; maria]
  /\ ~ In past_visitor
       (residents (checkExpiration (H := IsoUtcHost) new_year_2030 sample_store)).
Proof.
  split; [vm_compute; reflexivity|].
  apply (proj2 (proj2 (proj2
           (sweep_retains (H := IsoUtcHost) new_year_2030 sample_store)))
           past_visitor 1704105000000);
    [vm_compute; reflexivity|vm_compute; discriminate].
Defined.

(** C3, as stated, fails: a record whose expiration date is set to a text
    that is no date stays in the store at every sweep, though its date is
    neither unset nor later than [now]. *)
Lemma sweep_keeps_unreadable_date :
  expiration_unset undated_visitor = false
  /\ expires_after (H := IsoUtcHost) new_year_2030 undated_visitor = false
  /\ residents (checkExpiration (H := IsoUtcHost) new_year_2030 undated_store)
     = [undated_visitor].
Proof. repeat split; vm_compute; reflexivity. Qed.

(** ** C4: the round trip *)

Lemma to_json_injective (c c' : QRPayload.t) :
  QRPayload.to_json c = QRPayload.to_json c' -> c = c'.
Proof.
  destruct c as [i t n u v [cn cr ci] x g], c' as [i' t' n' u' v' [cn' cr' ci'] x' g'].
  unfold QRPayload.to_json. cbn [QRPayload.id QRPayload.tenantId
    QRPayload.residentName QRPayload.residentUnit QRPayload.visitorName
    QRPayload.createdBy QRPayload.expiresAt QRPayload.generatedAt
    CreatedBy.name CreatedBy.role CreatedBy.id].
  intro E. inversion E. reflexivity.
Qed.

(** C4.  For every valid credential [c], decoding its code yields the
    object that was encoded, from which [c] is recovered. *)
Theorem decode_encode_roundtrip {H : Host} (c : QRPayload.t) :
  valid_credential c = true ->
  decode (encode c) = Ok (QRPayload.to_json c)
  /\ forall c', decode (encode c) = Ok (QRPayload.to_json c') -> c' = c.
Proof.
  intro V. rewrite (decode_encode c V). split; [reflexivity|].
  intros c' E. apply to_json_injective. congruence.
Qed.

Lemma decode_encode_roundtrip_witness :
  valid_credential invitation = true
  /\ decode (encode (H := IsoUtcHost) invitation)
     = Ok (QRPayload.to_json invitation).
Proof.
  split; [reflexivity|].
  apply (decode_encode_roundtrip (H := IsoUtcHost) invitation). reflexivity.
Defined.

(** ** C5: decoding never throws and types its rejections *)

(** C5, as amended.  For every input string, validation ends with a typed
    outcome and no exception escapes.  The string is rejected as
    [MalformedPayload] when it is not JSON and when, in the parsed value,
    [tenantId], [expiresAt] or [visitorName] is missing or falsy (empty);
    what is accepted is the parsed value, in which these three fields are
    present and truthy.  Whether [expiresAt] reads as a date is not
    checked. *)
Theorem validate_typed {H : Host} (user : User.t) (now : Z) (raw : jsstring) :
  (exists o, validate user now raw = Some o)
  /\ (forall e, JSON_parse raw = Throw e ->
        validate user now raw = Some (Rejected MalformedPayload))
  /\ (forall payload k,
        JSON_parse raw = Ok payload -> In k required_keys ->
        (forall v, get_field payload k = Ok v -> ToBoolean v = false) ->
        validate user now raw = Some (Rejected MalformedPayload))
  /\ (forall payload,
        validate user now raw = Some (Accepted payload) ->
        JSON_parse raw = Ok payload
        /\ forall k, In k required_keys ->
             exists v, get_field payload k = Ok (Some v)
                       /\ ToBoolean (Some v) = true).
Proof.
  split; [apply validate_total|]. split; [|split].
  - intros e P. apply (validate_decode_throw user now raw e).
    now apply decode_JSON_parse.
  - intros payload k P I F.
    destruct (decode_falsy raw payload k P I F) as [e D].
    now apply (validate_decode_throw user now raw e).
  - intros payload A. apply decode_ok. now apply (validate_accepted user now).
Qed.

(** The scenario of the specification: the text [not-json] is rejected as
    malformed. *)
Lemma validate_typed_witness :
  validate (H := IsoUtcHost) ana new_year_2030 (str "not-json")
  = Some (Rejected MalformedPayload).
Proof.
  apply (proj1 (proj2 (validate_typed (H := IsoUtcHost) ana new_year_2030
                         (str "not-json"))) SyntaxError).
  vm_compute. reflexivity.
Defined.

(** C5, as stated, fails: the code of a credential whose [expiresAt] is
    the text [never], which is no date, is not rejected: the checkpoint of
    its tenant accepts it. *)
Lemma unreadable_expiry_accepted :
  @Date_parse IsoUtcHost (QRPayload.expiresAt undated_invitation) = None
  /\ validate (H := IsoUtcHost) ana new_year_2030
       (encode (H := IsoUtcHost) undated_invitation)
     = Some (Accepted (QRPayload.to_json undated_invitation)).
Proof. split; vm_compute; reflexivity. Qed.

(** ** C6: a batch of invitations *)

Lemma map_seq_offset (T : Type) (f : nat -> T) (d n : nat) :
  map (fun i => f (d + i)%nat) (seq 0 n) = map f (seq d n).
Proof.
  revert d. induction n as [|n IH]; intro d; [reflexivity|].
  cbn [seq map]. rewrite Nat.add_0_r. f_equal.
  rewrite <- seq_shift, map_map, <- (IH (S d)).
  apply map_ext. intro i. now rewrite Nat.add_succ_comm.
Qed.

(** C6.  For every count of at least one, a batch issued by the generator
    that [App] mounts holds exactly that many payloads, whose codes are
    their encodings; their identifiers are pairwise distinct, given that the
    identifiers drawn from [crypto.randomUUID()] are; and all carry the
    tenant, name and unit of the selected resident and the same expiry,
    which is the one supplied or else the issuance time plus 24 hours. *)
Theorem issue_batch {H : Host} (st : Store) (user : User.t)
    (gen : QRGeneratorState) (w : World)
    (payloads : list QRPayload.t) (codes : list jsstring) :
  1 <= quantity gen ->
  NoDup (map (uuid_source w) (seq (uuids_drawn w) (Z.to_nat (quantity gen)))) ->
  fst (App_issue st user gen w) = Some (payloads, codes) ->
  Z.of_nat (length payloads) = quantity gen
  /\ codes = map encode payloads
  /\ NoDup (map QRPayload.id payloads)
  /\ exists host,
       In host (residents st)
       /\ Resident.id host = selectedResidentId gen
       /\ Forall (fun p =>
                    QRPayload.tenantId p = Resident.tenantId host
                    /\ QRPayload.residentName p = Resident.name host
                    /\ QRPayload.residentUnit p = Resident.unit host
                    /\ QRPayload.expiresAt p =
                       if nonempty (expirationDate gen) then expirationDate gen
                       else Date_toISOString
                              (clock_source w (clock_reads w)
                               + 24 * 60 * 60 * 1000))
                payloads.
Proof.
  intros Q D. unfold App_issue. rewrite issue_spec.
  destruct (selected_resident _ gen) as [host|] eqn:S; [|discriminate].
  cbv zeta. destruct (expiry_available gen w); [|discriminate].
  cbn [fst]. intro E. injection E as <- <-.
  apply selected_resident_spec in S as [I Hid].
  apply tenantResidents_spec in I as [I T].
  set (w1 := if nonempty (expirationDate gen) then w else advance w 0 1).
  assert (uuid_source w1 = uuid_source w /\ uuids_drawn w1 = uuids_drawn w) as [U1 U2].
  { unfold w1. destruct (nonempty (expirationDate gen)); [now split|].
    unfold advance. cbn [uuid_source uuids_drawn]. now rewrite Nat.add_0_r. }
  split; [|split; [reflexivity|split]].
  - rewrite length_map, length_seq. lia.
  - rewrite map_map. cbn [nth_payload QRPayload.id]. rewrite U1, U2.
    now rewrite (map_seq_offset _ (uuid_source w)).
  - exists host. split; [assumption|]. split; [assumption|].
    apply Forall_forall. intros p Ip. apply in_map_iff in Ip as (i & <- & _).
    cbn [nth_payload QRPayload.tenantId QRPayload.residentName
         QRPayload.residentUnit QRPayload.expiresAt].
    now rewrite T.
Qed.

(** The scenario of the specification: five invitations. *)
Lemma issue_batch_witness :
  Z.of_nat (length sample_payloads) = 5
  /\ sample_codes = map (encode (H := IsoUtcHost)) sample_payloads
  /\ NoDup (map QRPayload.id sample_payloads)
  /\ exists host,
       In host (residents sample_store)
       /\ Resident.id host = selectedResidentId (sample_generator 5)
       /\ Forall (fun p =>
                    QRPayload.tenantId p = Resident.tenantId host
                    /\ QRPayload.residentName p = Resident.name host
                    /\ QRPayload.residentUnit p = Resident.unit host
                    /\ QRPayload.expiresAt p =
                       if nonempty (expirationDate (sample_generator 5))
                       then expirationDate (sample_generator 5)
                       else Date_toISOString
                              (clock_source sample_world (clock_reads sample_world)
                               + 24 * 60 * 60 * 1000))
                sample_payloads.
Proof.
  apply (issue_batch (H := IsoUtcHost) sample_store carlos (sample_generator 5)
           sample_world sample_payloads sample_codes).
  - vm_compute. discriminate.
  - vm_compute. repeat constructor; cbn [In]; intuition discriminate.
  - vm_compute. reflexivity.
Defined.

(** ** C7: sweeping twice *)

(** C7.  A second sweep at the same [now] removes nothing and leaves the
    store as the first one left it; and whenever a sweep removes nothing,
    the updater hands back to React the very array it was given and the
    store is the one it was, with no further write to [localStorage]. *)
Theorem sweep_idempotent {H : Host} (now : Z) (st : Store) :
  checkExpiration now (checkExpiration now st) = checkExpiration now st
  /\ removedCount now (checkExpiration now st) = O
  /\ (removedCount now st = O ->
      expiration_updater now (residents st) = Same
      /\ checkExpiration now st = st).
Proof.
  split; [apply checkExpiration_twice|]. split.
  - unfold removedCount. rewrite checkExpiration_twice. apply Nat.sub_diag.
  - apply checkExpiration_nothing_removed.
Qed.

Lemma sweep_idempotent_witness :
  removedCount (H := IsoUtcHost) new_year_2030
    (checkExpiration (H := IsoUtcHost) new_year_2030 sample_store) = O
  /\ checkExpiration (H := IsoUtcHost) new_year_2030
       (checkExpiration (H := IsoUtcHost) new_year_2030 sample_store)
     = checkExpiration (H := IsoUtcHost) new_year_2030 sample_store.
Proof.
  split.
  - apply (proj1 (proj2 (sweep_idempotent (H := IsoUtcHost) new_year_2030
                           sample_store))).
  - apply (proj2 (proj2 (sweep_idempotent (H := IsoUtcHost) new_year_2030
                           (checkExpiration (H := IsoUtcHost) new_year_2030
                              sample_store)))).
    vm_compute. reflexivity.
Defined.

(** ** C8: the quantity is not bounded *)

(** C8.  The generator does not keep to the bound that its quantity field
    declares ([min] 1, [max] 20): with 21 typed into the field and a
    resident selected, [handleGenerate] throws nothing and stores 21
    codes. *)
Lemma twenty_one_invitations :
  quantity (onQuantityChange (Some 21) (sample_generator 1)) = 21
  /\ (exists batch,
        fst (handleGenerate_body (H := IsoUtcHost) carlos (residents sample_store)
               (onQuantityChange (Some 21) (sample_generator 1)) sample_world)
        = Ok (Some batch))
  /\ length
       (generatedCodes
          (fst (handleGenerate (H := IsoUtcHost) carlos (residents sample_store)
                  (onQuantityChange (Some 21) (sample_generator 1))
                  sample_world)))
     = 21%nat.
Proof.
  split; [reflexivity|]. split; [|vm_compute; reflexivity].
  eexists. vm_compute. reflexivity.
Qed.

(** ** C9: a refused camera *)

(** C9, as amended.  From every state, a call of [startScan] whose request
    for the camera is refused first commits the status [scanning], which
    shows no outcome, and then, when the promise rejects, the status
    [invalid] with the outcome [Rejected AcquisitionFailed].  Only where the
    request throws at once is the rejection the first state committed. *)
Theorem startScan_refused (st : QRValidatorState) :
  map scanStatus (startScan stream_refused st) = [scanning; invalid]
  /\ map outcome (startScan stream_refused st)
     = [None; Some (Rejected AcquisitionFailed)]
  /\ map outcome (startScan media_unavailable st)
     = [Some (Rejected AcquisitionFailed)].
Proof. repeat split. Qed.

(** C9, as stated, fails: on the way from idle to the rejection, the
    session is in the scanning state while the refused request is
    pending. *)
Lemma refused_scan_enters_scanning :
  scanStatus idle_state = idle
  /\ In scanning (map scanStatus (startScan stream_refused idle_state))
  /\ outcome (last (startScan stream_refused idle_state) idle_state)
     = Some (Rejected AcquisitionFailed).
Proof. split; [reflexivity|]. split; [now left|reflexivity]. Qed.

(** ** C10: the sweep is a filter on the whole store *)

(** C10.  A sweep is a filter of the store: the records it retains are
    records of the store, unchanged and in their order; whether a record is
    retained does not depend on its tenant; and the sweep of the shared
    store gives every tenant the sweep of its own records. *)
Theorem sweep_is_filter {H : Host} (now : Z) (st : Store) :
  subsequence (residents (checkExpiration now st)) (residents st)
  /\ residents (checkExpiration now st) = filter (retained now) (residents st)
  /\ (forall r t, retained now (with_tenant t r) = retained now r)
  /\ (forall u,
        tenantResidents (residents (checkExpiration now st)) (Some u)
        = filter (retained now) (tenantResidents (residents st) (Some u))).
Proof.
  rewrite residents_checkExpiration.
  split; [apply subsequence_filter|]. split; [reflexivity|].
  split; [intros; apply retained_with_tenant|].
  intro u. unfold tenantResidents. apply filter_comm.
Qed.

(* ================================================================== *)
(** * Part IV: further properties of the code                          *)
(* ================================================================== *)

Section ValidatorSound.
Context {H : Host}.

Lemma decode_object (raw : jsstring) (payload : json) :
  decode raw = Ok payload -> exists props, payload = JObject props.
Proof.
  intro D. apply decode_ok in D as [_ C].
  destruct (C (str "tenantId")) as (v & G & _); [now left|].
  destruct payload; try discriminate. now eexists.
Qed.

(** What the [try] block of [validateQR] does once the structure has been
    checked. *)
Lemma validate_cases (user : User.t) (now : Z) (raw : jsstring) :
  validate user now raw =
  match decode raw with
  | Throw _ => Some (Rejected MalformedPayload)
  | Ok payload =>
      match get_field payload (str "tenantId"), get_field payload (str "expiresAt") with
      | Ok tenantId, Ok expiresAt =>
          if strict_equal_string tenantId (User.tenantId user) then
            match new_Date expiresAt with
            | Ok (Some t) =>
                if t <? now then Some (Rejected (Expired t))
                else Some (Accepted payload)
            | Ok None => Some (Accepted payload)
            | Throw _ => Some (Rejected MalformedPayload)
            end
          else
            match match tenantId with
                  | Some v => ToString v
                  | None => Ok (str "undefined")
                  end with
            | Ok found => Some (Rejected (TenantMismatch found))
            | Throw _ => Some (Rejected MalformedPayload)
            end
      | _, _ => Some (Rejected MalformedPayload)
      end
  end.
Proof.
  unfold validate, tick_found, validateQR, validateQR_try.
  destruct (decode raw) as [p|]; cbn [rbind]; [|reflexivity].
  destruct (get_field p (str "tenantId")) as [t|]; cbn [rbind]; [|reflexivity].
  destruct (get_field p (str "expiresAt")) as [x|]; cbn [rbind]; [|reflexivity].
  destruct (strict_equal_string t (User.tenantId user)); cbn [negb].
  - destruct (new_Date x) as [[d|]|]; cbn [rbind]; try reflexivity.
    destruct (d <? now); reflexivity.
  - destruct (match t with Some v => ToString v | None => Ok (str "undefined") end);
      reflexivity.
Qed.

Lemma strict_equal_string_spec (v : option json) (s : jsstring) :
  strict_equal_string v s = true <-> v = Some (JString s).
Proof.
  unfold strict_equal_string. destruct v as [[]|]; split; try discriminate.
  - intro E. apply jsstring_eqb_eq in E. now subst.
  - intro E. injection E as ->. apply jsstring_eqb_refl.
Qed.

End ValidatorSound.

(** An accepted payload has the tenant of the user. *)
Lemma accepted_tenant {H : Host} (user : User.t) (now : Z) (raw : jsstring)
    (payload : json) :
  validate user now raw = Some (Accepted payload) ->
  get_field payload (str "tenantId") = Ok (Some (JString (User.tenantId user))).
Proof.
  rewrite validate_cases.
  destruct (decode raw) as [p|e]; [|discriminate].
  destruct (get_field p (str "tenantId")) as [tv|] eqn:Gt; [|discriminate].
  destruct (get_field p (str "expiresAt")) as [xv|]; [|discriminate].
  destruct (strict_equal_string tv (User.tenantId user)) eqn:S.
  - apply strict_equal_string_spec in S. subst tv.
    destruct (new_Date xv) as [[d|]|]; [| |discriminate].
    + destruct (d <? now); [discriminate|]. intro E. injection E as <-. exact Gt.
    + intro E. injection E as <-. exact Gt.
  - destruct (match tv with Some v => ToString v | None => Ok (str "undefined") end);
      discriminate.
Qed.

(** X1.  Whatever text is scanned, an accepted payload is the parsed text,
    its [tenantId] is the very string that is the tenant of the validating
    user, and its [expiresAt] does not make a date before [now]; a
    rejection for the tenant reports the text of a [tenantId] that is not
    that string; a rejection for expiry happens only for the user's own
    tenant, with a date before [now]; and no scanned text is answered with
    the camera failure. *)
Theorem validate_sound {H : Host} (user : User.t) (now : Z) (raw : jsstring) :
  (forall payload,
     validate user now raw = Some (Accepted payload) ->
     decode raw = Ok payload
     /\ get_field payload (str "tenantId")
        = Ok (Some (JString (User.tenantId user)))
     /\ exists expiresAt d,
          get_field payload (str "expiresAt") = Ok expiresAt
          /\ new_Date expiresAt = Ok d
          /\ forall t, d = Some t -> now <= t)
  /\ (forall found,
        validate user now raw = Some (Rejected (TenantMismatch found)) ->
        exists payload tenantId,
          decode raw = Ok payload
          /\ get_field payload (str "tenantId") = Ok (Some tenantId)
          /\ tenantId <> JString (User.tenantId user)
          /\ ToString tenantId = Ok found)
  /\ (forall t,
        validate user now raw = Some (Rejected (Expired t)) ->
        exists payload expiresAt,
          decode raw = Ok payload
          /\ get_field payload (str "tenantId")
             = Ok (Some (JString (User.tenantId user)))
          /\ get_field payload (str "expiresAt") = Ok expiresAt
          /\ new_Date expiresAt = Ok (Some t)
          /\ t < now)
  /\ validate user now raw <> Some (Rejected AcquisitionFailed).
Proof.
  rewrite validate_cases.
  destruct (decode raw) as [p|e] eqn:D.
  2:{ split; [|split; [|split]]; intros; discriminate. }
  pose proof (decode_ok raw p D) as [_ C].
  destruct (C (str "tenantId")) as (tv & Gt & _); [now left|].
  destruct (C (str "expiresAt")) as (xv & Gx & _); [right; now left|].
  rewrite Gt, Gx.
  destruct (strict_equal_string (Some tv) (User.tenantId user)) eqn:S.
  - apply strict_equal_string_spec in S. injection S as ->.
    destruct (new_Date (Some xv)) as [[d|]|] eqn:N.
    + destruct (Z.ltb_spec d now) as [L|L];
        (split; [|split; [|split]]); try (intros; discriminate).
      * intros t E. injection E as <-. exists p, (Some xv). now repeat split.
      * intros q E. injection E as <-. split; [reflexivity|]. split; [assumption|].
        exists (Some xv), (Some d). split; [assumption|]. split; [assumption|].
        intros t E. now injection E as <-.
    + (split; [|split; [|split]]); try (intros; discriminate).
      intros q E. injection E as <-. split; [reflexivity|]. split; [assumption|].
      exists (Some xv), None. split; [assumption|]. split; [assumption|].
      discriminate.
    + (split; [|split; [|split]]); intros; discriminate.
  - destruct (ToString tv) as [found|] eqn:T;
      (split; [|split; [|split]]); try (intros; discriminate).
    intros f E. injection E as <-. exists p, tv.
    split; [reflexivity|]. split; [assumption|]. split; [|assumption].
    intros ->. apply not_true_iff_false in S. apply S.
    now apply strict_equal_string_spec.
Qed.

(** X2.  The texts rejected as malformed are exactly those on which the
    [try] block throws: the structure check fails (the text is not JSON, or
    a required field is missing or falsy), or the [tenantId] is not the
    user's tenant and has no text to put in the message, or the tenant is
    the user's and [expiresAt] has no primitive value to make a date of. *)
Theorem validate_malformed {H : Host} (user : User.t) (now : Z) (raw : jsstring) :
  validate user now raw = Some (Rejected MalformedPayload) <->
  (exists e, decode raw = Throw e)
  \/ (exists payload tenantId e,
        decode raw = Ok payload
        /\ get_field payload (str "tenantId") = Ok (Some tenantId)
        /\ tenantId <> JString (User.tenantId user)
        /\ ToString tenantId = Throw e)
  \/ (exists payload expiresAt e,
        decode raw = Ok payload
        /\ get_field payload (str "tenantId")
           = Ok (Some (JString (User.tenantId user)))
        /\ get_field payload (str "expiresAt") = Ok expiresAt
        /\ new_Date expiresAt = Throw e).
Proof.
  rewrite validate_cases.
  destruct (decode raw) as [p|e] eqn:D.
  2:{ split; [intros _; left; now exists e|reflexivity]. }
  pose proof (decode_ok raw p D) as [_ C].
  destruct (C (str "tenantId")) as (tv & Gt & _); [now left|].
  destruct (C (str "expiresAt")) as (xv & Gx & _); [right; now left|].
  rewrite Gt, Gx.
  destruct (strict_equal_string (Some tv) (User.tenantId user)) eqn:S.
  - apply strict_equal_string_spec in S. injection S as ->.
    destruct (new_Date (Some xv)) as [[d|]|e] eqn:N.
    + split.
      * destruct (d <? now); discriminate.
      * intros [[e E]|[(q & t & e & E & G & Ne & _)|(q & x & e & E & _ & G & N')]].
        -- discriminate.
        -- injection E as <-. rewrite Gt in G. injection G as <-. now destruct Ne.
        -- injection E as <-. rewrite Gx in G. injection G as <-.
           rewrite N in N'. discriminate.
    + split; [discriminate|].
      intros [[e E]|[(q & t & e & E & G & Ne & _)|(q & x & e & E & _ & G & N')]].
      * discriminate.
      * injection E as <-. rewrite Gt in G. injection G as <-. now destruct Ne.
      * injection E as <-. rewrite Gx in G. injection G as <-.
        rewrite N in N'. discriminate.
    + split; [|reflexivity]. intros _. right. right. exists p, (Some xv), e.
      now repeat split.
  - assert (tv <> JString (User.tenantId user)) as Ne.
    { intros ->. apply not_true_iff_false in S. apply S.
      now apply strict_equal_string_spec. }
    destruct (ToString tv) as [found|e] eqn:T.
    + split; [discriminate|].
      intros [[e E]|[(q & t & e & E & G & _ & T')|(q & x & e & E & G & _)]].
      * discriminate.
      * injection E as <-. rewrite Gt in G. injection G as <-.
        rewrite T in T'. discriminate.
      * injection E as <-. rewrite Gt in G. injection G as ->. now destruct Ne.
    + split; [|reflexivity]. intros _. right. left. exists p, tv, e.
      now repeat split.
Qed.

Section ScanSession.
Context {H : Host}.
Variable user : User.t.

Lemma resetScanner_idle (st : QRValidatorState) : resetScanner st = idle_state.
Proof. reflexivity. Qed.

Lemma checked_validateQR (now : Z) (raw : jsstring) (st : QRValidatorState) :
  checked user (validateQR user now raw st).
Proof.
  pose proof (outcome_validateQR user now raw st) as O.
  unfold checked.
  destruct (validate_total user now raw) as [o V]. rewrite V in O.
  unfold validateQR, validateQR_try in *.
  destruct (decode raw) as [p|]; cbn [rbind] in *.
  2:{ cbn. eexists. reflexivity. }
  destruct (get_field p (str "tenantId")) as [t|]; cbn [rbind] in *.
  2:{ cbn. eexists. reflexivity. }
  destruct (get_field p (str "expiresAt")) as [x|]; cbn [rbind] in *.
  2:{ cbn. eexists. reflexivity. }
  destruct (negb (strict_equal_string t (User.tenantId user))).
  - destruct (match t with Some v => ToString v | None => Ok (str "undefined") end);
      cbn [rbind] in *; cbn; eexists; reflexivity.
  - destruct (new_Date x) as [[d|]|]; cbn [rbind] in *.
    + destruct (d <? now).
      * cbn. eexists. reflexivity.
      * cbn in O. cbn. exists now, raw, p. split; [reflexivity|]. now rewrite V, <- O.
    + cbn in O. cbn. exists now, raw, p. split; [reflexivity|]. now rewrite V, <- O.
    + cbn. eexists. reflexivity.
Qed.

Lemma checked_step (st : QRValidatorState) (ev : ScanEvent) :
  checked user st -> checked user (scan_step user st ev).
Proof.
  intro C. destruct ev as [|r|now data|]; cbn [scan_step].
  - cbn. now split.
  - destruct r; cbn [startScan_resume]; try (cbn; eexists; reflexivity).
    unfold checked in *. destruct (scanStatus st) eqn:E; rewrite ?E; assumption.
  - apply checked_validateQR.
  - cbn. reflexivity.
Qed.

Lemma checked_session (events : list ScanEvent) (st : QRValidatorState) :
  checked user st -> checked user (fold_left (scan_step user) events st).
Proof.
  revert st. induction events as [|ev events IH]; intros st C; [assumption|].
  cbn [fold_left]. apply IH. now apply checked_step.
Qed.

End ScanSession.

(** X3.  Whatever happens to a validator, in whatever order (presses of
    the scan and reset buttons, the camera being granted or refused, codes
    being detected), a state with the status [valid] holds a payload that
    [validateQR] accepted for the user, so it is of the user's tenant; a
    state with the status [invalid] shows the reason of a rejection; and a
    state with the status [idle] is the initial state, in which the camera
    is off and nothing is shown. *)
Theorem scan_session_checked {H : Host} (user : User.t) (events : list ScanEvent) :
  (scanStatus (scan_session user events) = valid ->
   exists now raw payload,
     scannedData (scan_session user events) = Some payload
     /\ validate user now raw = Some (Accepted payload)
     /\ get_field payload (str "tenantId")
        = Ok (Some (JString (User.tenantId user))))
  /\ (scanStatus (scan_session user events) = invalid ->
      exists reason,
        outcome (scan_session user events) = Some (Rejected reason))
  /\ (scanStatus (scan_session user events) = idle ->
      scan_session user events = idle_state)
  /\ (scanStatus (scan_session user events) = scanning ->
      outcome (scan_session user events) = None).
Proof.
  assert (checked user (scan_session user events)) as C.
  { apply checked_session. reflexivity. }
  unfold checked in C.
  destruct (scanStatus (scan_session user events)) eqn:E;
    (split; [|split; [|split]]); try discriminate; intros _; try assumption.
  - unfold outcome. now rewrite E.
  - destruct C as (now & raw & p & S & V). exists now, raw, p.
    split; [assumption|]. split; [assumption|].
    now apply (accepted_tenant user now raw).
Qed.

(** X4.  The panel of an accepted payload reads a property of
    [createdBy], which the structure check does not ask for: for an accepted
    payload the reads throw exactly when [createdBy] is missing or [null],
    and then it is a [TypeError]; for the object of a credential, as
    [handleGenerate] builds it, they succeed. *)
Theorem granted_panel_reads {H : Host} (user : User.t) (now : Z)
    (raw : jsstring) (payload : json) :
  validate user now raw = Some (Accepted payload) ->
  ((exists e, granted_panel payload = Throw e) <->
   get_field payload (str "createdBy") = Ok None
   \/ get_field payload (str "createdBy") = Ok (Some JNull))
  /\ (forall e, granted_panel payload = Throw e -> e = TypeError)
  /\ (forall c, payload = QRPayload.to_json c ->
        granted_panel payload
        = Ok [Some (JString (QRPayload.visitorName c));
              Some (JString (QRPayload.residentName c));
              Some (JString (QRPayload.residentUnit c));
              Some (JString (CreatedBy.name (QRPayload.createdBy c)));
              Some (JString (CreatedBy.role (QRPayload.createdBy c)));
              Some (JString (QRPayload.expiresAt c))]).
Proof.
  intro V. pose proof (validate_accepted user now raw payload V) as D.
  apply decode_object in D as [props ->].
  unfold granted_panel. cbn [get_field rbind].
  split; [|split].
  - destruct (own_property props (str "createdBy")) as [[]|]; cbn;
      split; try (intros [? ?]; discriminate);
      try (intros [?|?]; discriminate);
      try (intros _; eexists; reflexivity); try (intros _; now left);
      try (intros _; now right).
  - intros e. destruct (own_property props (str "createdBy")) as [[]|]; cbn;
      intro E; try discriminate; now injection E.
  - intros c E. injection E as ->. reflexivity.
Qed.

Lemma granted_panel_reads_witness :
  validate (H := IsoUtcHost) ana 1700000000000
    (JSON_stringify (H := IsoUtcHost) bare_payload)
  = Some (Accepted bare_payload)
  /\ granted_panel bare_payload = Throw TypeError.
Proof.
  assert (validate (H := IsoUtcHost) ana 1700000000000
            (JSON_stringify (H := IsoUtcHost) bare_payload)
          = Some (Accepted bare_payload)) as V
    by (vm_compute; reflexivity).
  split; [exact V|].
  destruct (proj2 (proj1 (granted_panel_reads (H := IsoUtcHost) _ _ _ _ V))
              (or_introl eq_refl)) as [e E].
  pose proof (proj1 (proj2 (granted_panel_reads (H := IsoUtcHost) _ _ _ _ V)) e E).
  congruence.
Defined.


Lemma Role_eqb_eq (a b : Role) : Role_eqb a b = true <-> a = b.
Proof. destruct a, b; split; intro E; try reflexivity; discriminate. Qed.

Lemma string_is_eq (s : jsstring) (o : option jsstring) :
  string_is s o = true <-> o = Some s.
Proof.
  unfold string_is. destruct o as [t|]; split; try discriminate.
  - intro E. apply jsstring_eqb_eq in E. now subst.
  - intro E. injection E as ->. apply jsstring_eqb_refl.
Qed.

(** In a list whose identifiers are pairwise distinct, looking a record up
    by its identifier finds that record. *)
Lemma find_by_id (residents : list Resident.t) (r : Resident.t) :
  NoDup (map Resident.id residents) -> In r residents ->
  find (fun x => jsstring_eqb (Resident.id x) (Resident.id r)) residents = Some r.
Proof.
  induction residents as [|x l IH]; [intros _ []|].
  cbn [map find]. intros D I. inversion D as [|? ? N D']; subst.
  destruct I as [->|I].
  - now rewrite jsstring_eqb_refl.
  - destruct (jsstring_eqb (Resident.id x) (Resident.id r)) eqn:E.
    + apply jsstring_eqb_eq in E. destruct N. rewrite E. now apply in_map.
    + now apply IH.
Qed.





Lemma nonempty_app_cons (a b : jsstring) (c : code_unit) :
  nonempty (a ++ c :: b) = true.
Proof. now destruct a. Qed.

Lemma Date_toISOString_nonempty (t : Z) : nonempty (Date_toISOString t) = true.
Proof.
  unfold Date_toISOString. destruct (civil_from_days (t / msPerDay)) as [[y m] d].
  apply nonempty_app_cons.
Qed.

Lemma batch_expiration_nonempty (gen : QRGeneratorState) (w : World) :
  nonempty (batch_expiration gen w) = true.
Proof.
  unfold batch_expiration. destruct (nonempty (expirationDate gen)) eqn:E;
    [assumption|apply Date_toISOString_nonempty].
Qed.

(** X6.  Every code of a batch that [handleGenerate] issues, shown to the
    validator of a user at [now]: it is rejected for the tenant, whatever
    [now] is, when the user is of another tenant than the issuer; for a
    user of the issuer's tenant it is accepted as long as [now] is not
    after the expiry of the batch, and rejected as expired after.  This
    holds for an issuer whose [tenantId] is not empty; the codes of an
    issuer with an empty [tenantId] are rejected as malformed by every
    validator. *)
Theorem issued_code_validates {H : Host} (issuer checker : User.t)
    (residents : list Resident.t) (gen : QRGeneratorState) (w : World)
    (now : Z) (payloads : list QRPayload.t) (codes : list jsstring)
    (code : jsstring) :
  (forall n, (n <= clock_reads w + Z.to_nat (quantity gen))%nat ->
             is_safe_integer (clock_source w n) = true) ->
  fst (issue issuer residents gen w) = Some (payloads, codes) ->
  In code codes ->
  exists p,
    In p payloads /\ code = encode p
    /\ QRPayload.expiresAt p = batch_expiration gen w
    /\ (User.tenantId issuer = [] ->
        validate checker now code = Some (Rejected MalformedPayload))
    /\ (User.tenantId issuer <> [] ->
        validate checker now code =
        if jsstring_eqb (User.tenantId issuer) (User.tenantId checker) then
          match Date_parse (batch_expiration gen w) with
          | Some e =>
              if e <? now then Some (Rejected (Expired e))
              else Some (Accepted (QRPayload.to_json p))
          | None => Some (Accepted (QRPayload.to_json p))
          end
        else Some (Rejected (TenantMismatch (User.tenantId issuer)))).
Proof.
  intros C. rewrite issue_spec.
  destruct (selected_resident residents gen) as [host|]; [|discriminate].
  cbv zeta. destruct (expiry_available gen w); [|discriminate].
  cbn [fst]. intro E. injection E as <- <-. intro I.
  apply in_map_iff in I as (p & <- & Ip). exists p.
  split; [assumption|]. split; [reflexivity|].
  apply in_map_iff in Ip as (i & <- & Ii). apply in_seq in Ii.
  set (w1 := if nonempty (expirationDate gen) then w else advance w 0 1).
  assert (is_safe_integer
            (QRPayload.generatedAt
               (nth_payload issuer host (batch_expiration gen w) w1 i)) = true) as S.
  { cbn [nth_payload QRPayload.generatedAt]. unfold w1.
    destruct (nonempty (expirationDate gen)); apply C;
      cbn [advance clock_reads]; lia. }
  split; [reflexivity|]. split.
  - intro T. apply (validate_decode_throw checker now _ UserError).
    apply decode_encode_incomplete; [assumption|].
    unfold required_fields_present.
    cbn [nth_payload QRPayload.tenantId]. now rewrite T.
  - intro T. rewrite validate_encode.
    + reflexivity.
    + unfold valid_credential, required_fields_present. rewrite S.
      cbn [nth_payload QRPayload.tenantId QRPayload.expiresAt
           QRPayload.visitorName].
      rewrite batch_expiration_nonempty.
      destruct (User.tenantId issuer); [now destruct T|reflexivity].
Qed.

Lemma issued_code_validates_witness :
  exists p,
    In p sample_payloads
    /\ nth 0 sample_codes [] = encode (H := IsoUtcHost) p
    /\ QRPayload.expiresAt p = batch_expiration (sample_generator 5) sample_world
    /\ (User.tenantId carlos = [] ->
        validate (H := IsoUtcHost) ana 1700000000000 (nth 0 sample_codes [])
        = Some (Rejected MalformedPayload))
    /\ (User.tenantId carlos <> [] ->
        validate (H := IsoUtcHost) ana 1700000000000 (nth 0 sample_codes []) =
        if jsstring_eqb (User.tenantId carlos) (User.tenantId ana) then
          match @Date_parse IsoUtcHost
                  (batch_expiration (sample_generator 5) sample_world) with
          | Some e =>
              if e <? 1700000000000 then Some (Rejected (Expired e))
              else Some (Accepted (QRPayload.to_json p))
          | None => Some (Accepted (QRPayload.to_json p))
          end
        else Some (Rejected (TenantMismatch (User.tenantId carlos)))).
Proof.
  apply (issued_code_validates (H := IsoUtcHost) carlos ana
           (tenantResidents (residents sample_store) (Some carlos))
           (sample_generator 5) sample_world 1700000000000
           sample_payloads sample_codes (nth 0 sample_codes [])).
  - intros n L. unfold is_safe_integer, sample_world. cbn [clock_source].
    cbn in L. apply andb_true_iff. split; apply Z.leb_le; lia.
  - vm_compute. reflexivity.
  - vm_compute. now left.
Defined.



(** X8.  The menu and the components agree on the roles: the tab of the
    generator is on the menu of exactly the users to whom [QRGenerator]
    does not deny access, the tab of the validator on the menu of exactly
    the users to whom [QRValidator] does not; the three other tabs are on
    every menu. *)
Theorem menu_matches_access (user : User.t) :
  (In (str "generate-qr") (Sidebar_tabs user) <-> QRGenerator_granted user = true)
  /\ (In (str "validate-qr") (Sidebar_tabs user) <-> QRValidator_granted user = true)
  /\ In (str "dashboard") (Sidebar_tabs user)
  /\ In (str "users") (Sidebar_tabs user)
  /\ In (str "profile") (Sidebar_tabs user).
Proof.
  unfold Sidebar_tabs, QRGenerator_granted, QRValidator_granted, menuItems.
  destruct (User.role user); cbn; intuition congruence.
Qed.


Section Sweeps.
Context {H : Host}.

Lemma retained_earlier (now now' : Z) (r : Resident.t) :
  now <= now' -> retained now' r = true -> retained now r = true.
Proof.
  unfold retained, expires_after. intros L.
  destruct (expiration_unset r); [reflexivity|].
  destruct (expiration_unreadable r); [reflexivity|]. cbn [orb].
  destruct (expiration_time r) as [t|]; [|discriminate].
  intro E. apply Z.ltb_lt in E. apply Z.ltb_lt. lia.
Qed.

Lemma residents_sweeps (nows : list Z) :
  forall st,
    residents (sweeps nows st)
    = filter (fun r => forallb (fun now => retained now r) nows) (residents st).
Proof.
  unfold sweeps. induction nows as [|now nows IH]; intro st; cbn [fold_left forallb].
  - symmetry. apply filter_all. induction (residents st); auto.
  - rewrite IH, residents_checkExpiration.
    induction (residents st) as [|r l IHl]; [reflexivity|]. cbn [filter].
    destruct (retained now r) eqn:E; cbn [filter andb]; rewrite ?E; cbn [andb].
    + destruct (forallb _ nows); now rewrite IHl.
    + assumption.
Qed.

Lemma sweep_writes (now : Z) (st : Store) :
  (length (setItem_log (checkExpiration now st))
   + length (residents (checkExpiration now st))
   <= length (setItem_log st) + length (residents st))%nat.
Proof.
  rewrite checkExpiration_spec.
  destruct (existsb _ (residents st)) eqn:E; [|lia].
  apply (filter_shorter _ (retained now)) in E.
  cbn [setItem_log residents length]. lia.
Qed.

Lemma sweeps_writes (nows : list Z) :
  forall st,
    (length (setItem_log (sweeps nows st)) + length (residents (sweeps nows st))
     <= length (setItem_log st) + length (residents st))%nat.
Proof.
  unfold sweeps. induction nows as [|now nows IH]; intro st; cbn [fold_left];
    [lia|].
  specialize (IH (checkExpiration now st)).
  pose proof (sweep_writes now st). lia.
Qed.

End Sweeps.

(** X9.  The runs of the sweep compose: after the runs at the instants
    [nows] the store holds the records that each of these runs retains, in
    their order; a run at an instant that is not before any of the earlier
    ones leaves what that run alone would leave, so the runs that a closed
    page missed change nothing once the page runs the sweep again; and the
    runs write to [localStorage] at most once for each record they
    remove. *)
Theorem sweeps_compose {H : Host} (nows : list Z) (st : Store) :
  residents (sweeps nows st)
  = filter (fun r => forallb (fun now => retained now r) nows) (residents st)
  /\ (forall last,
        Forall (fun now => now <= last) nows ->
        residents (checkExpiration last (sweeps nows st))
        = residents (checkExpiration last st))
  /\ (length (setItem_log (sweeps nows st)) - length (setItem_log st)
      <= length (residents st) - length (residents (sweeps nows st)))%nat.
Proof.
  split; [apply residents_sweeps|]. split.
  - intros last F. rewrite !residents_checkExpiration, residents_sweeps.
    induction (residents st) as [|r l IH]; [reflexivity|]. cbn [filter].
    destruct (retained last r) eqn:E.
    + assert (forallb (fun now => retained now r) nows = true) as ->.
      { apply forallb_forall. intros now I.
        apply (retained_earlier now last); [|assumption].
        now apply (proj1 (Forall_forall _ _) F). }
      cbn [filter]. now rewrite E, IH.
    + destruct (forallb _ nows); cbn [filter]; now rewrite ?E, IH.
  - pose proof (sweeps_writes nows st).
    rewrite residents_sweeps in *.
    pose proof (filter_length_le
                  (fun r => forallb (fun now => retained now r) nows)
                  (residents st)).
    lia.
Qed.

Section Storage.
Context {H : Host}.

Lemma printable_Resident_json (r : Resident.t) :
  printable (Resident_json r) = true.
Proof.
  unfold Resident_json.
  destruct (Resident.licensePlate r), (Resident.expirationDate r); reflexivity.
Qed.

Lemma printable_residents_json (rs : list Resident.t) :
  printable (residents_json rs) = true.
Proof.
  unfold residents_json. cbn [printable].
  induction rs as [|r rs IH]; [reflexivity|]. cbn [map forallb].
  now rewrite printable_Resident_json, IH.
Qed.

Lemma ResidentType_text_injective (a b : ResidentType) :
  ResidentType_text a = ResidentType_text b -> a = b.
Proof. destruct a, b; intro E; try reflexivity; discriminate. Qed.

Lemma ResidentStatus_text_injective (a b : ResidentStatus) :
  ResidentStatus_text a = ResidentStatus_text b -> a = b.
Proof. destruct a, b; intro E; try reflexivity; discriminate. Qed.

Lemma Resident_json_injective (r r' : Resident.t) :
  Resident_json r = Resident_json r' -> r = r'.
Proof.
  destruct r as [i t n u ty s lp ed], r' as [i' t' n' u' ty' s' lp' ed'].
  unfold Resident_json.
  cbn [Resident.id Resident.tenantId Resident.name Resident.unit Resident.type
       Resident.status Resident.licensePlate Resident.expirationDate].
  intro E. injection E as Ei Et En Eu Ety Es Eo.
  apply ResidentType_text_injective in Ety.
  apply ResidentStatus_text_injective in Es. subst.
  destruct lp, lp', ed, ed'; cbn in Eo; try discriminate;
    try (injection Eo as ?); subst; try reflexivity; discriminate.
Qed.

Lemma residents_json_injective (rs rs' : list Resident.t) :
  residents_json rs = residents_json rs' -> rs = rs'.
Proof.
  unfold residents_json. intro E. injection E as E. revert rs' E.
  induction rs as [|r rs IH]; intros [|r' rs'] E; try discriminate;
    [reflexivity|].
  cbn [map] in E.
  assert (Resident_json r = Resident_json r') as E1 by congruence.
  assert (map Resident_json rs = map Resident_json rs') as E2 by congruence.
  apply Resident_json_injective in E1. subst. f_equal. now apply IH.
Qed.

Lemma stringify_array_nonempty (items : list json) :
  exists c r, JSON_stringify (JArray items) = c :: r.
Proof. cbn [JSON_stringify]. now eexists; eexists. Qed.

End Storage.

(** X10.  What [useLocalStorage] writes it reads back: when the text that
    the effect wrote for a list of residents is the item found at the next
    mount, the initial state is the JSON image of that list, which
    determines the list; the same holds of every value whose numbers are
    integers of the safe range and whose objects list no key twice, in
    whatever order its objects list their keys.  An item that is absent,
    empty or not JSON, a storage that throws and a missing [window] all give
    the initial value of the caller: the initialiser does not throw. *)
Theorem residents_reload {H : Host} (rs : list Resident.t) (initialValue : json) :
  useLocalStorage_initial true
    (getItem_returns (Some (useLocalStorage_effect (residents_json rs))))
    initialValue
  = residents_json rs
  /\ (forall rs', residents_json rs' = residents_json rs -> rs' = rs)
  /\ (forall v, printable v = true ->
        JSON_stringify v <> [] ->
        useLocalStorage_initial true
          (getItem_returns (Some (useLocalStorage_effect v))) initialValue = v)
  /\ (forall text e, JSON_parse text = Throw e ->
        useLocalStorage_initial true (getItem_returns (Some text)) initialValue
        = initialValue)
  /\ useLocalStorage_initial true (getItem_returns (Some [])) initialValue
     = initialValue
  /\ useLocalStorage_initial true (getItem_returns None) initialValue
     = initialValue
  /\ useLocalStorage_initial true getItem_throws initialValue = initialValue
  /\ (forall stored, useLocalStorage_initial false stored initialValue
                     = initialValue).
Proof.
  assert (forall v, printable v = true -> JSON_stringify v <> [] ->
            useLocalStorage_initial true
              (getItem_returns (Some (useLocalStorage_effect v))) initialValue = v) as R.
  { intros v P N. unfold useLocalStorage_initial, useLocalStorage_effect.
    cbn [negb]. pose proof (JSON_parse_stringify v P) as E.
    destruct (JSON_stringify v) as [|c r]; [now destruct N|]. now rewrite E. }
  split; [|split; [|split; [|split; [|split; [|split; [|split]]]]]];
    try reflexivity.
  - apply R; [apply printable_residents_json|].
    destruct (stringify_array_nonempty (map Resident_json rs)) as (c & r & E).
    unfold residents_json. rewrite E. discriminate.
  - intros rs' E. now apply residents_json_injective.
  - exact R.
  - intros text e E. unfold useLocalStorage_initial. cbn [negb].
    destruct text as [|c r]; [reflexivity|]. now rewrite E.
Qed.


(** ** The residents screen *)

Lemma forallb_rev (T : Type) (p : T -> bool) (l : list T) :
  forallb p (rev l) = forallb p l.
Proof.
  induction l as [|x l IH]; [reflexivity|]. cbn [rev forallb].
  rewrite forallb_app, IH. cbn [forallb]. rewrite andb_true_r. apply andb_comm.
Qed.

Lemma String_trimStart_blank (s : jsstring) :
  forallb is_white_space (String_trimStart s) = forallb is_white_space s.
Proof.
  induction s as [|c r IH]; [reflexivity|]. cbn [String_trimStart].
  destruct (is_white_space c) eqn:E; [|reflexivity].
  cbn [forallb]. now rewrite E.
Qed.

Lemma String_trimStart_nil (s : jsstring) :
  String_trimStart s = [] <-> forallb is_white_space s = true.
Proof.
  induction s as [|c r IH]; [now split|]. cbn [String_trimStart forallb].
  destruct (is_white_space c) eqn:E; [exact IH|]. split; discriminate.
Qed.

(** Trimming leaves nothing exactly of the texts made of white space. *)
Lemma String_trim_nil (s : jsstring) :
  String_trim s = [] <-> forallb is_white_space s = true.
Proof.
  unfold String_trim.
  rewrite <- String_trimStart_blank, <- forallb_rev, <- String_trimStart_nil.
  split; [|now intros ->].
  intro E. apply (f_equal (@rev code_unit)) in E. now rewrite rev_involutive in E.
Qed.

Lemma nonempty_String_trim (s : jsstring) :
  nonempty (String_trim s) = negb (forallb is_white_space s).
Proof.
  destruct (forallb is_white_space s) eqn:E.
  - apply String_trim_nil in E. now rewrite E.
  - destruct (String_trim s) eqn:T; [|reflexivity].
    apply String_trim_nil in T. congruence.
Qed.

Section Residents.
Context {H : Host}.

Lemma handleAdd_blank (user : User.t) (ui : UserManagement.t) (st : Store)
    (w : World) :
  forallb is_white_space (NewResident.name (UserManagement.newResident ui))
  || forallb is_white_space (NewResident.unit (UserManagement.newResident ui))
  = true ->
  UserManagement.handleAdd user ui st w
  = (UserManagement.setFormError (str "Nombre y Unidad son obligatorios.") ui,
     st, w).
Proof.
  intro E. unfold UserManagement.handleAdd.
  rewrite !nonempty_String_trim, !negb_involutive, E. reflexivity.
Qed.

Lemma handleAdd_filled (user : User.t) (ui : UserManagement.t) (st : Store)
    (w : World) :
  forallb is_white_space (NewResident.name (UserManagement.newResident ui))
  || forallb is_white_space (NewResident.unit (UserManagement.newResident ui))
  = false ->
  UserManagement.handleAdd user ui st w
  = (UserManagement.setNewResident (UserManagement.blank user)
       (UserManagement.setFormError [] ui),
     {| residents :=
          residents st
          ++ [UserManagement.resident_of user (UserManagement.newResident ui)
                (clock_source w (clock_reads w))];
        setItem_log :=
          (residents st
           ++ [UserManagement.resident_of user (UserManagement.newResident ui)
                 (clock_source w (clock_reads w))])
          :: setItem_log st |},
     advance w 0 1).
Proof.
  intro E. unfold UserManagement.handleAdd.
  rewrite !nonempty_String_trim, !negb_involutive, E.
  unfold bind, Date_now, ret, setValue, advance.
  now rewrite Nat.add_0_r, Nat.add_1_r.
Qed.

End Residents.

(** X11.  [handleAdd] refuses exactly the forms whose name or unit is
    empty or made of white space only: it then reports the error and
    neither the list nor [localStorage] changes, nor is the clock read.
    Every other form appends one record to the list, which is written once:
    the record carries the tenant of the user, the text of the clock as its
    identifier and the status active, and it is among the records of the
    user's tenant. *)
Theorem handleAdd_validation {H : Host} (user : User.t)
    (ui : UserManagement.t) (st : Store) (w : World) :
  (forallb is_white_space (NewResident.name (UserManagement.newResident ui)) = true
   \/ forallb is_white_space (NewResident.unit (UserManagement.newResident ui)) = true ->
   UserManagement.handleAdd user ui st w
   = (UserManagement.setFormError (str "Nombre y Unidad son obligatorios.") ui,
      st, w))
  /\ (forallb is_white_space (NewResident.name (UserManagement.newResident ui)) = false ->
      forallb is_white_space (NewResident.unit (UserManagement.newResident ui)) = false ->
      exists r ui',
        UserManagement.handleAdd user ui st w
        = (ui',
           {| residents := residents st ++ [r];
              setItem_log := (residents st ++ [r]) :: setItem_log st |},
           advance w 0 1)
        /\ UserManagement.formError ui' = []
        /\ UserManagement.newResident ui' = UserManagement.blank user
        /\ Resident.id r = Number_toString (clock_source w (clock_reads w)) 0
        /\ Resident.tenantId r = User.tenantId user
        /\ Resident.status r = Active
        /\ Resident.name r = NewResident.name (UserManagement.newResident ui)
        /\ Resident.unit r = NewResident.unit (UserManagement.newResident ui)
        /\ Resident.expirationDate r
           = or_undefined (NewResident.expirationDate (UserManagement.newResident ui))
        /\ In r (tenantResidents (residents st ++ [r]) (Some user))).
Proof.
  split.
  - intro E. apply handleAdd_blank. apply orb_true_iff. exact E.
  - intros E1 E2. eexists. eexists. split.
    + apply handleAdd_filled. now rewrite E1, E2.
    + repeat (split; [reflexivity|]).
      unfold tenantResidents. apply filter_In. split.
      * apply in_or_app. right. now left.
      * apply jsstring_eqb_refl.
Qed.

(** X12.  The life of a record that [handleAdd] adds: it is in the store
    after the runs of the sweep at the instants [nows] exactly when each of
    these runs retains it; a record added without an expiration date is in
    the store after any runs; a record added with a date that reads as the
    instant [t] is in the store exactly as long as every run was before
    [t]. *)
Theorem added_record_lifetime {H : Host} (user : User.t)
    (ui : UserManagement.t) (st : Store) (w : World) (nows : list Z) :
  forallb is_white_space (NewResident.name (UserManagement.newResident ui)) = false ->
  forallb is_white_space (NewResident.unit (UserManagement.newResident ui)) = false ->
  exists r,
    residents (snd (fst (UserManagement.handleAdd user ui st w)))
    = residents st ++ [r]
    /\ (In r (residents (sweeps nows (snd (fst (UserManagement.handleAdd user ui st w)))))
        <-> Forall (fun now => retained now r = true) nows)
    /\ (NewResident.expirationDate (UserManagement.newResident ui) = [] ->
        In r (residents (sweeps nows (snd (fst (UserManagement.handleAdd user ui st w))))))
    /\ (forall t,
          NewResident.expirationDate (UserManagement.newResident ui) <> [] ->
          Date_parse (NewResident.expirationDate (UserManagement.newResident ui))
          = Some t ->
          (In r (residents (sweeps nows (snd (fst (UserManagement.handleAdd user ui st w)))))
           <-> Forall (fun now => now < t) nows)).
Proof.
  intros E1 E2. rewrite handleAdd_filled by now rewrite E1, E2.
  cbn [fst snd].
  set (r := UserManagement.resident_of user (UserManagement.newResident ui)
              (clock_source w (clock_reads w))).
  exists r. split; [reflexivity|].
  assert (In r (residents (sweeps nows
            {| residents := residents st ++ [r];
               setItem_log := (residents st ++ [r]) :: setItem_log st |}))
          <-> forall now, In now nows -> retained now r = true) as K.
  { rewrite residents_sweeps. cbn [residents].
    rewrite filter_In, forallb_forall. split; [tauto|]. intro P.
    split; [|assumption]. apply in_or_app. right. now left. }
  assert (forall now,
            retained now r =
            match NewResident.expirationDate (UserManagement.newResident ui) with
            | [] => true
            | c :: d =>
                match Date_parse (c :: d) with
                | Some t => now <? t
                | None => true
                end
            end) as R.
  { intro now. unfold retained, expiration_unreadable, expires_after,
      expiration_unset, expiration_time, r.
    cbn [UserManagement.resident_of Resident.expirationDate].
    destruct (NewResident.expirationDate (UserManagement.newResident ui))
      as [|c d]; [reflexivity|].
    cbn [or_undefined nonempty negb andb orb].
    destruct (Date_parse (c :: d)); reflexivity. }
  split; [|split].
  - rewrite K, Forall_forall. reflexivity.
  - intro E. apply K. intros now _. now rewrite R, E.
  - intros t N P. rewrite K, Forall_forall.
    destruct (NewResident.expirationDate (UserManagement.newResident ui))
      as [|c d] eqn:E; [now destruct N|].
    split; intros F now I; specialize (F now I).
    + rewrite R, P in F. now apply Z.ltb_lt.
    + rewrite R, P. now apply Z.ltb_lt.
Qed.

Lemma digits_aux_nonempty (f : nat) (n : N) : nonempty (digits_aux f n) = true.
Proof.
  destruct f as [|f]; cbn [digits_aux]; [reflexivity|].
  destruct (n <? 10)%N; [reflexivity|apply nonempty_app_cons].
Qed.

Lemma integer_text_nonempty (z : Z) : nonempty (integer_text z) = true.
Proof.
  unfold integer_text, digits. destruct (z <? 0); [reflexivity|].
  apply digits_aux_nonempty.
Qed.

Lemma filter_app_fresh (T : Type) (p : T -> bool) (l : list T) (x : T) :
  p x = false -> filter p (l ++ [x]) = filter p l.
Proof.
  intro E. rewrite filter_app. cbn [filter]. rewrite E. apply app_nil_r.
Qed.

(** X13.  Adding a person and deleting the record added: the list is
    again the one before the addition, less the records that had the
    identifier of the new record, which is the text of the clock; so it is
    the list before the addition when no record had that identifier.  The
    two steps write to [localStorage] twice. *)
Theorem add_then_delete {H : Host} (user : User.t) (ui : UserManagement.t)
    (st : Store) (w : World) :
  User.role user = X ->
  forallb is_white_space (NewResident.name (UserManagement.newResident ui)) = false ->
  forallb is_white_space (NewResident.unit (UserManagement.newResident ui)) = false ->
  is_safe_integer (clock_source w (clock_reads w)) = true ->
  exists ui1 st1 r,
    fst (UserManagement.handleAdd user ui st w) = (ui1, st1)
    /\ residents st1 = residents st ++ [r]
    /\ Resident.id r = integer_text (clock_source w (clock_reads w))
    /\ residents
         (snd (UserManagement.confirmDelete
                 (UserManagement.initiateDelete user (residents st1)
                    (Resident.id r) ui1) st1))
       = filter (fun x => negb (jsstring_eqb (Resident.id x) (Resident.id r)))
                (residents st)
    /\ ((forall x, In x (residents st) -> Resident.id x <> Resident.id r) ->
        residents
          (snd (UserManagement.confirmDelete
                  (UserManagement.initiateDelete user (residents st1)
                     (Resident.id r) ui1) st1))
        = residents st)
    /\ length
         (setItem_log
            (snd (UserManagement.confirmDelete
                    (UserManagement.initiateDelete user (residents st1)
                       (Resident.id r) ui1) st1)))
       = S (S (length (setItem_log st))).
Proof.
  intros R E1 E2 S. rewrite handleAdd_filled by now rewrite E1, E2.
  cbn [fst]. eexists. eexists. eexists. split; [reflexivity|].
  cbn [residents]. split; [reflexivity|].
  set (r := UserManagement.resident_of user (UserManagement.newResident ui)
              (clock_source w (clock_reads w))).
  assert (Resident.id r = integer_text (clock_source w (clock_reads w))) as I.
  { unfold r, UserManagement.resident_of, Number_toString.
    cbn [Resident.id]. now rewrite S. }
  split; [exact I|].
  assert (exists c d, Resident.id r = c :: d) as (c & d & N).
  { pose proof (integer_text_nonempty (clock_source w (clock_reads w))) as N.
    rewrite <- I in N. destruct (Resident.id r) as [|c d]; [discriminate|].
    now exists c, d. }
  unfold UserManagement.initiateDelete. rewrite R. cbn [Role_eqb negb andb].
  unfold UserManagement.confirmDelete.
  cbn [UserManagement.deletingId UserManagement.setDeletingId].
  rewrite N. cbn [snd setValue residents setItem_log]. rewrite <- N.
  assert (filter (fun x => negb (jsstring_eqb (Resident.id x) (Resident.id r)))
                 (residents st ++ [r])
          = filter (fun x => negb (jsstring_eqb (Resident.id x) (Resident.id r)))
                   (residents st)) as F.
  { apply filter_app_fresh. now rewrite jsstring_eqb_refl. }
  split; [exact F|]. split; [|reflexivity].
  intro Fr. rewrite F. apply filter_all.
  apply not_true_iff_false. intro Ex. apply existsb_exists in Ex as (x & Ix & Ex).
  rewrite negb_involutive in Ex. apply jsstring_eqb_eq in Ex.
  now apply (Fr x Ix).
Qed.

(** The records that an edit or an extension rewrites in place. *)
Lemma map_in_place_ids (f : Resident.t -> Resident.t) (l : list Resident.t) :
  (forall r, Resident.id (f r) = Resident.id r) ->
  map Resident.id (map f l) = map Resident.id l.
Proof. intro E. rewrite map_map. apply map_ext. exact E. Qed.

Lemma unique_by_id (l : list Resident.t) (x y : Resident.t) :
  NoDup (map Resident.id l) -> In x l -> In y l ->
  Resident.id x = Resident.id y -> x = y.
Proof.
  induction l as [|a l IH]; [intros _ []|].
  cbn [map]. intros D Ix Iy E. apply NoDup_cons_iff in D as [N D].
  destruct Ix as [->|Ix], Iy as [->|Iy]; try reflexivity.
  - destruct N. rewrite E. now apply in_map.
  - destruct N. rewrite <- E. now apply in_map.
  - now apply IH.
Qed.

Lemma map_unique (id : jsstring) (f : Resident.t -> Resident.t)
    (l : list Resident.t) (r : Resident.t) :
  NoDup (map Resident.id l) -> In r l -> Resident.id r = id -> f r = r ->
  map (fun x => if jsstring_eqb (Resident.id x) id then f x else x) l = l.
Proof.
  intros D I E F. rewrite <- (map_id l) at 2. apply map_ext_in.
  intros x Ix. destruct (jsstring_eqb (Resident.id x) id) eqn:Ex; [|reflexivity].
  apply jsstring_eqb_eq in Ex.
  assert (x = r) as ->; [|assumption].
  apply (unique_by_id l); try assumption. congruence.
Qed.

Lemma assign_copy (r : Resident.t) (hasLicensePlate hasExpirationDate : bool) :
  PartialResident.assign r
    (PartialResident.copy r hasLicensePlate hasExpirationDate) = r.
Proof.
  destruct r as [i t n u ty s lp ed]. unfold PartialResident.assign, PartialResident.copy.
  cbn. destruct lp, ed, hasLicensePlate, hasExpirationDate; reflexivity.
Qed.

Lemma truthy_Some (o : option jsstring) :
  truthy o = true -> exists c d, o = Some (c :: d).
Proof. destruct o as [[|c d]|]; try discriminate. intros _. now exists c, d. Qed.

Lemma handleSaveEdit_saves (ui : UserManagement.t) (st : Store)
    (id name unit : jsstring) :
  UserManagement.editingId ui = Some id ->
  PartialResident.name (UserManagement.editForm ui) = Some name ->
  PartialResident.unit (UserManagement.editForm ui) = Some unit ->
  nonempty id && nonempty name && nonempty unit = true ->
  UserManagement.handleSaveEdit ui st
  = (UserManagement.setEditForm PartialResident.empty
       (UserManagement.setEditingId None ui),
     {| residents :=
          map (fun r =>
                 if jsstring_eqb (Resident.id r) id
                 then PartialResident.assign r (UserManagement.editForm ui)
                 else r) (residents st);
        setItem_log :=
          map (fun r =>
                 if jsstring_eqb (Resident.id r) id
                 then PartialResident.assign r (UserManagement.editForm ui)
                 else r) (residents st)
          :: setItem_log st |}).
Proof.
  intros Ei En Eu N. unfold UserManagement.handleSaveEdit.
  rewrite Ei, En, Eu.
  destruct id; [discriminate|]. destruct name; [discriminate|].
  destruct unit; [discriminate|]. reflexivity.
Qed.

Lemma handleSaveEdit_refuses (ui : UserManagement.t) (st : Store) :
  truthy (UserManagement.editingId ui)
  && truthy (PartialResident.name (UserManagement.editForm ui))
  && truthy (PartialResident.unit (UserManagement.editForm ui)) = false ->
  UserManagement.handleSaveEdit ui st = (ui, st).
Proof.
  unfold UserManagement.handleSaveEdit, truthy.
  destruct (UserManagement.editingId ui) as [[|c d]|]; try reflexivity.
  destruct (PartialResident.name (UserManagement.editForm ui)) as [[|cn dn]|];
    try reflexivity.
  destruct (PartialResident.unit (UserManagement.editForm ui)) as [[|cu du]|];
    try reflexivity.
  discriminate.
Qed.

Lemma handleEditClick_allowed (user : User.t) (r : Resident.t)
    (hasLicensePlate hasExpirationDate : bool) (ui : UserManagement.t) :
  UserManagement.manages user = true ->
  (User.role user = B -> User.unit user = Some (Resident.unit r)) ->
  UserManagement.handleEditClick user r hasLicensePlate hasExpirationDate ui
  = UserManagement.setExtendingId None
      (UserManagement.setEditForm
         (PartialResident.copy r hasLicensePlate hasExpirationDate)
         (UserManagement.setEditingId (Some (Resident.id r)) ui)).
Proof.
  intros M U. unfold UserManagement.handleEditClick, UserManagement.manages in *.
  destruct (User.role user); try discriminate; cbn [Role_eqb negb andb];
    [reflexivity|].
  rewrite (U eq_refl). cbn [string_is]. now rewrite jsstring_eqb_refl.
Qed.

(** X14.  Opening a record for editing and saving it unchanged: in a list
    of records with pairwise distinct identifiers the list stays what it
    is, and is written once more; the save does nothing at all when the
    name or the unit of the record is empty. *)
Theorem edit_saved_unchanged (user : User.t) (r : Resident.t)
    (hasLicensePlate hasExpirationDate : bool) (ui : UserManagement.t)
    (st : Store) :
  UserManagement.manages user = true ->
  (User.role user = B -> User.unit user = Some (Resident.unit r)) ->
  NoDup (map Resident.id (residents st)) ->
  In r (residents st) ->
  nonempty (Resident.id r) = true ->
  UserManagement.editingId
    (UserManagement.handleEditClick user r hasLicensePlate hasExpirationDate ui)
  = Some (Resident.id r)
  /\ (nonempty (Resident.name r) && nonempty (Resident.unit r) = true ->
      snd (UserManagement.handleSaveEdit
             (UserManagement.handleEditClick user r hasLicensePlate
                hasExpirationDate ui) st)
      = {| residents := residents st;
           setItem_log := residents st :: setItem_log st |}
      /\ UserManagement.editingId
           (fst (UserManagement.handleSaveEdit
                   (UserManagement.handleEditClick user r hasLicensePlate
                      hasExpirationDate ui) st))
         = None)
  /\ (nonempty (Resident.name r) && nonempty (Resident.unit r) = false ->
      UserManagement.handleSaveEdit
        (UserManagement.handleEditClick user r hasLicensePlate
           hasExpirationDate ui) st
      = (UserManagement.handleEditClick user r hasLicensePlate
           hasExpirationDate ui, st)).
Proof.
  intros M U D I N. rewrite (handleEditClick_allowed user r _ _ ui M U).
  split; [reflexivity|]. split.
  - intro T.
    rewrite (handleSaveEdit_saves _ st (Resident.id r) (Resident.name r)
               (Resident.unit r)); try reflexivity.
    2:{ rewrite N. exact T. }
    cbn [fst snd UserManagement.editingId UserManagement.setEditForm
         UserManagement.setEditingId UserManagement.setExtendingId
         UserManagement.editForm].
    split; [|reflexivity].
    rewrite (map_unique (Resident.id r) _ (residents st) r); try assumption;
      [reflexivity|reflexivity|apply assign_copy].
  - intro T. apply handleSaveEdit_refuses.
    cbn [UserManagement.editingId UserManagement.setEditForm
         UserManagement.setEditingId UserManagement.setExtendingId
         UserManagement.editForm PartialResident.copy PartialResident.name
         PartialResident.unit truthy].
    destruct (Resident.id r); [discriminate|].
    destruct (Resident.name r), (Resident.unit r); try reflexivity.
    discriminate.
Qed.

Lemma row_with_None (rows : list Resident.t) :
  UserManagement.row_with rows None = false.
Proof. unfold UserManagement.row_with. now induction rows. Qed.

Section EditFrame.
Context {H : Host} {U : Unicode}.
Variable user : User.t.

Lemma copy_edits_record (r : Resident.t) (hasLicensePlate hasExpirationDate : bool)
    (ui : UserManagement.t) :
  edits_record r
    (UserManagement.setExtendingId None
       (UserManagement.setEditForm
          (PartialResident.copy r hasLicensePlate hasExpirationDate)
          (UserManagement.setEditingId (Some (Resident.id r)) ui))).
Proof.
  repeat split. cbn. destruct (Resident.expirationDate r); [now right|].
  destruct hasExpirationDate; [now right|now left].
Qed.

Lemma field_edit_step (ui : UserManagement.t) (st : Store) (w : World)
    (ev : UserManagement.Event) :
  is_field_edit ev = true ->
  exists ui',
    UserManagement.step user (ui, st, w) ev = (ui', st, w)
    /\ (UserManagement.editingId ui = None -> UserManagement.editingId ui' = None)
    /\ (forall r, edits_record r ui -> edits_record r ui').
Proof.
  intro F. unfold UserManagement.step.
  destruct (UserManagement.enabled user ui st ev);
    [|exists ui; split; [reflexivity|split; [intro E; exact E|intros r T; exact T]]].
  destruct ev; try discriminate; unfold UserManagement.handle, ret; cbv zeta;
    (eexists; split; [reflexivity|]; split; [intro E; exact E|]);
    intros r (E1 & E2 & E3 & E4 & E5); repeat split; assumption.
Qed.

Lemma field_edits_run (edits : list UserManagement.Event) :
  forallb is_field_edit edits = true ->
  forall ui st w,
    exists ui',
      UserManagement.run user edits (ui, st, w) = (ui', st, w)
      /\ (UserManagement.editingId ui = None ->
          UserManagement.editingId ui' = None)
      /\ (forall r, edits_record r ui -> edits_record r ui').
Proof.
  unfold UserManagement.run.
  induction edits as [|ev edits IH]; intros F ui st w.
  - exists ui. split; [reflexivity|split; [intro E; exact E|intros r T; exact T]].
  - cbn [forallb] in F. apply andb_true_iff in F as [Fe F].
    destruct (field_edit_step ui st w ev Fe) as (ui1 & S1 & N1 & T1).
    destruct (IH F ui1 st w) as (ui2 & S2 & N2 & T2).
    exists ui2. cbn [fold_left]. rewrite S1. split; [exact S2|].
    split; [intro E; apply N2, N1, E|intros r T; apply T2, T1, T].
Qed.

Lemma save_not_editing (ui : UserManagement.t) (st : Store) (w : World) :
  UserManagement.editingId ui = None ->
  UserManagement.step user (ui, st, w) UserManagement.edit_save = (ui, st, w).
Proof.
  intro E. unfold UserManagement.step, UserManagement.enabled. cbv zeta.
  rewrite E, row_with_None. reflexivity.
Qed.

Lemma save_edits_record (r : Resident.t) (ui : UserManagement.t) (st : Store)
    (w : World) :
  edits_record r ui ->
  NoDup (map Resident.id (residents st)) ->
  In r (residents st) ->
  exists f,
    residents (snd (fst (UserManagement.step user (ui, st, w)
                           UserManagement.edit_save)))
    = map f (residents st)
    /\ (forall x, In x (residents st) ->
          Resident.id (f x) = Resident.id x
          /\ Resident.tenantId (f x) = Resident.tenantId x
          /\ Resident.status (f x) = Resident.status x
          /\ Resident.expirationDate (f x) = Resident.expirationDate x
          /\ (x <> r -> f x = x)).
Proof.
  intros (E1 & E2 & E3 & E4 & E5) D I. unfold UserManagement.step.
  destruct (UserManagement.enabled user ui st UserManagement.edit_save).
  2:{ exists (fun x => x). cbn [fst snd]. rewrite map_id. now repeat split. }
  unfold UserManagement.handle, ret. cbv zeta. cbn [fst snd].
  destruct (truthy (UserManagement.editingId ui)
            && truthy (PartialResident.name (UserManagement.editForm ui))
            && truthy (PartialResident.unit (UserManagement.editForm ui))) eqn:T.
  2:{ rewrite handleSaveEdit_refuses by assumption.
      exists (fun x => x). cbn [fst snd]. rewrite map_id. now repeat split. }
  apply andb_true_iff in T as [T Tu]. apply andb_true_iff in T as [Ti Tn].
  apply truthy_Some in Tn as (cn & dn & En).
  apply truthy_Some in Tu as (cu & du & Eu).
  assert (nonempty (Resident.id r) = true) as Ni.
  { rewrite E1 in Ti. cbn in Ti. now destruct (Resident.id r). }
  rewrite (handleSaveEdit_saves ui st (Resident.id r) (cn :: dn) (cu :: du))
    by (try assumption; now rewrite Ni).
  cbn [fst snd residents]. eexists. split; [reflexivity|].
  intros x Ix. cbv beta.
  destruct (jsstring_eqb (Resident.id x) (Resident.id r)) eqn:Ex.
  - apply jsstring_eqb_eq in Ex.
    assert (x = r) as -> by (apply (unique_by_id (residents st)); assumption).
    unfold PartialResident.assign. cbn. rewrite E2, E3, E4.
    split; [reflexivity|]. split; [reflexivity|]. split; [reflexivity|].
    split; [|intro N; now destruct N].
    destruct E5 as [-> | ->]; reflexivity.
  - split; [reflexivity|]. split; [reflexivity|]. split; [reflexivity|].
    split; reflexivity.
Qed.

End EditFrame.

(** X15.  Editing a row and saving it, with whatever is typed into the
    form in between, in a list of records with pairwise distinct
    identifiers: the list has afterwards the same records in the same order
    with the same identifiers, tenants, states and expiration dates, and
    every record but the one of the row is as it was. *)
Theorem edit_keeps_identity {H : Host} {U : Unicode} (user : User.t)
    (ui : UserManagement.t) (st : Store) (w : World) (row : nat)
    (hasLicensePlate hasExpirationDate : bool)
    (edits : list UserManagement.Event) :
  at_rest ui ->
  NoDup (map Resident.id (residents st)) ->
  forallb is_field_edit edits = true ->
  exists f,
    residents
      (snd (fst (UserManagement.run user
                   (UserManagement.row_edit row hasLicensePlate hasExpirationDate
                    :: edits ++ [UserManagement.edit_save])
                   (ui, st, w))))
    = map f (residents st)
    /\ (forall x, In x (residents st) ->
          Resident.id (f x) = Resident.id x
          /\ Resident.tenantId (f x) = Resident.tenantId x
          /\ Resident.status (f x) = Resident.status x
          /\ Resident.expirationDate (f x) = Resident.expirationDate x
          /\ (nth_error (UserManagement.filtered user ui (residents st)) row
              <> Some x -> f x = x)).
Proof.
  intros (R1 & R2 & R3) D F.
  unfold UserManagement.run. cbn [fold_left]. rewrite fold_left_app.
  cbn [fold_left].
  assert (forall ui1,
            UserManagement.editingId ui1 = None ->
            exists f,
              residents
                (snd (fst (UserManagement.step user
                             (fold_left (UserManagement.step user) edits
                                        (ui1, st, w))
                             UserManagement.edit_save)))
              = map f (residents st)
              /\ (forall x, In x (residents st) ->
                    Resident.id (f x) = Resident.id x
                    /\ Resident.tenantId (f x) = Resident.tenantId x
                    /\ Resident.status (f x) = Resident.status x
                    /\ Resident.expirationDate (f x) = Resident.expirationDate x
                    /\ (nth_error (UserManagement.filtered user ui (residents st))
                                  row <> Some x -> f x = x))) as Idle.
  { intros ui1 E1.
    destruct (field_edits_run user edits F ui1 st w) as (ui2 & S2 & N2 & _).
    unfold UserManagement.run in S2. rewrite S2.
    rewrite save_not_editing by now apply N2.
    exists (fun x => x). cbn [fst snd]. rewrite map_id. now repeat split. }
  unfold UserManagement.step at 3.
  destruct (UserManagement.enabled user ui st
              (UserManagement.row_edit row hasLicensePlate hasExpirationDate))
    eqn:En; [|now apply Idle].
  unfold UserManagement.handle, ret. cbv zeta.
  destruct (nth_error (UserManagement.filtered user ui (residents st)) row)
    as [r|] eqn:N; [|now apply Idle].
  assert (In r (residents st)) as Ir.
  { apply nth_error_In in N. now apply filter_In in N as [I _]. }
  unfold UserManagement.handleEditClick.
  destruct (negb (Role_eqb (User.role user) X)
            && negb (Role_eqb (User.role user) B)); [now apply Idle|].
  destruct (Role_eqb (User.role user) B
            && negb (string_is (Resident.unit r) (User.unit user)));
    [now apply Idle|].
  pose proof (copy_edits_record r hasLicensePlate hasExpirationDate ui) as T1.
  destruct (field_edits_run user edits F
              (UserManagement.setExtendingId None
                 (UserManagement.setEditForm
                    (PartialResident.copy r hasLicensePlate hasExpirationDate)
                    (UserManagement.setEditingId (Some (Resident.id r)) ui)))
              st w) as (ui2 & S2 & _ & T2).
  unfold UserManagement.run in S2. rewrite S2.
  specialize (T2 r T1).
  destruct (save_edits_record user r ui2 st w T2 D Ir) as (f & Ef & Pf).
  exists f. split; [exact Ef|].
  intros x Ix. destruct (Pf x Ix) as (P1 & P2 & P3 & P4 & P5).
  repeat split; try assumption.
  intro Nx. apply P5. intros ->. now destruct Nx.
Qed.

Section Extension.
Context {H : Host}.

Lemma residents_handleSaveExtension (id : jsstring) (ui : UserManagement.t)
    (st : Store) :
  residents (snd (UserManagement.handleSaveExtension id ui st))
  = map (fun r =>
           if jsstring_eqb (Resident.id r) id
           then with_expiration (or_undefined (UserManagement.extensionDate ui)) r
           else r)
        (residents st).
Proof. reflexivity. Qed.

Lemma retained_with_expiration (now : Z) (d : jsstring) (r : Resident.t) :
  retained now (with_expiration (or_undefined d) r)
  = match d with
    | [] => true
    | c :: d' =>
        match Date_parse (c :: d') with
        | Some t => now <? t
        | None => true
        end
    end.
Proof.
  unfold retained, expiration_unreadable, expires_after, expiration_unset,
    expiration_time, with_expiration. cbn [Resident.expirationDate].
  destruct d as [|c d']; [reflexivity|].
  cbn [or_undefined nonempty negb andb orb].
  destruct (Date_parse (c :: d')); reflexivity.
Qed.

End Extension.

(** X16.  Saving a new expiration date for the records with an
    identifier: these records get the date, or none when the field is empty,
    and nothing else of the list changes: not the identifiers, not the
    order, not the other records.  After it, a run of the sweep at [now]
    retains such a record exactly when the field was empty, or its text does
    not read as a date, or reads as an instant after [now]. *)
Theorem extension_postpones_sweep {H : Host} (id : jsstring)
    (ui : UserManagement.t) (st : Store) (now : Z) (r : Resident.t) :
  In r (residents st) ->
  Resident.id r = id ->
  map Resident.id (residents (snd (UserManagement.handleSaveExtension id ui st)))
  = map Resident.id (residents st)
  /\ (forall x, In x (residents st) -> Resident.id x <> id ->
        In x (residents (snd (UserManagement.handleSaveExtension id ui st))))
  /\ In (with_expiration (or_undefined (UserManagement.extensionDate ui)) r)
        (residents (snd (UserManagement.handleSaveExtension id ui st)))
  /\ (In (with_expiration (or_undefined (UserManagement.extensionDate ui)) r)
         (residents (checkExpiration now
                       (snd (UserManagement.handleSaveExtension id ui st))))
      <-> UserManagement.extensionDate ui = []
          \/ Date_parse (UserManagement.extensionDate ui) = None
          \/ exists t, Date_parse (UserManagement.extensionDate ui) = Some t
                       /\ now < t).
Proof.
  intros I E. rewrite residents_checkExpiration, residents_handleSaveExtension.
  assert (In (with_expiration (or_undefined (UserManagement.extensionDate ui)) r)
             (map (fun r0 =>
                     if jsstring_eqb (Resident.id r0) id
                     then with_expiration
                            (or_undefined (UserManagement.extensionDate ui)) r0
                     else r0) (residents st))) as Ir.
  { apply in_map_iff. exists r. split; [|assumption].
    rewrite E. now rewrite jsstring_eqb_refl. }
  split; [|split; [|split]].
  - apply map_in_place_ids. intro x.
    now destruct (jsstring_eqb (Resident.id x) id).
  - intros x Ix Nx. apply in_map_iff. exists x. split; [|assumption].
    now rewrite (jsstring_eqb_neq _ _ Nx).
  - exact Ir.
  - rewrite filter_In, retained_with_expiration.
    destruct (UserManagement.extensionDate ui) as [|c d].
    + split; [now left|]. intros _. now split.
    + destruct (Date_parse (c :: d)) as [t|].
      * split.
        -- intros [_ L]. right. right. exists t. split; [reflexivity|].
           now apply Z.ltb_lt.
        -- intros [N|[N|(t' & N & L)]]; try discriminate.
           injection N as <-. split; [assumption|]. now apply Z.ltb_lt.
      * split; [intros _; right; now left|]. intros _. now split.
Qed.

Section Filtered.
Context {U : Unicode}.

Lemma String_startsWith_nil (s : jsstring) : String_startsWith s [] = true.
Proof. now destruct s. Qed.

Lemma String_includes_nil (s : jsstring) : String_includes s [] = true.
Proof. destruct s; reflexivity. Qed.

End Filtered.

(** X17.  The rows on display are records of the list it was given, in
    their order; for a resident (role B) each is of the user's own unit;
    each is of the type chosen in the filter unless the filter is [ALL], and
    matches the search by its name, its unit or its licence plate; the
    tenant of a record plays no part in whether it is on display; and with
    an empty search and the filter [ALL] a user who is no resident is shown
    the whole list. *)
Theorem filtered_rows {U : Unicode} (user : User.t) (ui : UserManagement.t)
    (residents : list Resident.t) :
  subsequence (UserManagement.filtered user ui residents) residents
  /\ (forall r, In r (UserManagement.filtered user ui residents) ->
        (User.role user = B -> User.unit user = Some (Resident.unit r))
        /\ (UserManagement.filterType ui = str "ALL"
            \/ ResidentType_text (Resident.type r) = UserManagement.filterType ui)
        /\ (String_includes (String_toLowerCase (Resident.name r))
                            (String_toLowerCase (UserManagement.searchTerm ui)) = true
            \/ String_includes (Resident.unit r) (UserManagement.searchTerm ui) = true
            \/ exists plate,
                 Resident.licensePlate r = Some plate
                 /\ String_includes (String_toLowerCase plate)
                      (String_toLowerCase (UserManagement.searchTerm ui)) = true))
  /\ (forall r t,
        UserManagement.matches user ui (with_tenant t r)
        = UserManagement.matches user ui r)
  /\ (User.role user <> B ->
      UserManagement.searchTerm ui = [] ->
      UserManagement.filterType ui = str "ALL" ->
      UserManagement.filtered user ui residents = residents).
Proof.
  split; [apply subsequence_filter|]. split; [|split; [reflexivity|]].
  - intros r I. apply filter_In in I as [_ M].
    unfold UserManagement.matches in M. cbv zeta in M.
    assert ((String_includes (String_toLowerCase (Resident.name r))
               (String_toLowerCase (UserManagement.searchTerm ui))
             || String_includes (Resident.unit r) (UserManagement.searchTerm ui)
             || match Resident.licensePlate r with
                | Some (c :: p) =>
                    String_includes (String_toLowerCase (c :: p))
                      (String_toLowerCase (UserManagement.searchTerm ui))
                | _ => false
                end) = true
            /\ (jsstring_eqb (UserManagement.filterType ui) (str "ALL")
                || jsstring_eqb (ResidentType_text (Resident.type r))
                     (UserManagement.filterType ui)) = true
            /\ (User.role user = B ->
                string_is (Resident.unit r) (User.unit user) = true))
      as (S & T & R).
    { destruct (User.role user) eqn:E; cbn [Role_eqb] in M;
        repeat (apply andb_true_iff in M as [M ?]);
        (split; [|split]); try assumption; intro; try assumption;
        congruence. }
    split; [|split].
    + intro E. now apply string_is_eq, R.
    + apply orb_true_iff in T as [T|T]; apply jsstring_eqb_eq in T; tauto.
    + apply orb_true_iff in S as [S|S]; [apply orb_true_iff in S as [S|S]|];
        [now left|right; now left|].
      right. right. destruct (Resident.licensePlate r) as [[|c p]|];
        try discriminate. now exists (c :: p).
  - intros R S T. unfold UserManagement.filtered. apply filter_all.
    apply not_true_iff_false. intro Ex.
    apply existsb_exists in Ex as (r & _ & Ex). apply negb_true_iff in Ex.
    unfold UserManagement.matches in Ex. cbv zeta in Ex. rewrite S, T in Ex.
    rewrite (String_includes_nil (Resident.unit r)) in Ex.
    rewrite orb_true_r in Ex. cbn [orb] in Ex.
    destruct (User.role user); try discriminate. now destruct R.
Qed.

Section Porter.
Context {H : Host} {U : Unicode}.
Variable user : User.t.
Hypothesis role_A : User.role user = A.

Lemma no_row_extended (rows : list Resident.t) (o : option jsstring) :
  existsb (fun r => negb (string_is (Resident.id r) o)
                    && string_is (Resident.id r) None) rows = false.
Proof.
  induction rows as [|r rows IH]; [reflexivity|]. cbn [existsb string_is].
  now rewrite andb_false_r.
Qed.

Lemma porter_step (ui : UserManagement.t) (st : Store) (w : World)
    (ev : UserManagement.Event) :
  at_rest ui ->
  exists ui',
    at_rest ui'
    /\ UserManagement.step user (ui, st, w) ev
       = (ui',
          match ev with
          | UserManagement.timer now => checkExpiration now st
          | _ => st
          end, w).
Proof.
  intros (E1 & E2 & E3).
  destruct ev; unfold UserManagement.step, UserManagement.enabled;
    cbv zeta; unfold UserManagement.manages;
    rewrite ?role_A, ?E1, ?E2, ?E3;
    cbn [Role_eqb orb andb truthy negb];
    rewrite ?row_with_None, ?no_row_extended; cbn [andb];
    try (exists ui; now repeat split);
    try (unfold UserManagement.handle, ret; cbv zeta;
         eexists; split; [|reflexivity]; now repeat split).
  - destruct (nth_error _ row); exists ui; now repeat split.
  - destruct (nth_error _ row); exists ui; now repeat split.
  - unfold UserManagement.handle, ret. cbv zeta.
    destruct (nth_error _ row) as [r|] eqn:N; [|exists ui; now repeat split].
    cbn [string_is orb andb negb].
    exists ui. now repeat split.
Qed.

Lemma porter_run (events : list UserManagement.Event) :
  forall ui st w,
    at_rest ui ->
    exists ui',
      at_rest ui'
      /\ UserManagement.run user events (ui, st, w)
         = (ui', sweeps (timer_instants events) st, w).
Proof.
  unfold UserManagement.run, sweeps.
  induction events as [|ev events IH]; intros ui st w R.
  - exists ui. now split.
  - cbn [fold_left timer_instants flat_map].
    destruct (porter_step ui st w ev R) as (ui1 & R1 & ->).
    destruct (IH ui1 (match ev with
                      | UserManagement.timer now => checkExpiration now st
                      | _ => st
                      end) w R1) as (ui2 & R2 & ->).
    exists ui2. split; [assumption|].
    rewrite fold_left_app. now destruct ev.
Qed.

End Porter.

(** X18.  A porter (role A) changes nothing on the residents screen:
    whatever the events, the list of residents and what is written to
    [localStorage] are what the runs of the sweep alone make of them, and
    the clock is not read. *)
Theorem porter_changes_nothing {H : Host} {U : Unicode} (user : User.t)
    (events : list UserManagement.Event) (st : Store) (w : World) :
  User.role user = A ->
  snd (fst (UserManagement.run user events (UserManagement.initial user, st, w)))
  = sweeps (timer_instants events) st
  /\ snd (UserManagement.run user events (UserManagement.initial user, st, w)) = w.
Proof.
  intro R.
  destruct (porter_run user R events (UserManagement.initial user) st w)
    as (ui' & _ & ->); [now repeat split|].
  now split.
Qed.

Section Resident.
Context {H : Host} {U : Unicode}.
Variable user : User.t.
Hypothesis role_B : User.role user = B.


Lemma row_is_own (ui : UserManagement.t) (l : list Resident.t) (r : Resident.t) :
  In r (UserManagement.filtered user ui l) -> In r l /\ own_unit user r = true.
Proof.
  intro I. apply filter_In in I as [I M]. split; [assumption|].
  unfold UserManagement.matches in M. cbv zeta in M. rewrite role_B in M.
  cbn [Role_eqb] in M. apply andb_true_iff in M as [M _].
  now apply andb_true_iff in M as [M _].
Qed.

Lemma row_with_row (rows : list Resident.t) (o : option jsstring) :
  UserManagement.row_with rows o = true ->
  exists r, In r rows /\ o = Some (Resident.id r).
Proof.
  unfold UserManagement.row_with. intro E.
  apply existsb_exists in E as (r & I & E). exists r. split; [assumption|].
  now apply string_is_eq.
Qed.

Lemma other_units_map (f : Resident.t -> Resident.t) (l : list Resident.t) :
  (forall x, In x l -> f x = x \/ (own_unit user x = true /\ own_unit user (f x) = true)) ->
  other_units user (map f l) = other_units user l.
Proof.
  unfold other_units.
  induction l as [|x l IH]; [reflexivity|]. intro F. cbn [map filter].
  rewrite IH by (intros y Iy; apply F; now right).
  destruct (F x (or_introl eq_refl)) as [->|[O1 O2]]; [reflexivity|].
  now rewrite O1, O2.
Qed.

Lemma other_units_filter (p : Resident.t -> bool) (l : list Resident.t) :
  (forall x, In x l -> p x = false -> own_unit user x = true) ->
  other_units user (filter p l) = other_units user l.
Proof.
  unfold other_units.
  induction l as [|x l IH]; [reflexivity|]. intro F. cbn [filter].
  specialize (IH (fun y Iy => F y (or_intror Iy))).
  destruct (p x) eqn:P; cbn [filter]; rewrite IH; [reflexivity|].
  now rewrite (F x (or_introl eq_refl) P).
Qed.

Lemma blank_unit_own :
  forallb is_white_space (NewResident.unit (UserManagement.blank user)) = false ->
  string_is (NewResident.unit (UserManagement.blank user)) (User.unit user) = true.
Proof.
  unfold UserManagement.blank. rewrite role_B. cbn [Role_eqb NewResident.unit].
  destruct (User.unit user) as [u|]; [|discriminate].
  intros _. cbn [string_is]. apply jsstring_eqb_refl.
Qed.

Lemma resident_step (ui : UserManagement.t) (st : Store) (w : World)
    (ev : UserManagement.Event) :
  keeps_to_unit user ui st ->
  NoDup (map Resident.id (residents st)) ->
  keeps_to_unit user
    (fst (fst (UserManagement.step user (ui, st, w) ev)))
    (snd (fst (UserManagement.step user (ui, st, w) ev)))
  /\ other_units user
       (residents (snd (fst (UserManagement.step user (ui, st, w) ev))))
     = match ev with
       | UserManagement.timer now =>
           filter (retained now) (other_units user (residents st))
       | _ => other_units user (residents st)
       end.
Proof.
  intros (I2 & I3 & I4) D. unfold UserManagement.step.
  destruct (UserManagement.enabled user ui st ev) eqn:En.
  2:{ cbn [fst snd]. split; [now repeat split|].
      destruct ev; try reflexivity. discriminate. }
  unfold UserManagement.enabled in En. cbv zeta in En.
  destruct ev; unfold UserManagement.handle; cbv zeta; unfold ret;
    cbn [fst snd].
  - (* add_name *)
    split; [repeat split; assumption|reflexivity].
  - (* add_unit *)
    rewrite role_B in En. cbn [Role_eqb negb] in En.
    rewrite andb_false_r in En. discriminate.
  - (* add_type *)
    split; [repeat split; assumption|reflexivity].
  - (* add_licensePlate *)
    split; [repeat split; assumption|reflexivity].
  - (* add_expirationDate *)
    split; [repeat split; assumption|reflexivity].
  - (* add_pressed *)
    destruct (forallb is_white_space
                (NewResident.name (UserManagement.newResident ui))
              || forallb is_white_space
                   (NewResident.unit (UserManagement.newResident ui))) eqn:Bl.
    + rewrite handleAdd_blank by assumption. cbn [fst snd].
      split; [now repeat split|reflexivity].
    + rewrite handleAdd_filled by assumption. cbn [fst snd residents].
      apply orb_false_iff in Bl as [_ Bl]. rewrite I4 in Bl.
      pose proof (blank_unit_own Bl) as O.
      set (r := UserManagement.resident_of user (UserManagement.newResident ui)
                  (clock_source w (clock_reads w))).
      assert (own_unit user r = true) as Or.
      { unfold own_unit, r. cbn [UserManagement.resident_of Resident.unit].
        now rewrite I4. }
      split.
      * split; [exact I2|]. split; [|reflexivity].
        intros c d x E Ix Ex. cbn [UserManagement.deletingId
          UserManagement.setNewResident UserManagement.setFormError] in E.
        apply in_app_or in Ix as [Ix|[<-|[]]]; [|exact Or].
        now apply (I3 c d x).
      * unfold other_units. apply filter_app_fresh. now rewrite Or.
  - (* search_typed *)
    split; [repeat split; assumption|reflexivity].
  - (* filter_chosen *)
    split; [repeat split; assumption|reflexivity].
  - (* row_extend *)
    destruct (nth_error _ row) as [r|]; [|discriminate].
    split; [|reflexivity].
    unfold UserManagement.handleExtendClick. rewrite role_B.
    cbn [Role_eqb negb andb]. destruct localIso; now repeat split.
  - (* row_edit *)
    destruct (nth_error _ row) as [r|] eqn:N; [|discriminate].
    apply nth_error_In, row_is_own in N as [Ir Or].
    split; [|reflexivity].
    rewrite handleEditClick_allowed.
    + split; [|split; [exact I3|exact I4]].
      intros u E. cbn in E. injection E as <-. exact Or.
    + unfold UserManagement.manages. now rewrite role_B.
    + intros _. now apply string_is_eq.
  - (* row_delete *)
    destruct (nth_error _ row) as [r|] eqn:N; [|discriminate].
    apply nth_error_In, row_is_own in N as [Ir Or].
    split; [|reflexivity].
    unfold UserManagement.initiateDelete. rewrite role_B.
    cbn [Role_eqb negb andb]. rewrite (find_by_id _ r D Ir).
    fold (own_unit user r). rewrite Or. cbn [negb].
    split; [exact I2|]. split; [|exact I4].
    intros c d x E Ix Ex. cbn in E. injection E as E.
    assert (x = r) as -> by (apply (unique_by_id (residents st)); congruence).
    exact Or.
  - (* edit_name *)
    split; [|reflexivity]. split; [exact I2|]. now split.
  - (* edit_unit *)
    rewrite role_B in En. cbn [Role_eqb negb] in En.
    rewrite andb_false_r in En. discriminate.
  - (* edit_type *)
    split; [|reflexivity]. split; [exact I2|]. now split.
  - (* edit_licensePlate *)
    split; [|reflexivity]. split; [exact I2|]. now split.
  - (* edit_save *)
    apply row_with_row in En as (r & Ir & Er).
    apply row_is_own in Ir as [Ir Or].
    destruct (truthy (UserManagement.editingId ui)
              && truthy (PartialResident.name (UserManagement.editForm ui))
              && truthy (PartialResident.unit (UserManagement.editForm ui))) eqn:T.
    2:{ rewrite handleSaveEdit_refuses by assumption. cbn [fst snd].
        split; [repeat split; assumption|reflexivity]. }
    apply andb_true_iff in T as [T Tu]. apply andb_true_iff in T as [Ti Tn].
    apply truthy_Some in Ti as (c & d & Ei).
    apply truthy_Some in Tn as (cn & dn & En).
    apply truthy_Some in Tu as (cu & du & Eu).
    rewrite (handleSaveEdit_saves ui st (c :: d) (cn :: dn) (cu :: du))
      by (try assumption; reflexivity).
    cbn [fst snd residents].
    assert (Resident.id r = c :: d) as Eid by congruence.
    assert (forall x, In x (residents st) ->
              (if jsstring_eqb (Resident.id x) (c :: d)
               then PartialResident.assign x (UserManagement.editForm ui)
               else x) = x
              \/ (own_unit user x = true
                  /\ own_unit user (if jsstring_eqb (Resident.id x) (c :: d)
                          then PartialResident.assign x (UserManagement.editForm ui)
                          else x) = true)) as F.
    { intros x Ix. destruct (jsstring_eqb (Resident.id x) (c :: d)) eqn:Ex;
        [|now left].
      apply jsstring_eqb_eq in Ex.
      assert (x = r) as -> by (apply (unique_by_id (residents st)); congruence).
      right. split; [exact Or|].
      unfold own_unit, PartialResident.assign. cbn [Resident.unit]. rewrite Eu.
      now apply I2. }
    split; [|now apply other_units_map].
    split; [discriminate|]. split; [|exact I4].
    intros c' d' x E Ix Ex. cbn in E.
    apply in_map_iff in Ix as (y & <- & Iy).
    destruct (F y Iy) as [Fy|[_ Fy]]; [|exact Fy].
    rewrite Fy in *. now apply (I3 c' d' y).
  - (* edit_cancel *)
    split; [|reflexivity]. split; [discriminate|]. now split.
  - (* extension_typed *)
    split; [repeat split; assumption|reflexivity].
  - (* extension_save *)
    apply existsb_exists in En as (r & Ir & Er).
    apply andb_true_iff in Er as [_ Er]. apply string_is_eq in Er.
    apply row_is_own in Ir as [Ir Or]. rewrite Er.
    cbn [fst snd UserManagement.handleSaveExtension setValue residents].
    assert (forall x, Resident.unit
              (if jsstring_eqb (Resident.id x) (Resident.id r)
               then with_expiration
                      (or_undefined (UserManagement.extensionDate ui)) x
               else x) = Resident.unit x) as Un.
    { intro x. now destruct (jsstring_eqb (Resident.id x) (Resident.id r)). }
    assert (forall x, Resident.id
              (if jsstring_eqb (Resident.id x) (Resident.id r)
               then with_expiration
                      (or_undefined (UserManagement.extensionDate ui)) x
               else x) = Resident.id x) as Id.
    { intro x. now destruct (jsstring_eqb (Resident.id x) (Resident.id r)). }
    split.
    + split; [exact I2|]. split; [|exact I4].
      intros c d x E Ix Ex. cbn in E.
      apply in_map_iff in Ix as (y & <- & Iy).
      rewrite Un. rewrite Id in Ex. now apply (I3 c d y).
    + apply (other_units_map
               (fun x => if jsstring_eqb (Resident.id x) (Resident.id r)
                         then with_expiration
                                (or_undefined (UserManagement.extensionDate ui)) x
                         else x)).
      intros x Ix. destruct (jsstring_eqb (Resident.id x) (Resident.id r)) eqn:Ex;
        [|now left].
      apply jsstring_eqb_eq in Ex.
      assert (x = r) as -> by (apply (unique_by_id (residents st)); congruence).
      right. split; exact Or.
  - (* extension_cancel *)
    split; [|reflexivity]. now repeat split.
  - (* delete_cancel *)
    split; [|reflexivity]. split; [exact I2|]. split; [discriminate|exact I4].
  - (* delete_confirm *)
    unfold UserManagement.confirmDelete.
    destruct (UserManagement.deletingId ui) as [[|c d]|] eqn:Ed; try discriminate.
    cbn [fst snd setValue residents]. split.
    + split; [|split; [discriminate|]].
      * destruct (string_is (c :: d) (UserManagement.editingId ui)),
          (string_is (c :: d) (UserManagement.extendingId ui)); exact I2.
      * destruct (string_is (c :: d) (UserManagement.editingId ui)),
          (string_is (c :: d) (UserManagement.extendingId ui)); exact I4.
    + apply other_units_filter. intros x Ix Ex.
      apply negb_false_iff, jsstring_eqb_eq in Ex. now apply (I3 c d x).
  - (* timer *)
    split.
    + split; [exact I2|]. split; [|exact I4].
      intros c d x E Ix Ex. rewrite residents_checkExpiration in Ix.
      apply filter_In in Ix as [Ix _]. now apply (I3 c d x).
    + rewrite residents_checkExpiration. unfold other_units. apply filter_comm.
Qed.

Lemma filter_andb (T : Type) (p q : T -> bool) (l : list T) :
  filter (fun x => p x && q x) l = filter q (filter p l).
Proof.
  induction l as [|x l IH]; [reflexivity|]. cbn [filter].
  destruct (p x); cbn [andb filter]; [|assumption].
  destruct (q x); now rewrite IH.
Qed.

Lemma resident_run (events : list UserManagement.Event) :
  forall ui st w,
    keeps_to_unit user ui st ->
    unique_along user events (ui, st, w) ->
    other_units user
      (residents (snd (fst (UserManagement.run user events (ui, st, w)))))
    = filter (fun r => forallb (fun now => retained now r)
                               (timer_instants events))
             (other_units user (residents st)).
Proof.
  unfold UserManagement.run.
  induction events as [|ev events IH]; intros ui st w K Uq.
  - cbn [fold_left fst snd timer_instants flat_map forallb].
    symmetry. apply filter_all. now induction (other_units user (residents st)).
  - cbn [fold_left]. destruct Uq as [D Uq]. cbn [fst snd] in D.
    destruct (resident_step ui st w ev K D) as [K' O].
    destruct (UserManagement.step user (ui, st, w) ev) as [[ui' st'] w'] eqn:S.
    cbn [fst snd] in K', O. rewrite (IH ui' st' w' K' Uq), O.
    cbn [timer_instants flat_map].
    destruct ev; cbn [app]; try reflexivity.
    cbn [forallb]. now rewrite filter_andb.
Qed.

End Resident.

(** X19.  A resident (role B) changes the records of the own unit only:
    whatever the events, as long as the identifiers of the records are
    pairwise distinct when the events are raised, the records of the other
    units are, after the events, the ones there were, in their order, less
    those that the runs of the sweep have removed. *)
Theorem resident_changes_own_unit_only {H : Host} {U : Unicode} (user : User.t)
    (events : list UserManagement.Event) (st : Store) (w : World) :
  User.role user = B ->
  unique_along user events (UserManagement.initial user, st, w) ->
  other_units user
    (residents
       (snd (fst (UserManagement.run user events
                    (UserManagement.initial user, st, w)))))
  = other_units user (residents (sweeps (timer_instants events) st)).
Proof.
  intros R Uq. rewrite (resident_run user R events _ st w); [|now repeat split|assumption].
  rewrite residents_sweeps. unfold other_units. apply filter_comm.
Qed.


(** ** The session and the profile *)

(** [find] returns the first element that satisfies the test. *)
Lemma find_first (T : Type) (f : T -> bool) (before after : list T) (x : T) :
  (forall y, In y before -> f y = false) ->
  f x = true ->
  find f (before ++ x :: after) = Some x.
Proof.
  intros N E. induction before as [|y l IH]; cbn [app find].
  - now rewrite E.
  - rewrite (N y (or_introl eq_refl)). apply IH.
    intros z I. apply N. now right.
Qed.

(** A list with an element that satisfies a test has a first one. *)
Lemma first_split (T : Type) (f : T -> bool) (l : list T) (u : T) :
  In u l -> f u = true ->
  exists before x after,
    l = before ++ x :: after
    /\ (forall y, In y before -> f y = false)
    /\ f x = true.
Proof.
  induction l as [|y l IH]; [intros []|]. intros I E.
  destruct (f y) eqn:F.
  - exists [], y, l. split; [reflexivity|]. split; [intros ? []|assumption].
  - destruct I as [->|I]; [congruence|].
    destruct (IH I E) as (before & x & after & -> & N & X).
    exists (y :: before), x, after. split; [reflexivity|].
    split; [|assumption]. intros z [<-|Iz]; [assumption|now apply N].
Qed.

(** X20.  Logging in is by identifier: [handleLogin] changes nothing when
    no user of the list has the identifier, and otherwise opens the
    dashboard for the first user of the list with that identifier, the one
    that no user with the identifier precedes; the records then shown are
    exactly the records of the tenant of that user.  After [handleLogout]
    none is shown. *)
Theorem login_session (systemUsers : list User.t) (userId : jsstring)
    (app : App.t) (residents : list Resident.t) :
  ((forall u, In u systemUsers -> User.id u <> userId) ->
   App.handleLogin systemUsers userId app = app)
  /\ (forall before user after,
        systemUsers = before ++ user :: after ->
        (forall u, In u before -> User.id u <> userId) ->
        User.id user = userId ->
        App.handleLogin systemUsers userId app
        = {| App.currentUser := Some user; App.isSidebarOpen := true;
             App.isChatOpen := true; App.activeTab := str "dashboard" |}
        /\ forall r,
             In r (tenantResidents residents
                     (App.currentUser (App.handleLogin systemUsers userId app)))
             <-> In r residents /\ Resident.tenantId r = User.tenantId user)
  /\ (forall u, In u systemUsers -> User.id u = userId ->
        exists before user after,
          systemUsers = before ++ user :: after
          /\ (forall v, In v before -> User.id v <> userId)
          /\ User.id user = userId)
  /\ tenantResidents residents (App.currentUser (App.handleLogout app)) = [].
Proof.
  unfold App.handleLogin. split; [|split; [|split; [|reflexivity]]].
  - intro N.
    destruct (find _ systemUsers) as [u|] eqn:F; [|reflexivity].
    apply find_some in F as [I E]. apply jsstring_eqb_eq in E.
    now destruct (N u I).
  - intros before user after -> N E.
    rewrite (find_first _ (fun u => jsstring_eqb (User.id u) userId)
               before after user).
    + split; [reflexivity|].
      intro r. cbn [App.currentUser tenantResidents].
      rewrite filter_In. split; intros [Ir Er]; (split; [assumption|]);
        now apply jsstring_eqb_eq.
    + intros y I. now apply jsstring_eqb_neq, N.
    + rewrite E. apply jsstring_eqb_refl.
  - intros u I E.
    destruct (first_split _ (fun u => jsstring_eqb (User.id u) userId)
                systemUsers u I) as (before & x & after & S & N & X).
    + rewrite E. apply jsstring_eqb_refl.
    + exists before, x, after. split; [assumption|]. split.
      * intros v Iv Ev. specialize (N v Iv). cbv beta in N.
        rewrite Ev, jsstring_eqb_refl in N. discriminate.
      * now apply jsstring_eqb_eq.
Qed.

Lemma Role_eqb_refl (r : Role) : Role_eqb r r = true.
Proof. now destruct r. Qed.

Lemma syncCurrentUser_cases (systemUsers : list User.t) (app : App.t)
    (current entry : User.t) :
  App.currentUser app = Some current ->
  find (fun u => jsstring_eqb (User.id u) (User.id current)) systemUsers
  = Some entry ->
  (App.syncCurrentUser systemUsers app = App.setCurrentUser (Some entry) app
   /\ (User.name entry <> User.name current
       \/ User.avatar entry <> User.avatar current
       \/ User.role entry <> User.role current))
  \/ (App.syncCurrentUser systemUsers app = app
      /\ User.name entry = User.name current
      /\ User.avatar entry = User.avatar current
      /\ User.role entry = User.role current).
Proof.
  intros C F. unfold App.syncCurrentUser. rewrite C, F.
  destruct (jsstring_eqb (User.name entry) (User.name current)) eqn:En.
  - destruct (jsstring_eqb (User.avatar entry) (User.avatar current)) eqn:Ea.
    + destruct (Role_eqb (User.role entry) (User.role current)) eqn:Er.
      * right. apply jsstring_eqb_eq in En, Ea. apply Role_eqb_eq in Er.
        now repeat split.
      * left. split; [reflexivity|]. right. right. intro E.
        rewrite E, Role_eqb_refl in Er. discriminate.
    + left. split; [reflexivity|]. right. left. intro E.
      rewrite E, jsstring_eqb_refl in Ea. discriminate.
  - left. split; [reflexivity|]. left. intro E.
    rewrite E, jsstring_eqb_refl in En. discriminate.
Qed.

(** X21.  The effect that follows the list of users settles in one run:
    a second run changes nothing.  After it, where the list has an entry
    with the identifier of the session user, the session has the name, the
    avatar and the role of the first such entry, and it is that entry or
    the user it was; without a session user or without such an entry the
    effect changes nothing. *)
Theorem sync_follows_users (systemUsers : list User.t) (app : App.t) :
  App.syncCurrentUser systemUsers (App.syncCurrentUser systemUsers app)
  = App.syncCurrentUser systemUsers app
  /\ (forall current entry,
        App.currentUser app = Some current ->
        find (fun u => jsstring_eqb (User.id u) (User.id current)) systemUsers
        = Some entry ->
        exists user,
          App.currentUser (App.syncCurrentUser systemUsers app) = Some user
          /\ (user = entry \/ user = current)
          /\ User.id user = User.id current
          /\ User.name user = User.name entry
          /\ User.avatar user = User.avatar entry
          /\ User.role user = User.role entry)
  /\ (App.currentUser app = None -> App.syncCurrentUser systemUsers app = app)
  /\ (forall current,
        App.currentUser app = Some current ->
        (forall u, In u systemUsers -> User.id u <> User.id current) ->
        App.syncCurrentUser systemUsers app = app).
Proof.
  assert (forall current entry,
            App.currentUser app = Some current ->
            find (fun u => jsstring_eqb (User.id u) (User.id current)) systemUsers
            = Some entry ->
            exists user,
              App.currentUser (App.syncCurrentUser systemUsers app) = Some user
              /\ (user = entry \/ user = current)
              /\ User.id user = User.id current
              /\ User.name user = User.name entry
              /\ User.avatar user = User.avatar entry
              /\ User.role user = User.role entry) as S.
  { intros current entry C F.
    pose proof (find_some _ _ F) as [_ Ei]. apply jsstring_eqb_eq in Ei.
    destruct (syncCurrentUser_cases systemUsers app current entry C F)
      as [[-> _]|[-> (En & Ea & Er)]].
    - exists entry. cbn. now repeat split; try (now left).
    - exists current. rewrite C. now repeat split; try (now right). }
  split; [|split; [exact S|split]].
  - destruct (App.currentUser app) as [current|] eqn:C.
    2:{ assert (App.syncCurrentUser systemUsers app = app) as E
          by (unfold App.syncCurrentUser; now rewrite C).
        now rewrite !E. }
    destruct (find (fun u => jsstring_eqb (User.id u) (User.id current))
                   systemUsers) as [entry|] eqn:F.
    2:{ assert (App.syncCurrentUser systemUsers app = app) as E
          by (unfold App.syncCurrentUser; now rewrite C, F).
        now rewrite !E. }
    destruct (S current entry eq_refl F) as (user & Cu & _ & Ei & En & Ea & Er).
    unfold App.syncCurrentUser at 1. rewrite Cu, Ei, F, En, Ea, Er.
    now rewrite !jsstring_eqb_refl, Role_eqb_refl.
  - intro C. unfold App.syncCurrentUser. now rewrite C.
  - intros current C N. unfold App.syncCurrentUser. rewrite C.
    destruct (find _ systemUsers) as [entry|] eqn:F; [|reflexivity].
    apply find_some in F as [I E]. apply jsstring_eqb_eq in E.
    now destruct (N entry I).
Qed.

Lemma targetUser_cases (currentUser : User.t) (systemUsers : list User.t)
    (p : UserProfile.t) :
  UserProfile.targetUser currentUser systemUsers p = currentUser
  \/ (User.role currentUser <> B
      /\ In (UserProfile.targetUser currentUser systemUsers p) systemUsers
      /\ User.tenantId (UserProfile.targetUser currentUser systemUsers p)
         = User.tenantId currentUser
      /\ User.id (UserProfile.targetUser currentUser systemUsers p)
         = UserProfile.selectedUserId p).
Proof.
  unfold UserProfile.targetUser.
  destruct (Role_eqb (User.role currentUser) B) eqn:R; [now left|].
  destruct (find _ (UserProfile.tenantUsers currentUser systemUsers))
    as [u|] eqn:F; [|now left].
  right. apply find_some in F as [I E]. apply jsstring_eqb_eq in E.
  apply filter_In in I as [I T]. apply jsstring_eqb_eq in T.
  repeat split; try assumption. intro Rb. now rewrite Rb in R.
Qed.

(** X22.  The profile on display is of the tenant of the session user,
    whatever identifier is selected: it is the session user, or a user of
    the list with the selected identifier and the session user's tenant;
    for a resident (role B) it is the session user; the users listed are
    those of the session user's tenant; and a porter (role A) may edit the
    profile on display exactly when it has the porter's own identifier. *)
Theorem profile_of_own_tenant (currentUser : User.t) (systemUsers : list User.t)
    (p : UserProfile.t) :
  User.tenantId (UserProfile.targetUser currentUser systemUsers p)
  = User.tenantId currentUser
  /\ (UserProfile.targetUser currentUser systemUsers p = currentUser
      \/ (In (UserProfile.targetUser currentUser systemUsers p) systemUsers
          /\ User.id (UserProfile.targetUser currentUser systemUsers p)
             = UserProfile.selectedUserId p))
  /\ (User.role currentUser = B ->
      UserProfile.targetUser currentUser systemUsers p = currentUser)
  /\ (forall u, In u (UserProfile.tenantUsers currentUser systemUsers) <->
                In u systemUsers /\ User.tenantId u = User.tenantId currentUser)
  /\ (User.role currentUser <> X ->
      (UserProfile.canEdit currentUser systemUsers p = true <->
       User.id (UserProfile.targetUser currentUser systemUsers p)
       = User.id currentUser)).
Proof.
  split; [|split; [|split; [|split]]].
  - destruct (targetUser_cases currentUser systemUsers p) as [->|(_ & _ & T & _)];
      [reflexivity|assumption].
  - destruct (targetUser_cases currentUser systemUsers p) as [E|(_ & I & _ & E)];
      [now left|right; now split].
  - intro R. unfold UserProfile.targetUser. now rewrite R.
  - intro u. unfold UserProfile.tenantUsers. rewrite filter_In.
    split; intros [I E]; (split; [assumption|]); now apply jsstring_eqb_eq.
  - intro R. unfold UserProfile.canEdit, UserProfile.isSelf.
    destruct (User.role currentUser); [now destruct R| |];
      cbn [Role_eqb orb]; apply jsstring_eqb_eq.
Qed.

Lemma find_map_same (p : User.t -> bool) (f : User.t -> User.t) (l : list User.t) :
  (forall u, p (f u) = p u) ->
  find p (map f l) = option_map f (find p l).
Proof.
  intro E. induction l as [|u l IH]; [reflexivity|]. cbn [map find].
  rewrite E. now destruct (p u).
Qed.

Lemma assign_profile_form (u : User.t) (form : PartialUser.t) :
  profile_form form ->
  User.id (PartialUser.assign u form) = User.id u
  /\ User.email (PartialUser.assign u form) = User.email u
  /\ User.tenantId (PartialUser.assign u form) = User.tenantId u
  /\ User.unit (PartialUser.assign u form) = User.unit u.
Proof.
  intros (Ei & Ee & Et & Eu). unfold PartialUser.assign. cbn.
  now rewrite Ei, Ee, Et, Eu.
Qed.

Lemma user_ext (u v : User.t) :
  User.id u = User.id v -> User.name u = User.name v ->
  User.email u = User.email v -> User.role u = User.role v ->
  User.tenantId u = User.tenantId v -> User.avatar u = User.avatar v ->
  User.unit u = User.unit v -> u = v.
Proof. destruct u, v. cbn. intros; subst; reflexivity. Qed.

Lemma logged_in_In (users : list User.t) (user : User.t) :
  logged_in users user -> In user users.
Proof. intro L. now apply find_some in L as [I _]. Qed.

(** The session user after the effect, when the list is rewritten in
    place without a change of identifiers. *)
Lemma synced_map (f : User.t -> User.t) (users : list User.t) (user : User.t) :
  (forall u, User.id (f u) = User.id u) ->
  logged_in users user ->
  (UserProfile.synced (map f users) user = f user
   \/ (UserProfile.synced (map f users) user = user
       /\ User.name (f user) = User.name user
       /\ User.avatar (f user) = User.avatar user
       /\ User.role (f user) = User.role user))
  /\ find (fun u => jsstring_eqb (User.id u) (User.id user)) (map f users)
     = Some (f user).
Proof.
  intros Id L.
  assert (find (fun u => jsstring_eqb (User.id u) (User.id user)) (map f users)
          = Some (f user)) as F.
  { rewrite find_map_same by (intro u; now rewrite Id).
    unfold logged_in in L. now rewrite L. }
  split; [|exact F].
  unfold UserProfile.synced.
  destruct (syncCurrentUser_cases (map f users)
              (App.setCurrentUser (Some user) App.initial) user (f user)
              eq_refl F) as [[-> _]|[-> E]].
  - now left.
  - right. now split.
Qed.

Section Profile.
Variable users0 : list User.t.

Lemma session_kept_render (s : UserProfile.Session) (p : UserProfile.t) :
  session_kept users0 s ->
  profile_form (UserProfile.editForm p) ->
  session_kept users0
    {| UserProfile.currentUser := UserProfile.currentUser s;
       UserProfile.systemUsers := UserProfile.systemUsers s;
       UserProfile.profile := p;
       UserProfile.rendered := UserProfile.editForm p :: UserProfile.rendered s |}.
Proof.
  intros (F & L & M) Pf. split; [|split; assumption].
  cbn [UserProfile.profile UserProfile.rendered].
  apply Forall_cons; [assumption|]. apply Forall_cons; [assumption|].
  now apply Forall_inv_tail in F.
Qed.

Lemma profile_form_empty : profile_form PartialUser.empty.
Proof. now repeat split. Qed.

Lemma session_kept_save (s : UserProfile.Session) :
  session_kept users0 s ->
  session_kept users0 (UserProfile.handle UserProfile.save_pressed s).
Proof.
  intros (F & L & Mi & Me & Mt & Mu).
  pose proof (Forall_inv F) as Pf.
  unfold UserProfile.handle, UserProfile.handleSave. cbv zeta.
  set (f := fun u =>
              if jsstring_eqb (User.id u)
                   (User.id (UserProfile.targetUser (UserProfile.currentUser s)
                               (UserProfile.systemUsers s) (UserProfile.profile s)))
              then PartialUser.assign u (UserProfile.editForm (UserProfile.profile s))
              else u).
  assert (forall u, User.id (f u) = User.id u /\ User.email (f u) = User.email u
                    /\ User.tenantId (f u) = User.tenantId u
                    /\ User.unit (f u) = User.unit u) as Fp.
  { intro u. unfold f. destruct (jsstring_eqb _ _); [|now repeat split].
    now apply assign_profile_form. }
  destruct (synced_map f (UserProfile.systemUsers s) (UserProfile.currentUser s)
              (fun u => proj1 (Fp u)) L) as [Sy Fi].
  split; [|split; [|repeat split]].
  - cbn [UserProfile.profile UserProfile.rendered UserProfile.editForm].
    apply Forall_cons; [apply profile_form_empty|].
    apply Forall_cons; [apply profile_form_empty|].
    now apply Forall_inv_tail in F.
  - cbn [UserProfile.systemUsers UserProfile.currentUser]. unfold logged_in.
    destruct Sy as [->|(-> & En & Ea & Er)].
    + rewrite (proj1 (Fp _)). exact Fi.
    + rewrite Fi. f_equal. destruct (Fp (UserProfile.currentUser s)) as (? & ? & ? & ?).
      now apply user_ext.
  - cbn [UserProfile.systemUsers]. rewrite map_map, <- Mi. apply map_ext.
    intro u. apply Fp.
  - cbn [UserProfile.systemUsers]. rewrite map_map, <- Me. apply map_ext.
    intro u. apply Fp.
  - cbn [UserProfile.systemUsers]. rewrite map_map, <- Mt. apply map_ext.
    intro u. apply Fp.
  - cbn [UserProfile.systemUsers]. rewrite map_map, <- Mu. apply map_ext.
    intro u. apply Fp.
Qed.

Lemma session_kept_step (s : UserProfile.Session) (ev : UserProfile.Event) :
  session_kept users0 s -> session_kept users0 (UserProfile.step s ev).
Proof.
  intro K. unfold UserProfile.step.
  destruct (UserProfile.enabled s ev); [|assumption].
  pose proof K as (F & L & M). pose proof (Forall_inv F) as Pf.
  destruct ev.
  - apply session_kept_render; [assumption|]. now repeat split.
  - now apply session_kept_save.
  - now apply session_kept_render.
  - unfold UserProfile.handle. cbv zeta.
    destruct (nth_error _ row); [|assumption].
    apply session_kept_render; [assumption|].
    unfold UserProfile.handleUserSelect.
    destruct (Role_eqb _ B); [assumption|apply profile_form_empty].
  - apply session_kept_render; [assumption|]. exact Pf.
  - apply session_kept_render; [assumption|]. exact Pf.
  - apply session_kept_render; [assumption|]. exact Pf.
  - unfold UserProfile.handle. cbv zeta.
    destruct (nth_error (UserProfile.rendered s) render) as [form|] eqn:N;
      [|assumption].
    apply session_kept_render; [assumption|].
    apply nth_error_In in N.
    apply Forall_inv_tail in F.
    exact (proj1 (Forall_forall _ _) F form N).
  - unfold UserProfile.handle. split; [|split; assumption].
    cbn. repeat constructor.
Qed.

Lemma session_kept_run (events : list UserProfile.Event) :
  forall s, session_kept users0 s ->
            session_kept users0 (UserProfile.run events s).
Proof.
  unfold UserProfile.run. induction events as [|ev events IH]; intros s K;
    [assumption|].
  cbn [fold_left]. apply IH. now apply session_kept_step.
Qed.

End Profile.

(** X23.  The profile screen keeps the session whole: whatever the
    events, for a session that starts with the user being the entry of the
    list with its identifier, the session user is still that entry after
    them, the effect of [App] having followed every save; and the
    identifiers, the e-mail addresses, the tenants and the units of the list
    are what they were: a save changes names, avatars and roles only. *)
Theorem profile_keeps_session (currentUser : User.t) (systemUsers : list User.t)
    (events : list UserProfile.Event) :
  logged_in systemUsers currentUser ->
  logged_in
    (UserProfile.systemUsers
       (UserProfile.run events (UserProfile.start currentUser systemUsers)))
    (UserProfile.currentUser
       (UserProfile.run events (UserProfile.start currentUser systemUsers)))
  /\ map User.id
       (UserProfile.systemUsers
          (UserProfile.run events (UserProfile.start currentUser systemUsers)))
     = map User.id systemUsers
  /\ map User.email
       (UserProfile.systemUsers
          (UserProfile.run events (UserProfile.start currentUser systemUsers)))
     = map User.email systemUsers
  /\ map User.tenantId
       (UserProfile.systemUsers
          (UserProfile.run events (UserProfile.start currentUser systemUsers)))
     = map User.tenantId systemUsers
  /\ map User.unit
       (UserProfile.systemUsers
          (UserProfile.run events (UserProfile.start currentUser systemUsers)))
     = map User.unit systemUsers.
Proof.
  intro L.
  destruct (session_kept_run systemUsers events
              (UserProfile.start currentUser systemUsers)) as (_ & K).
  - split; [|now repeat split]. cbn. repeat constructor.
  - exact K.
Qed.

Lemma unique_user_by_id (l : list User.t) (x y : User.t) :
  NoDup (map User.id l) -> In x l -> In y l -> User.id x = User.id y -> x = y.
Proof.
  induction l as [|a l IH]; [intros _ []|].
  cbn [map]. intros D Ix Iy E. apply NoDup_cons_iff in D as [N D].
  destruct Ix as [->|Ix], Iy as [->|Iy]; try reflexivity.
  - destruct N. rewrite E. now apply in_map.
  - destruct N. rewrite <- E. now apply in_map.
  - now apply IH.
Qed.

Lemma isSelf_selected (currentUser : User.t) (systemUsers : list User.t)
    (p q : UserProfile.t) :
  UserProfile.selectedUserId p = UserProfile.selectedUserId q ->
  UserProfile.isSelf currentUser systemUsers p
  = UserProfile.isSelf currentUser systemUsers q.
Proof.
  intro E. unfold UserProfile.isSelf, UserProfile.targetUser. now rewrite E.
Qed.

Section NonAdmin.
Variables (user0 : User.t) (users0 : list User.t).
Hypothesis no_admin : User.role user0 <> X.
Hypothesis unique_ids : NoDup (map User.id users0).
Hypothesis user0_logged_in : logged_in users0 user0.

(** The profile on display while a user who is no administrator edits is
    the session user. *)
Lemma own_target (s : UserProfile.Session) :
  own_profile_only user0 users0 s ->
  UserProfile.isSelf (UserProfile.currentUser s) (UserProfile.systemUsers s)
    (UserProfile.profile s) = true ->
  UserProfile.targetUser (UserProfile.currentUser s) (UserProfile.systemUsers s)
    (UserProfile.profile s) = UserProfile.currentUser s.
Proof.
  intros (name & avatar & Eu & Ec) S. unfold UserProfile.isSelf in S.
  apply jsstring_eqb_eq in S.
  destruct (targetUser_cases (UserProfile.currentUser s)
              (UserProfile.systemUsers s) (UserProfile.profile s))
    as [E|(_ & I & _ & _)]; [assumption|].
  set (t := UserProfile.targetUser (UserProfile.currentUser s)
              (UserProfile.systemUsers s) (UserProfile.profile s)) in *.
  rewrite Eu in I. apply in_map_iff in I as (u0 & Et & I0).
  assert (User.id u0 = User.id user0) as Ei.
  { rewrite Ec in S. cbn [with_name_avatar User.id] in S. rewrite <- S, <- Et.
    now destruct (jsstring_eqb (User.id u0) (User.id user0)). }
  assert (u0 = user0) as ->.
  { apply (unique_user_by_id users0); try assumption.
    now apply logged_in_In. }
  rewrite <- Et, Ec. now rewrite jsstring_eqb_refl.
Qed.

Lemma non_admin_step (s : UserProfile.Session) (ev : UserProfile.Event) :
  session_kept users0 s ->
  own_profile_only user0 users0 s ->
  own_role_kept user0 s ->
  own_profile_only user0 users0 (UserProfile.step s ev)
  /\ own_role_kept user0 (UserProfile.step s ev).
Proof.
  intros K O R. unfold UserProfile.step.
  destruct (UserProfile.enabled s ev) eqn:En; [|now split].
  pose proof O as (name & avatar & Eu & Ec).
  pose proof R as (Fr & Se).
  pose proof K as (Fk & L & _).
  assert (User.role (UserProfile.currentUser s) = User.role user0) as Rc
    by now rewrite Ec.
  assert (Role_eqb (User.role (UserProfile.currentUser s)) X = false) as Rx.
  { rewrite Rc. destruct (User.role user0); try reflexivity. now destruct no_admin. }
  unfold UserProfile.enabled in En. cbv zeta in En.
  unfold UserProfile.canEdit in En. rewrite Rx in En. cbn [orb] in En.
  destruct ev.
  - (* edit_pressed *)
    apply andb_true_iff in En as [S _].
    split; [exact O|]. split.
    + cbn [UserProfile.handle UserProfile.profile UserProfile.rendered
           UserProfile.handleEditClick UserProfile.editForm].
      apply Forall_cons; [|apply Forall_cons; [|now apply Forall_inv_tail in Fr]];
        right; cbn [PartialUser.role]; now rewrite (own_target s O S), Rc.
    + intros _. cbn [UserProfile.handle UserProfile.currentUser
                     UserProfile.systemUsers UserProfile.profile].
      now rewrite (isSelf_selected _ _ _ (UserProfile.profile s)).
  - (* save_pressed *)
    apply andb_true_iff in En as [S _].
    pose proof (own_target s O S) as T.
    pose proof (Forall_inv Fk) as Pf. pose proof (Forall_inv Fr) as Pr.
    unfold UserProfile.handle, UserProfile.handleSave. cbv zeta. rewrite T.
    set (form := UserProfile.editForm (UserProfile.profile s)) in *.
    set (f := fun u =>
                if jsstring_eqb (User.id u) (User.id (UserProfile.currentUser s))
                then PartialUser.assign u form else u).
    set (name' := match PartialUser.name form with Some v => v | None => name end).
    set (avatar' := match PartialUser.avatar form with Some v => v | None => avatar end).
    assert (PartialUser.assign (UserProfile.currentUser s) form
            = with_name_avatar name' avatar' user0) as Ea.
    { destruct Pf as (Fi & Fe & Ft & Fu). rewrite Ec.
      unfold PartialUser.assign, with_name_avatar, name', avatar'. cbn.
      rewrite Fi, Fe, Ft, Fu. destruct Pr as [->| ->]; reflexivity. }
    assert (forall u, User.id (f u) = User.id u) as Fid.
    { intro u. unfold f. destruct (jsstring_eqb _ _); [|reflexivity].
      now apply assign_profile_form. }
    assert (f (UserProfile.currentUser s) = with_name_avatar name' avatar' user0)
      as Fc.
    { unfold f. now rewrite jsstring_eqb_refl. }
    destruct (synced_map f (UserProfile.systemUsers s) (UserProfile.currentUser s)
                Fid L) as [Sy _].
    split.
    + exists name', avatar'.
      cbn [UserProfile.systemUsers UserProfile.currentUser]. split.
      * rewrite Eu, map_map. apply map_ext_in. intros u0 I0.
        destruct (jsstring_eqb (User.id u0) (User.id user0)) eqn:E0.
        -- apply jsstring_eqb_eq in E0.
           assert (u0 = user0) as ->.
           { apply (unique_user_by_id users0); try assumption.
             now apply logged_in_In. }
           now rewrite <- Ec.
        -- unfold f. rewrite Ec. cbn [with_name_avatar User.id]. now rewrite E0.
      * destruct Sy as [->|(-> & En' & Ea' & _)]; [assumption|].
        rewrite Fc in En', Ea'. cbn [with_name_avatar User.name User.avatar] in *.
        rewrite Ec in *. cbn [with_name_avatar User.name User.avatar] in *.
        now rewrite <- En', <- Ea'.
    + split; [|discriminate].
      cbn [UserProfile.profile UserProfile.rendered UserProfile.editForm].
      apply Forall_cons; [now left|]. apply Forall_cons; [now left|].
      now apply Forall_inv_tail in Fr.
  - (* cancel_pressed *)
    split; [exact O|]. split; [|discriminate].
    cbn [UserProfile.handle UserProfile.profile UserProfile.rendered
         UserProfile.editForm].
    apply Forall_cons; [now apply Forall_inv in Fr|assumption].
  - (* user_selected *)
    unfold UserProfile.handle. cbv zeta.
    destruct (nth_error _ row) as [u|]; [|now split].
    split; [exact O|]. unfold UserProfile.handleUserSelect.
    destruct (Role_eqb (User.role (UserProfile.currentUser s)) B).
    + split; [|exact Se].
      cbn [UserProfile.profile UserProfile.rendered].
      apply Forall_cons; [now apply Forall_inv in Fr|assumption].
    + split; [|discriminate].
      cbn [UserProfile.profile UserProfile.rendered UserProfile.editForm].
      apply Forall_cons; [now left|]. apply Forall_cons; [now left|].
      now apply Forall_inv_tail in Fr.
  - (* name_typed *)
    split; [exact O|]. split.
    + cbn [UserProfile.handle UserProfile.profile UserProfile.rendered
           UserProfile.setEditForm UserProfile.editForm].
      apply Forall_cons; [|apply Forall_cons; [|now apply Forall_inv_tail in Fr]];
        exact (Forall_inv Fr).
    + exact Se.
  - (* avatar_typed *)
    split; [exact O|]. split.
    + cbn [UserProfile.handle UserProfile.profile UserProfile.rendered
           UserProfile.setEditForm UserProfile.editForm].
      apply Forall_cons; [|apply Forall_cons; [|now apply Forall_inv_tail in Fr]];
        exact (Forall_inv Fr).
    + exact Se.
  - (* role_chosen *)
    discriminate.
  - (* image_loaded *)
    unfold UserProfile.handle. cbv zeta.
    destruct (nth_error (UserProfile.rendered s) render) as [form|] eqn:N;
      [|now split].
    apply nth_error_In in N.
    pose proof (proj1 (Forall_forall _ _) (Forall_inv_tail Fr) form N) as Pr.
    split; [exact O|]. split; [|exact Se].
    cbn [UserProfile.profile UserProfile.rendered UserProfile.setEditForm
         UserProfile.editForm].
    apply Forall_cons; [|apply Forall_cons; [|now apply Forall_inv_tail in Fr]];
      exact Pr.
  - (* remounted *)
    split; [exact O|]. split; [|discriminate].
    cbn. repeat constructor.
Qed.

Lemma non_admin_run (events : list UserProfile.Event) :
  forall s,
    session_kept users0 s ->
    own_profile_only user0 users0 s ->
    own_role_kept user0 s ->
    own_profile_only user0 users0 (UserProfile.run events s).
Proof.
  unfold UserProfile.run. induction events as [|ev events IH]; intros s K O R;
    [assumption|].
  cbn [fold_left]. destruct (non_admin_step s ev K O R) as [O' R'].
  apply IH; try assumption. now apply session_kept_step.
Qed.

End NonAdmin.

Lemma with_name_avatar_same (u : User.t) :
  with_name_avatar (User.name u) (User.avatar u) u = u.
Proof. now destruct u. Qed.

(** X24.  A user who is no administrator changes the own name and avatar
    and nothing else: whatever the events, in a list of users with pairwise
    distinct identifiers, the list is after them what it was but for the
    name and the avatar of the entry of the session user, which the session
    user has too; so every role is what it was, the user's own included. *)
Theorem profile_of_non_admin (currentUser : User.t) (systemUsers : list User.t)
    (events : list UserProfile.Event) :
  User.role currentUser <> X ->
  NoDup (map User.id systemUsers) ->
  logged_in systemUsers currentUser ->
  (exists name avatar,
     UserProfile.systemUsers
       (UserProfile.run events (UserProfile.start currentUser systemUsers))
     = map (fun u => if jsstring_eqb (User.id u) (User.id currentUser)
                     then with_name_avatar name avatar u else u) systemUsers
     /\ UserProfile.currentUser
          (UserProfile.run events (UserProfile.start currentUser systemUsers))
        = with_name_avatar name avatar currentUser)
  /\ map User.role
       (UserProfile.systemUsers
          (UserProfile.run events (UserProfile.start currentUser systemUsers)))
     = map User.role systemUsers.
Proof.
  intros R D L.
  assert (own_profile_only currentUser systemUsers
            (UserProfile.run events (UserProfile.start currentUser systemUsers)))
    as (name & avatar & Eu & Ec).
  { apply non_admin_run; try assumption.
    - split; [|now repeat split]. cbn. repeat constructor.
    - exists (User.name currentUser), (User.avatar currentUser).
      cbn [UserProfile.start UserProfile.systemUsers UserProfile.currentUser].
      split; [|now rewrite with_name_avatar_same].
      rewrite <- (map_id systemUsers) at 1. apply map_ext_in. intros u I.
      destruct (jsstring_eqb (User.id u) (User.id currentUser)) eqn:E;
        [|reflexivity].
      apply jsstring_eqb_eq in E.
      assert (u = currentUser) as ->.
      { apply (unique_user_by_id systemUsers); try assumption.
        now apply logged_in_In. }
      now rewrite with_name_avatar_same.
    - split; [|discriminate]. cbn. repeat constructor; now left. }
  split.
  - exists name, avatar. now split.
  - rewrite Eu, map_map. apply map_ext. intro u.
    now destruct (jsstring_eqb (User.id u) (User.id currentUser)).
Qed.


(** ** The properties on the sample data *)

Lemma added_record_lifetime_witness :
  forallb is_white_space (NewResident.name (UserManagement.newResident sample_screen))
  = false
  /\ forallb is_white_space (NewResident.unit (UserManagement.newResident sample_screen))
     = false
  /\ exists r,
       residents (snd (fst (UserManagement.handleAdd (H := IsoUtcHost) carlos
                              sample_screen sample_store sample_world)))
       = residents sample_store ++ [r]
       /\ (In r (residents
                   (sweeps (H := IsoUtcHost) [1700000000000; new_year_2030]
                      (snd (fst (UserManagement.handleAdd (H := IsoUtcHost) carlos
                                   sample_screen sample_store sample_world)))))
           <-> Forall (fun now => retained (H := IsoUtcHost) now r = true)
                      [1700000000000; new_year_2030]).
Proof.
  split; [reflexivity|]. split; [reflexivity|].
  destruct (added_record_lifetime (H := IsoUtcHost) carlos sample_screen
              sample_store sample_world [1700000000000; new_year_2030]
              eq_refl eq_refl) as (r & E & K & _).
  exists r. split; assumption.
Defined.

Lemma add_then_delete_witness :
  User.role carlos = X
  /\ is_safe_integer (clock_source sample_world (clock_reads sample_world)) = true
  /\ exists ui1 st1 r,
       fst (UserManagement.handleAdd (H := IsoUtcHost) carlos sample_screen
              sample_store sample_world) = (ui1, st1)
       /\ residents st1 = residents sample_store ++ [r]
       /\ ((forall x, In x (residents sample_store) ->
                      Resident.id x <> Resident.id r) ->
           residents
             (snd (UserManagement.confirmDelete
                     (UserManagement.initiateDelete carlos (residents st1)
                        (Resident.id r) ui1) st1))
           = residents sample_store).
Proof.
  split; [reflexivity|]. split; [reflexivity|].
  destruct (add_then_delete (H := IsoUtcHost) carlos sample_screen sample_store
              sample_world eq_refl eq_refl eq_refl eq_refl)
    as (ui1 & st1 & r & E1 & E2 & _ & _ & E3 & _).
  exists ui1, st1, r. repeat split; assumption.
Defined.

Lemma edit_saved_unchanged_witness :
  NoDup (map Resident.id (residents sample_store))
  /\ In juan (residents sample_store)
  /\ snd (UserManagement.handleSaveEdit
            (UserManagement.handleEditClick carlos juan true false
               (UserManagement.initial carlos)) sample_store)
     = {| residents := residents sample_store;
          setItem_log := residents sample_store :: setItem_log sample_store |}.
Proof.
  assert (NoDup (map Resident.id (residents sample_store))) as D.
  { repeat constructor; cbn [map In residents sample_store];
      intuition discriminate. }
  assert (In juan (residents sample_store)) as I by now left.
  split; [exact D|]. split; [exact I|].
  apply (proj1 (proj2 (edit_saved_unchanged carlos juan true false
                         (UserManagement.initial carlos) sample_store
                         eq_refl (fun E => ltac:(discriminate E)) D I eq_refl))
           eq_refl).
Defined.

Lemma edit_keeps_identity_witness :
  at_rest (UserManagement.initial carlos)
  /\ NoDup (map Resident.id (residents sample_store))
  /\ forallb is_field_edit sample_edits = true
  /\ exists f,
       residents
         (snd (fst (UserManagement.run (H := IsoUtcHost) (U := AsciiCase) carlos
                      (UserManagement.row_edit 0 true false
                       :: sample_edits ++ [UserManagement.edit_save])
                      (UserManagement.initial carlos, sample_store,
                       sample_world))))
       = map f (residents sample_store)
       /\ (forall x, In x (residents sample_store) ->
             Resident.id (f x) = Resident.id x
             /\ Resident.tenantId (f x) = Resident.tenantId x
             /\ Resident.status (f x) = Resident.status x
             /\ Resident.expirationDate (f x) = Resident.expirationDate x
             /\ (nth_error (UserManagement.filtered (U := AsciiCase) carlos
                              (UserManagement.initial carlos)
                              (residents sample_store)) 0
                 <> Some x -> f x = x)).
Proof.
  assert (at_rest (UserManagement.initial carlos)) as R
      by (split; [reflexivity|split; reflexivity]).
  assert (NoDup (map Resident.id (residents sample_store))) as D.
  { repeat constructor; cbn [map In residents sample_store];
      intuition discriminate. }
  split; [exact R|]. split; [exact D|]. split; [reflexivity|].
  exact (edit_keeps_identity (H := IsoUtcHost) (U := AsciiCase) carlos
           (UserManagement.initial carlos) sample_store sample_world 0 true false
           sample_edits R D eq_refl).
Defined.

Lemma extension_postpones_sweep_witness :
  In past_visitor (residents sample_store)
  /\ (In (with_expiration
            (or_undefined (UserManagement.extensionDate sample_extension))
            past_visitor)
         (residents
            (checkExpiration (H := IsoUtcHost) new_year_2030
               (snd (UserManagement.handleSaveExtension (str "7")
                       sample_extension sample_store))))
      <-> UserManagement.extensionDate sample_extension = []
          \/ @Date_parse IsoUtcHost (UserManagement.extensionDate sample_extension)
             = None
          \/ exists t,
               @Date_parse IsoUtcHost
                 (UserManagement.extensionDate sample_extension) = Some t
               /\ new_year_2030 < t).
Proof.
  assert (In past_visitor (residents sample_store)) as I by (right; now left).
  split; [exact I|].
  apply (proj2 (proj2 (proj2
           (extension_postpones_sweep (H := IsoUtcHost) (str "7")
              sample_extension sample_store new_year_2030 past_visitor
              I eq_refl)))).
Defined.

Lemma porter_changes_nothing_witness :
  User.role ana = A
  /\ snd (fst (UserManagement.run (H := IsoUtcHost) (U := AsciiCase) ana
                 porter_events
                 (UserManagement.initial ana, sample_store, sample_world)))
     = sweeps (H := IsoUtcHost) (timer_instants porter_events) sample_store.
Proof.
  split; [reflexivity|].
  apply (proj1 (porter_changes_nothing (H := IsoUtcHost) (U := AsciiCase) ana
                  porter_events sample_store sample_world eq_refl)).
Defined.

Lemma resident_changes_own_unit_only_witness :
  User.role beto = B
  /\ unique_along (H := IsoUtcHost) (U := AsciiCase) beto resident_events
       (UserManagement.initial beto, sample_store, still_world)
  /\ other_units beto
       (residents
          (snd (fst (UserManagement.run (H := IsoUtcHost) (U := AsciiCase) beto
                       resident_events
                       (UserManagement.initial beto, sample_store, still_world)))))
     = other_units beto
         (residents (sweeps (H := IsoUtcHost) (timer_instants resident_events)
                       sample_store)).
Proof.
  assert (unique_along (H := IsoUtcHost) (U := AsciiCase) beto resident_events
            (UserManagement.initial beto, sample_store, still_world)) as Q.
  { vm_compute. repeat split; repeat constructor; cbn [In]; intuition discriminate. }
  split; [reflexivity|]. split; [exact Q|].
  apply (resident_changes_own_unit_only (H := IsoUtcHost) (U := AsciiCase) beto
           resident_events sample_store still_world eq_refl Q).
Defined.

Lemma profile_keeps_session_witness :
  logged_in sample_users ana
  /\ logged_in
       (UserProfile.systemUsers
          (UserProfile.run profile_events (UserProfile.start ana sample_users)))
       (UserProfile.currentUser
          (UserProfile.run profile_events (UserProfile.start ana sample_users))).
Proof.
  assert (logged_in sample_users ana) as L by reflexivity.
  split; [exact L|].
  apply (proj1 (profile_keeps_session ana sample_users profile_events L)).
Defined.

Lemma profile_of_non_admin_witness :
  User.role ana <> X
  /\ NoDup (map User.id sample_users)
  /\ logged_in sample_users ana
  /\ map User.role
       (UserProfile.systemUsers
          (UserProfile.run profile_events (UserProfile.start ana sample_users)))
     = map User.role sample_users.
Proof.
  assert (User.role ana <> X) as R by discriminate.
  assert (NoDup (map User.id sample_users)) as D.
  { repeat constructor; cbn [map In sample_users]; intuition discriminate. }
  assert (logged_in sample_users ana) as L by reflexivity.
  split; [exact R|]. split; [exact D|]. split; [exact L|].
  apply (proj2 (profile_of_non_admin ana sample_users profile_events R D L)).
Defined.
